(** * Zama confidential polls: the vote-confirmation workflow of [app.py]

    A shallow embedding of the Flask application in [src/app.py]: the four
    SQLite relations created by [init_db], the request helpers, the rate
    limiter, and the handlers [create_poll], [poll], [vote], [confirm_vote]
    and [results].  Python strings are modelled as [string], one character
    per code point (code points below 256); timestamps are integer seconds. *)

From Stdlib Require Import String Ascii List ZArith Bool Arith Lia Permutation.
From Stdlib Require Import DecimalString Sorted.
Import ListNotations.

Local Open Scope string_scope.
Local Open Scope Z_scope.

(** ** Python string helpers *)

Module Py.

Definition code (c : ascii) : nat := nat_of_ascii c.

Definition between (lo hi : nat) (c : ascii) : bool :=
  (Nat.leb lo (code c) && Nat.leb (code c) hi)%bool.

(** [str.isspace] on the code points below 256. *)
Definition is_space (c : ascii) : bool :=
  (between 9 13 c || between 28 32 c
   || Nat.eqb (code c) 133 || Nat.eqb (code c) 160)%bool.

Fixpoint lstrip (s : string) : string :=
  match s with
  | EmptyString => EmptyString
  | String c s' => if is_space c then lstrip s' else s
  end.

Fixpoint rstrip (s : string) : string :=
  match s with
  | EmptyString => EmptyString
  | String c s' =>
      match rstrip s' with
      | EmptyString => if is_space c then EmptyString else String c EmptyString
      | r => String c r
      end
  end.

(** [s.strip()] *)
Definition strip (s : string) : string := rstrip (lstrip s).

(** [s[:n]] *)
Fixpoint take (n : nat) (s : string) : string :=
  match n, s with
  | S n', String c s' => String c (take n' s')
  | _, _ => EmptyString
  end.

Definition lower_char (c : ascii) : ascii :=
  if (between 65 90 c || between 192 214 c || between 216 222 c)%bool
  then ascii_of_nat (code c + 32) else c.

(** [s.lower()] *)
Fixpoint lower (s : string) : string :=
  match s with
  | EmptyString => EmptyString
  | String c s' => String (lower_char c) (lower s')
  end.

Definition is_ascii_digit (c : ascii) : bool := between 48 57 c.

(** [str.isdigit] also accepts the superscript digits of Latin-1. *)
Definition is_digit_char (c : ascii) : bool :=
  (is_ascii_digit c || between 178 179 c || Nat.eqb (code c) 185)%bool.

Fixpoint all_chars (p : ascii -> bool) (s : string) : bool :=
  match s with
  | EmptyString => true
  | String c s' => (p c && all_chars p s')%bool
  end.

(** [s.isdigit()]: false on the empty string. *)
Definition isdigit (s : string) : bool :=
  match s with
  | EmptyString => false
  | _ => all_chars is_digit_char s
  end.

(** Truthiness of an optional string ([None] and [""] are falsy). *)
Definition truthy (o : option string) : bool :=
  match o with
  | Some (String _ _) => true
  | _ => false
  end.

(** [s.split(c)[0]] *)
Fixpoint before_first (c : ascii) (s : string) : string :=
  match s with
  | EmptyString => EmptyString
  | String d s' => if Ascii.eqb d c then EmptyString else String d (before_first c s')
  end.

(** [s.partition(c)] when [c] occurs in [s]. *)
Fixpoint split_first (c : ascii) (s : string) : option (string * string) :=
  match s with
  | EmptyString => None
  | String d s' =>
      if Ascii.eqb d c then Some (EmptyString, s')
      else match split_first c s' with
           | Some (a, b) => Some (String d a, b)
           | None => None
           end
  end.

(** [s.rsplit(c, 1)] when [c] occurs in [s]: the cut is at the last [c]. *)
Fixpoint rsplit1 (c : ascii) (s : string) : option (string * string) :=
  match s with
  | EmptyString => None
  | String d s' =>
      match rsplit1 c s' with
      | Some (a, b) => Some (String d a, b)
      | None => if Ascii.eqb d c then Some (EmptyString, s') else None
      end
  end.

Definition newline : ascii := ascii_of_nat 10.

(** Where the regex anchor [$] may sit: at the end of the text, or just in
    front of one final line feed.  The result is the text the pattern body
    has to consume. *)
Definition dollar_candidates (s : string) : list string :=
  match rsplit1 newline s with
  | Some (a, EmptyString) => [s; a]
  | _ => [s]
  end.

End Py.

(** ** Regular expressions of the application *)

Definition is_lower_hex (c : ascii) : bool :=
  (Py.between 97 102 c || Py.between 48 57 c)%bool.

(** The body [[a-f0-9]{12}] against a whole text. *)
Definition hex12 (s : string) : bool :=
  (Nat.eqb (String.length s) 12 && Py.all_chars is_lower_hex s)%bool.

(** [re.match(r'^[a-f0-9]{12}$', poll_id)] *)
Definition poll_id_re (poll_id : string) : bool :=
  existsb hex12 (Py.dollar_candidates poll_id).

Definition is_alpha (c : ascii) : bool :=
  (Py.between 97 122 c || Py.between 65 90 c)%bool.

Definition is_alnum (c : ascii) : bool := (is_alpha c || Py.between 48 57 c)%bool.

Definition in_chars (cs : string) (c : ascii) : bool :=
  existsb (Ascii.eqb c) (list_ascii_of_string cs).

(** [[a-zA-Z0-9._%+-]] *)
Definition is_local_char (c : ascii) : bool := (is_alnum c || in_chars "._%+-" c)%bool.

(** [[a-zA-Z0-9.-]] *)
Definition is_domain_char (c : ascii) : bool := (is_alnum c || in_chars ".-" c)%bool.

Definition nonempty (s : string) : bool :=
  match s with EmptyString => false | _ => true end.

(** The body [[a-zA-Z0-9._%+-]+@[a-zA-Z0-9.-]+\.[a-zA-Z]{2,}] against a
    whole text.  No class before the [@] contains it, so the local part is
    what precedes the first [@]; the last class has no dot, so the final
    label is what follows the last dot. *)
Definition email_body (s : string) : bool :=
  match Py.split_first "@" s with
  | None => false
  | Some (loc, rest) =>
      match Py.rsplit1 "." rest with
      | None => false
      | Some (dom, tld) =>
          (nonempty loc && Py.all_chars is_local_char loc
           && nonempty dom && Py.all_chars is_domain_char dom
           && Nat.leb 2 (String.length tld) && Py.all_chars is_alpha tld)%bool
      end
  end.

(** [validate_email] (app.py:147). *)
Definition validate_email (email : option string) : bool :=
  let text := match email with Some e => e | None => EmptyString end in
  existsb email_body (Py.dollar_candidates text).

(** ** The persisted schema ([init_db], app.py:82-138)

    Each relation is the list of its rows in insertion order.  Nothing in
    the list type forbids two rows with one key: the constraints of the
    schema are checked by the statements below, as SQLite checks them. *)

Record PollRow := mkPoll {
  p_id : string;                 (* id TEXT PRIMARY KEY *)
  p_question : string;
  p_created_at : Z;
  p_is_active : bool;
  p_max_votes : Z;
  p_expire_date : option Z       (* nullable *)
}.

Record OptionRow := mkOption {
  o_id : Z;                      (* INTEGER PRIMARY KEY AUTOINCREMENT *)
  o_poll_id : string;            (* REFERENCES polls(id) *)
  o_option_text : string;
  o_votes : Z
}.

Record VoteRow := mkVote {
  v_id : Z;
  v_poll_id : string;            (* REFERENCES polls(id) *)
  v_email : string;
  v_option_id : Z;               (* REFERENCES options(id) *)
  v_confirmed : bool;
  v_ip_address : string;
  v_voted_at : Z
}.

Record RateRow := mkRate {
  r_ip_address : string;
  r_endpoint : string;
  r_attempt_count : Z;
  r_last_attempt : Z
}.

Record Db := mkDb {
  polls : list PollRow;
  options : list OptionRow;
  votes : list VoteRow;
  rate_limits : list RateRow
}.

(** The database right after [init_db] on a fresh file. *)
Definition init_db : Db := mkDb [] [] [] [].

Definition set_polls (d : Db) (x : list PollRow) : Db :=
  mkDb x (options d) (votes d) (rate_limits d).
Definition set_options (d : Db) (x : list OptionRow) : Db :=
  mkDb (polls d) x (votes d) (rate_limits d).
Definition set_votes (d : Db) (x : list VoteRow) : Db :=
  mkDb (polls d) (options d) x (rate_limits d).
Definition set_rate_limits (d : Db) (x : list RateRow) : Db :=
  mkDb (polls d) (options d) (votes d) x.

(** ** SQL statements *)

Module Sql.

(** What a statement that breaks a constraint raises. *)
Inductive Error := IntegrityError.

Definition result := sum Error Db.

(** The rowid an AUTOINCREMENT column hands out next.  No statement of the
    application deletes from [options] or [votes], so the largest rowid
    ever used is the largest one present. *)
Definition next_rowid (ids : list Z) : Z := 1 + fold_right Z.max 0 ids.

(** How SQLite reads an option id bound as text against an INTEGER
    column, for the texts the form check of [vote] lets through
    ([str.isdigit]): a run of ASCII digits that fits 64 bits is that
    integer; a longer run becomes a REAL and a text with a superscript
    digit stays a text, and neither equals a rowid.  A text with a sign,
    white space or a decimal point never passes that check and so is in no
    token that [vote] mints; SQLite reads some of those as integers too,
    and [to_integer] does not speak for them. *)
Fixpoint digits_value (acc : Z) (s : string) : Z :=
  match s with
  | EmptyString => acc
  | String c s' => digits_value (10 * acc + Z.of_nat (Py.code c - 48)) s'
  end.

Definition to_integer (s : string) : option Z :=
  if (nonempty s && Py.all_chars Py.is_ascii_digit s
      && (digits_value 0 s <=? 9223372036854775807))%bool
  then Some (digits_value 0 s) else None.

(** Stable insertion sort, for ORDER BY. *)
Fixpoint insert_by {A} (le : A -> A -> bool) (x : A) (l : list A) : list A :=
  match l with
  | [] => [x]
  | y :: l' => if le x y then x :: l else y :: insert_by le x l'
  end.

Fixpoint order_by {A} (le : A -> A -> bool) (l : list A) : list A :=
  match l with
  | [] => []
  | x :: l' => insert_by le x (order_by le l')
  end.

(** [ORDER BY id] *)
Definition by_id (a b : OptionRow) : bool := o_id a <=? o_id b.

(** [ORDER BY votes DESC, id] *)
Definition by_votes_desc_id (a b : OptionRow) : bool :=
  ((o_votes b <? o_votes a) || ((o_votes a =? o_votes b) && (o_id a <=? o_id b)))%bool.

(** [SELECT * FROM polls WHERE id=?] *)
Definition select_poll (d : Db) (poll_id : string) : option PollRow :=
  find (fun p => String.eqb (p_id p) poll_id) (polls d).

Definition options_of (d : Db) (poll_id : string) : list OptionRow :=
  filter (fun o => String.eqb (o_poll_id o) poll_id) (options d).

(** [SELECT * FROM options WHERE poll_id=? ORDER BY id] *)
Definition select_options (d : Db) (poll_id : string) : list OptionRow :=
  order_by by_id (options_of d poll_id).

(** [SELECT * FROM options WHERE poll_id=? ORDER BY votes DESC, id] *)
Definition select_tally (d : Db) (poll_id : string) : list OptionRow :=
  order_by by_votes_desc_id (options_of d poll_id).

(** [SELECT id FROM options WHERE id=? AND poll_id=?], the id bound as text. *)
Definition select_option (d : Db) (option_id poll_id : string) : option OptionRow :=
  match to_integer option_id with
  | Some n =>
      find (fun o => ((o_id o =? n) && String.eqb (o_poll_id o) poll_id)%bool) (options d)
  | None => None
  end.

Definition vote_key (poll_id email : string) (v : VoteRow) : bool :=
  (String.eqb (v_poll_id v) poll_id && String.eqb (v_email v) email)%bool.

(** [SELECT id FROM votes WHERE poll_id=? AND email=?] *)
Definition select_vote (d : Db) (poll_id email : string) : option VoteRow :=
  find (vote_key poll_id email) (votes d).

Definition poll_exists (d : Db) (poll_id : string) : bool :=
  existsb (fun p => String.eqb (p_id p) poll_id) (polls d).

Definition option_exists (d : Db) (option_id : Z) : bool :=
  existsb (fun o => o_id o =? option_id) (options d).

(** [INSERT INTO polls (id, question, expire_date) VALUES (?, ?, ?)]:
    the primary key must be new; the other columns take their defaults,
    [created_at] the CURRENT_TIMESTAMP of the database. *)
Definition insert_poll (d : Db) (current_timestamp : Z) (poll_id question : string)
    (expire_date : Z) : result :=
  if poll_exists d poll_id then inl IntegrityError
  else inr (set_polls d
         (polls d ++ [mkPoll poll_id question current_timestamp true 1000
                             (Some expire_date)])).

(** [INSERT INTO options (poll_id, option_text) VALUES (?, ?)], with
    foreign keys switched on by [get_db]. *)
Definition insert_option (d : Db) (poll_id option_text : string) : result :=
  if poll_exists d poll_id
  then inr (set_options d
         (options d ++ [mkOption (next_rowid (map o_id (options d))) poll_id option_text 0]))
  else inl IntegrityError.

(** [INSERT INTO votes (poll_id, email, option_id, confirmed, ip_address)
    VALUES (?, ?, ?, 1, ?)]: checks UNIQUE(poll_id, email) and both foreign
    keys.  The option id is bound as the text carried by the token;
    [voted_at] takes its default, the CURRENT_TIMESTAMP of the database. *)
Definition insert_vote (d : Db) (current_timestamp : Z)
    (poll_id email option_id ip : string) : result :=
  if existsb (vote_key poll_id email) (votes d) then inl IntegrityError
  else if negb (poll_exists d poll_id) then inl IntegrityError
  else match to_integer option_id with
       | None => inl IntegrityError
       | Some n =>
           if option_exists d n
           then inr (set_votes d
                  (votes d ++ [mkVote (next_rowid (map v_id (votes d)))
                                      poll_id email n true ip current_timestamp]))
           else inl IntegrityError
       end.

Definition bump (n : Z) (o : OptionRow) : OptionRow :=
  if o_id o =? n
  then mkOption (o_id o) (o_poll_id o) (o_option_text o) (o_votes o + 1)
  else o.

(** [UPDATE options SET votes = votes + 1 WHERE id=?] *)
Definition increment_votes (d : Db) (option_id : string) : Db :=
  match to_integer option_id with
  | Some n => set_options d (map (bump n) (options d))
  | None => d
  end.

End Sql.

(** ** Requests, responses and the outside world *)

(** What a handler reads from outside the program while serving one
    request: the clock of the process ([datetime.now()], and the time the
    token serializer stamps and checks), the clock of the database
    (SQLite's CURRENT_TIMESTAMP, which is UTC and fills the defaulted
    columns [created_at] and [voted_at]), the peer address and the
    forwarding header, the text of [uuid.uuid4().hex], and whether Mailgun
    accepts the message ([send_mailgun_email] returns) or not (it raises). *)
Record World := mkWorld {
  now : Z;
  current_timestamp : Z;
  remote_addr : string;
  x_forwarded_for : option string;
  uuid4_hex : string;
  mailgun_ok : bool
}.

(** The pending vote intent that [vote] puts into the token (app.py:346). *)
Record Intent := mkIntent {
  i_poll_id : string;
  i_option_id : string;
  i_email : string;
  i_ip : string
}.

(** The exception classes of the token serializer (itsdangerous), two of
    which app.py:11 imports. *)
Inductive TokenError :=
| SignatureExpired
| BadTimeSignature
| BadSignature
| BadPayload.

(** Their hierarchy: a [SignatureExpired] is a [BadTimeSignature], which
    is a [BadSignature]; [BadPayload] stands apart.  [raised_is e cls] says
    whether a clause [except cls] catches [e]. *)
Definition raised_is (e cls : TokenError) : bool :=
  match cls, e with
  | SignatureExpired, SignatureExpired => true
  | BadTimeSignature, (SignatureExpired | BadTimeSignature) => true
  | BadSignature, (SignatureExpired | BadTimeSignature | BadSignature) => true
  | BadPayload, BadPayload => true
  | _, _ => false
  end.

(** One constructor per exit of the handlers: the flashed message, or the
    rendered page. *)
Inductive Response :=
| TooManyAttempts                     (* app.py:202 *)
| QuestionTooShort                    (* app.py:223 *)
| TooFewOptions                       (* app.py:235 *)
| TooManyOptions                      (* app.py:239 *)
| OptionsNotDistinct                  (* app.py:243 *)
| PollCreated (poll_id : string)      (* app.py:262 *)
| PollCreateFailed                    (* app.py:267 *)
| InvalidPollId                       (* app.py:275, 426 *)
| PollNotFound                        (* app.py:282, 433 *)
| PollInactive                        (* app.py:287 *)
| PollExpired                         (* app.py:293 *)
| PollPage (row : PollRow) (opts : list OptionRow)
| InvalidEmail                        (* app.py:312 *)
| NoOptionChosen                      (* app.py:316 *)
| PollNotActive                       (* app.py:323 *)
| InvalidOption                       (* app.py:332 *)
| AlreadyVoted                        (* app.py:341 *)
| ConfirmationSent (to token : string) (* app.py:366 *)
| MailNotSent                         (* app.py:371 *)
| LinkExpired                         (* app.py:384 *)
| LinkInvalid                         (* app.py:387 *)
| AlreadyConfirmed                    (* app.py:400 *)
| VoteRecorded                        (* app.py:410 *)
| AlreadyRecorded                     (* app.py:414 *)
| Unhandled (e : TokenError)          (* exception leaving the view *)
| ResultsPage (row : PollRow) (opts : list OptionRow) (total_votes : Z).

Inductive Request :=
| CreatePoll (question : option string) (raw_options : list string)
| ViewPoll (poll_id : string)
| Vote (poll_id : string) (email option_ : option string)
| ConfirmVote (token : string)
| Results (poll_id : string).

(** ** Helpers ([app.py:157-206]) *)

(** [get_client_ip] *)
Definition get_client_ip (w : World) : string :=
  match x_forwarded_for w with
  | Some (String _ _ as h) => Py.strip (Py.before_first "," h)
  | _ => remote_addr w
  end.

Definition rate_key (ip endpoint : string) (r : RateRow) : bool :=
  (String.eqb (r_ip_address r) ip && String.eqb (r_endpoint r) endpoint)%bool.

Definition touch (ip endpoint : string) (t : Z) (r : RateRow) : RateRow :=
  if rate_key ip endpoint r
  then mkRate (r_ip_address r) (r_endpoint r) (r_attempt_count r + 1) t
  else r.

(** [check_rate_limit(endpoint)] with its defaults, 50 attempts in 300
    seconds.  The refusing exit closes the connection without a commit, so
    the DELETE before it is rolled back. *)
Definition check_rate_limit (d : Db) (w : World) (endpoint : string) : Db * bool :=
  let ip := get_client_ip w in
  let time_threshold := now w - 300 in
  let kept := filter (fun r => negb (r_last_attempt r <? time_threshold)) (rate_limits d) in
  match find (rate_key ip endpoint) kept with
  | Some res =>
      if r_attempt_count res >=? 50 then (d, false)
      else (set_rate_limits d (map (touch ip endpoint (now w)) kept), true)
  | None =>
      (set_rate_limits d (kept ++ [mkRate ip endpoint 1 (now w)]), true)
  end.

(** [rate_limit_decorator(endpoint_name)] around a view. *)
Definition rate_limit_decorator (endpoint_name : string) (view : Db -> Db * Response)
    (d : Db) (w : World) : Db * Response :=
  match check_rate_limit d w endpoint_name with
  | (d', true) => view d'
  | (d', false) => (d', TooManyAttempts)
  end.

(** ** What the program takes from outside its own code

    [bleach_clean] is [bleach.clean(text, tags=[], strip=True)], the HTML
    sanitizer; [SECRET_KEY] is [app.config['SECRET_KEY']].

    Modelled from the spec: the Token Codec (section 4.1), which the
    program takes from the itsdangerous library ([URLSafeTimedSerializer],
    app.py:42) and whose code is not part of the sources.  A token is the
    serialized payload, the issuance timestamp and a signature keyed by the
    secret and namespaced by the purpose (salt), joined by dots.  The
    keyed signature [get_signature key salt value] and the text encodings
    of payload and timestamp are left abstract. *)
Class Deps := mkDeps {
  bleach_clean : string -> string;
  SECRET_KEY : string;
  get_signature : string -> string -> string -> string;
  dump_payload : Intent -> string;
  load_payload : string -> option Intent;
  encode_ts : Z -> string;
  decode_ts : string -> option Z
}.

Section App.

Context {deps : Deps}.

(** Modelled from the spec: minting, [mint(payload, purpose) -> token]
    ([serializer.dumps(obj, salt=...)]). *)
Definition dumps (obj : Intent) (salt : string) (issued : Z) : string :=
  let value := dump_payload obj ++ "." ++ encode_ts issued in
  value ++ "." ++ get_signature SECRET_KEY salt value.

(** Modelled from the spec: the signature check of the Token Codec, laid
    out as the library's [Signer.unsign]: the text is cut at its last dot
    into signed text and signature.  A failure is the library's
    [BadSignature]; it carries the signed text when there was a dot. *)
Definition unsign (salt signed_value : string) : option string + string :=
  match Py.rsplit1 "." signed_value with
  | None => inl None
  | Some (value, sig) =>
      if String.eqb sig (get_signature SECRET_KEY salt value)
      then inr value else inl (Some value)
  end.

(** Modelled from the spec: the timestamp check of the Token Codec, laid
    out as the library's [TimestampSigner.unsign].  A signature failure on
    a text that carries a timestamp part is re-raised as a
    [BadTimeSignature]; on a text with no timestamp part the
    [BadSignature] of the signature check is raised as it is.  A good
    signature older than [max_age], or from the future, is
    [SignatureExpired] (the Expired of the specification);
    [BadTimeSignature] is its Invalid. *)
Definition timestamp_unsign (salt signed_value : string) (max_age t : Z)
    : TokenError + string :=
  let '(sig_error, result) :=
    match unsign salt signed_value return bool * string with
    | inr value => (false, value)
    | inl (Some value) => (true, value)
    | inl None => (true, EmptyString)
    end in
  match Py.rsplit1 "." result with
  | None => if sig_error then inl BadSignature else inl BadTimeSignature
  | Some (value, ts_bytes) =>
      if sig_error then inl BadTimeSignature
      else match decode_ts ts_bytes with
           | None => inl BadTimeSignature
           | Some ts_int =>
               let age := t - ts_int in
               if age >? max_age then inl SignatureExpired
               else if age <? 0 then inl SignatureExpired
               else inr value
           end
  end.

(** Modelled from the spec: verification,
    [verify(token, purpose, max_age) -> payload | error]
    ([serializer.loads(token, salt=..., max_age=...)]). *)
Definition loads (token salt : string) (max_age t : Z) : TokenError + Intent :=
  match timestamp_unsign salt token max_age t with
  | inl e => inl e
  | inr value =>
      match load_payload value with
      | Some obj => inr obj
      | None => inl BadPayload
      end
  end.

(** [sanitize_input] (app.py:151) *)
Definition sanitize_input (text : option string) (max_length : nat) : string :=
  match text with
  | Some (String _ _ as t) => bleach_clean (Py.take max_length (Py.strip t))
  | _ => EmptyString
  end.

(** ** Handlers *)

(** The loop that collects the options (app.py:227-232). *)
Definition collect_options (raw_options : list string) : list string :=
  filter (fun cleaned => (nonempty cleaned && Nat.leb 2 (String.length cleaned))%bool)
         (map (fun opt => sanitize_input (Some opt) 200) raw_options).

(** The INSERT loop over the options (app.py:256-260). *)
Fixpoint insert_options (d : Db) (poll_id : string) (opts : list string) : Sql.result :=
  match opts with
  | [] => inr d
  | opt :: rest =>
      match Sql.insert_option d poll_id opt with
      | inl e => inl e
      | inr d' => insert_options d' poll_id rest
      end
  end.

(** The body of [create_poll] (app.py:219-270).  An exception of the
    storage layer rolls the transaction back. *)
Definition create_poll_view (w : World) (question : option string)
    (raw_options : list string) (d : Db) : Db * Response :=
  let question := sanitize_input question 500 in
  if (negb (nonempty question) || Nat.ltb (String.length question) 10)%bool
  then (d, QuestionTooShort)
  else
    let opts := collect_options raw_options in
    if Nat.ltb (List.length opts) 2 then (d, TooFewOptions)
    else if Nat.ltb 10 (List.length opts) then (d, TooManyOptions)
    else if negb (Nat.eqb (List.length opts) (List.length (nodup string_dec opts)))
    then (d, OptionsNotDistinct)
    else
      let poll_id := Py.take 12 (uuid4_hex w) in
      let expire_date := now w + 30 * 86400 in
      match Sql.insert_poll d (current_timestamp w) poll_id question expire_date with
      | inl _ => (d, PollCreateFailed)
      | inr d1 =>
          match insert_options d1 poll_id opts with
          | inl _ => (d, PollCreateFailed)
          | inr d2 => (d2, PollCreated poll_id)
          end
      end.

Definition create_poll (d : Db) (w : World) (question : option string)
    (raw_options : list string) : Db * Response :=
  rate_limit_decorator "create_poll" (create_poll_view w question raw_options) d w.

(** The expiry test of the poll view (app.py:290-294). *)
Definition expired (w : World) (row : PollRow) : bool :=
  match p_expire_date row with
  | Some expire_date => now w >? expire_date
  | None => false
  end.

(** [poll(poll_id)] (app.py:272-303) *)
Definition poll (d : Db) (w : World) (poll_id : string) : Db * Response :=
  if negb (poll_id_re poll_id) then (d, InvalidPollId)
  else match Sql.select_poll d poll_id with
       | None => (d, PollNotFound)
       | Some poll_row =>
           if negb (p_is_active poll_row) then (d, PollInactive)
           else if expired w poll_row then (d, PollExpired)
           else (d, PollPage poll_row (Sql.select_options d poll_id))
       end.

(** The body of [vote] (app.py:307-374).  It only reads the database. *)
Definition vote_view (w : World) (poll_id : string)
    (email_field option_field : option string) (d : Db) : Db * Response :=
  let email :=
    Py.lower (Py.strip (match email_field with Some e => e | None => EmptyString end)) in
  if (negb (nonempty email) || negb (validate_email (Some email)))%bool
  then (d, InvalidEmail)
  else match option_field with
  | None => (d, NoOptionChosen)
  | Some option_id =>
    if (negb (nonempty option_id) || negb (Py.isdigit option_id))%bool
    then (d, NoOptionChosen)
    else match Sql.select_poll d poll_id with
    | None => (d, PollNotActive)
    | Some poll_row =>
      if negb (p_is_active poll_row) then (d, PollNotActive)
      else match Sql.select_option d option_id poll_id with
      | None => (d, InvalidOption)
      | Some _ =>
        match Sql.select_vote d poll_id email with
        | Some _ => (d, AlreadyVoted)
        | None =>
            let token :=
              dumps (mkIntent poll_id option_id email (remote_addr w))
                    "email-confirm-v2" (now w) in
            if mailgun_ok w then (d, ConfirmationSent email token)
            else (d, MailNotSent)
        end
      end
    end
  end.

Definition vote (d : Db) (w : World) (poll_id : string)
    (email_field option_field : option string) : Db * Response :=
  rate_limit_decorator "vote" (vote_view w poll_id email_field option_field) d w.

(** The two writes of [confirm_vote] and its commit (app.py:403-415). *)
Definition commit_vote (d : Db) (w : World) (data : Intent) : Db * Response :=
  match Sql.insert_vote d (current_timestamp w) (i_poll_id data) (i_email data)
                        (i_option_id data) (remote_addr w) with
  | inl Sql.IntegrityError => (d, AlreadyRecorded)
  | inr d1 => (Sql.increment_votes d1 (i_option_id data), VoteRecorded)
  end.

(** [confirm_vote(token)] (app.py:376-421) *)
Definition confirm_vote (d : Db) (w : World) (token : string) : Db * Response :=
  match loads token "email-confirm-v2" 3600 (now w) with
  | inl e =>
      if raised_is e SignatureExpired then (d, LinkExpired)
      else if raised_is e BadTimeSignature then (d, LinkInvalid)
      else (d, Unhandled e)
  | inr data =>
      match Sql.select_vote d (i_poll_id data) (i_email data) with
      | Some _ => (d, AlreadyConfirmed)
      | None => commit_vote d w data
      end
  end.

Definition total_votes (opts : list OptionRow) : Z :=
  fold_right Z.add 0 (map o_votes opts).

(** [results(poll_id)] (app.py:423-444) *)
Definition results (d : Db) (poll_id : string) : Db * Response :=
  if negb (poll_id_re poll_id) then (d, InvalidPollId)
  else match Sql.select_poll d poll_id with
       | None => (d, PollNotFound)
       | Some poll_row =>
           let opts := Sql.select_tally d poll_id in
           (d, ResultsPage poll_row opts (total_votes opts))
       end.

(** ** The application as a transition system *)

Definition handle (d : Db) (w : World) (rq : Request) : Db * Response :=
  match rq with
  | CreatePoll question raw_options => create_poll d w question raw_options
  | ViewPoll poll_id => poll d w poll_id
  | Vote poll_id email option_ => vote d w poll_id email option_
  | ConfirmVote token => confirm_vote d w token
  | Results poll_id => results d poll_id
  end.

Fixpoint run (d : Db) (trace : list (World * Request)) : Db :=
  match trace with
  | [] => d
  | (w, rq) :: rest => run (fst (handle d w rq)) rest
  end.

(** The states the application can be in. *)
Definition reachable (d : Db) : Prop := exists trace, d = run init_db trace.

End App.

(** ** A concrete instance of the libraries, to run the model *)

Module Demo.

Definition bleach_clean (s : string) : string := s.

Definition SECRET_KEY : string := "dev-key-0123".

Fixpoint undot (s : string) : string :=
  match s with
  | EmptyString => EmptyString
  | String c s' => String (if Ascii.eqb c "." then "_"%char else c) (undot s')
  end.

Definition get_signature (key salt value : string) : string :=
  undot (key ++ "/" ++ salt ++ "/" ++ value).

Definition dump_payload (obj : Intent) : string :=
  i_poll_id obj ++ "," ++ i_option_id obj ++ "," ++ i_email obj ++ "," ++ i_ip obj.

Definition load_payload (s : string) : option Intent :=
  match Py.split_first "," s with
  | Some (a, r1) =>
      match Py.split_first "," r1 with
      | Some (b, r2) =>
          match Py.split_first "," r2 with
          | Some (c, e) => Some (mkIntent a b c e)
          | None => None
          end
      | None => None
      end
  | None => None
  end.

(** Timestamps in decimal. *)
Definition encode_ts (t : Z) : string :=
  NilZero.string_of_uint (N.to_uint (Z.to_N t)).

Definition decode_ts (s : string) : option Z := Sql.to_integer s.

Definition deps : Deps :=
  mkDeps bleach_clean SECRET_KEY get_signature dump_payload load_payload
         encode_ts decode_ts.

(** The database clock runs two hours ahead of the local clock. *)
Definition world (t : Z) (uuid : string) (mail : bool) : World :=
  mkWorld t (t + 7200) "10.0.0.7" None uuid mail.

(** A run of the scenario of the specification: a poll is created at
    second 100, a vote for its first option is initiated at second 110 and
    confirmed at second 120. *)
Definition poll_id : string := "0123456789ab".

Definition create_request : Request :=
  CreatePoll (Some "Best language?") ["Go"; "Rust"].

Definition world_create : World := world 100 "0123456789abcdef0123456789abcdef" true.

Definition intent : Intent := mkIntent poll_id "1" "a@b.com" "10.0.0.7".

Definition vote_request : Request := Vote poll_id (Some " A@B.com ") (Some "1").

Definition token : string := dumps (deps := deps) intent "email-confirm-v2" 110.

Definition trace_created : list (World * Request) := [(world_create, create_request)].

Definition trace_confirmed : list (World * Request) :=
  [(world_create, create_request);
   (world 110 "" true, vote_request);
   (world 120 "" true, ConfirmVote token)].

Definition created : Db := run (deps := deps) init_db trace_created.

Definition confirmed : Db := run (deps := deps) init_db trace_confirmed.

(** Thirty-one days after the creation the poll is past its expiry date. *)
Definition late : Z := 100 + 31 * 86400.

Definition late_token : string := dumps (deps := deps) intent "email-confirm-v2" late.

Definition poll_row : PollRow :=
  mkPoll poll_id "Best language?" 7300 true 1000 (Some (100 + 30 * 86400)).

(** A state in which the address of the scenario has used up its fifty
    attempts on [vote], the last one at second 100. *)
Definition limited : Db := mkDb [] [] [] [mkRate "10.0.0.7" "vote" 50 100].

(** A second creation that draws the identifier of the first. *)
Definition world_collision : World :=
  world 200 "0123456789abcdef0123456789abcdef" true.


End Demo.

(** ** Views of the database used in the statements *)

(** The Vote rows of one (poll, email) pair. *)
Definition votes_for (d : Db) (poll_id email : string) : list VoteRow :=
  filter (Sql.vote_key poll_id email) (votes d).

Definition vote_pair (v : VoteRow) : string * string := (v_poll_id v, v_email v).

(** UNIQUE(poll_id, email) as a property of a state. *)
Definition votes_unique (d : Db) : Prop := NoDup (map vote_pair (votes d)).

(** The foreign key of [options] as a property of a state. *)
Definition options_fk (d : Db) : Prop :=
  Forall (fun o => Sql.poll_exists d (o_poll_id o) = true) (options d).

(** The counter of an option, read from its row. *)
Definition counter (d : Db) (option_id : Z) : option Z :=
  option_map o_votes (find (fun o => o_id o =? option_id) (options d)).

(** The three relations of the poll store; [rate_limits] belongs to the
    rate guard. *)
Definition same_poll_store (d d' : Db) : Prop :=
  polls d' = polls d /\ options d' = options d /\ votes d' = votes d.

(** The lifecycle gate in the words of the specification: active, and not
    past the expiry date when there is one. *)
Definition votable (w : World) (row : PollRow) : bool :=
  (p_is_active row &&
   match p_expire_date row with
   | None => true
   | Some expire_date => now w <=? expire_date
   end)%bool.

(** What identifies an option across counter updates. *)
Definition option_ident (o : OptionRow) : Z * string := (o_id o, o_option_text o).

(** A text without the separator of the token format. *)
Definition no_dot (s : string) : bool :=
  Py.all_chars (fun x => negb (Ascii.eqb x ".")) s.

(** The same request in a world where only the fate of the mail differs. *)
Definition with_mailgun (w : World) (ok : bool) : World :=
  mkWorld (now w) (current_timestamp w) (remote_addr w) (x_forwarded_for w)
          (uuid4_hex w) ok.


(** The key of a row of [rate_limits], PRIMARY KEY (ip_address, endpoint). *)
Definition rate_pair (r : RateRow) : string * string :=
  (r_ip_address r, r_endpoint r).

Definition rate_keys_unique (d : Db) : Prop :=
  NoDup (map rate_pair (rate_limits d)).

(** [SELECT ... FROM rate_limits WHERE ip_address=? AND endpoint=?] *)
Definition rate_entry (d : Db) (ip endpoint : string) : option RateRow :=
  find (rate_key ip endpoint) (rate_limits d).

(** Successive calls of [check_rate_limit] for one endpoint, one per
    world, with the answers in order. *)
Fixpoint attempts (d : Db) (ws : list World) (endpoint : string) : Db * list bool :=
  match ws with
  | [] => (d, [])
  | w :: rest =>
      let '(d1, ok) := check_rate_limit d w endpoint in
      let '(d2, oks) := attempts d1 rest endpoint in
      (d2, ok :: oks)
  end.


(** The primary keys of the poll store as properties of a state. *)
Definition poll_ids_unique (d : Db) : Prop := NoDup (map p_id (polls d)).
Definition option_ids_unique (d : Db) : Prop := NoDup (map o_id (options d)).
Definition vote_ids_unique (d : Db) : Prop := NoDup (map v_id (votes d)).

(** The two foreign keys of [votes] as a property of a state. *)
Definition votes_fk (d : Db) : Prop :=
  Forall (fun v => Sql.poll_exists d (v_poll_id v) = true /\
                   Sql.option_exists d (v_option_id v) = true) (votes d).

(** The Vote rows that name one option. *)
Definition votes_of_option (d : Db) (option_id : Z) : list VoteRow :=
  filter (fun v => v_option_id v =? option_id) (votes d).

(** Every counter equals the number of Vote rows of its option. *)
Definition counters_match_votes (d : Db) : Prop :=
  Forall (fun o => o_votes o = Z.of_nat (List.length (votes_of_option d (o_id o))))
         (options d).

Definition max_rowid (ids : list Z) : Z := fold_right Z.max 0 ids.

(** What [create_poll] lets into the store, for one poll row. *)
Definition poll_well_formed (d : Db) (p : PollRow) : Prop :=
  (10 <= String.length (p_question p))%nat /\
  p_is_active p = true /\
  p_max_votes p = 1000 /\
  p_expire_date p <> None /\
  let texts := map o_option_text (Sql.options_of d (p_id p)) in
  (2 <= List.length texts <= 10)%nat /\
  NoDup texts /\
  Forall (fun t => (2 <= String.length t)%nat) texts.

(** [ORDER BY votes DESC, id] as a relation between rows. *)
Definition tally_le (a b : OptionRow) : Prop :=
  o_votes b < o_votes a \/ (o_votes a = o_votes b /\ o_id a <= o_id b).


(** The schema constraints and the bookkeeping of the counters, together. *)
Definition consistent (d : Db) : Prop :=
  poll_ids_unique d /\ option_ids_unique d /\ vote_ids_unique d /\
  options_fk d /\ votes_fk d /\ counters_match_votes d /\
  Forall (poll_well_formed d) (polls d).


(** The texts the pattern of [validate_email] describes: a local part, an
    [@], a domain, a dot and a final label of at least two letters. *)
Definition email_shape (s : string) : Prop :=
  exists loc dom tld,
    s = loc ++ "@" ++ dom ++ "." ++ tld /\
    loc <> EmptyString /\ Py.all_chars is_local_char loc = true /\
    dom <> EmptyString /\ Py.all_chars is_domain_char dom = true /\
    (2 <= String.length tld)%nat /\ Py.all_chars is_alpha tld = true.

(** The Vote rows whose option is one of the options of a poll. *)
Definition votes_cast (d : Db) (poll_id : string) : list VoteRow :=
  filter (fun v => existsb (fun o => o_id o =? v_option_id v)
                           (Sql.options_of d poll_id))
         (votes d).


(** ** Mail delivery and the debug page ([app.py:44-76], [app.py:466-471]) *)

(** What [requests.post] is called with. *)
Record MailgunRequest := mkMailgunRequest {
  mg_url : string;
  mg_auth : string * string;
  mg_from : string;
  mg_to : list string;
  mg_subject : string;
  mg_html : string
}.

(** The fate of the HTTP call: a response, or a [requests.RequestException]
    raised by the transport. *)
Inductive HttpResult :=
| HttpResponse (status_code : Z) (text : string)
| TransportError.

Inductive MailError :=
| RuntimeError            (* "Mailgun env vars missing" *)
| HTTPError (status_code : Z)
| RequestException.

(** [send_mailgun_email(to, subject, html_content)], with the three module
    settings and the HTTP transport as arguments. *)
Definition send_mailgun_email (MAILGUN_DOMAIN MAILGUN_API_KEY MAILGUN_SENDER : option string)
    (post : MailgunRequest -> HttpResult) (to subject html_content : string)
    : MailError + Z * string :=
  match MAILGUN_DOMAIN, MAILGUN_API_KEY, MAILGUN_SENDER with
  | Some (String _ _ as domain), Some (String _ _ as key), Some (String _ _ as sender) =>
      let url := "https://api.mailgun.net/v3/" ++ domain ++ "/messages" in
      match post (mkMailgunRequest url ("api", key) sender [to] subject html_content) with
      | HttpResponse status_code text =>
          if ((400 <=? status_code) && (status_code <? 600))%bool
          then inl (HTTPError status_code)
          else inr (status_code, text)
      | TransportError => inl RequestException
      end
  | _, _, _ => inl RuntimeError
  end.

(** ["<br>".join(parts)] *)
Fixpoint join (sep : string) (parts : list string) : string :=
  match parts with
  | [] => EmptyString
  | [p] => p
  | p :: rest => p ++ sep ++ join sep rest
  end.

(** [debug_env()]: the body and the status of the response. *)
Definition debug_env (getenv : string -> option string) : string * Z :=
  let keys := ["MAILGUN_DOMAIN"; "MAILGUN_API_KEY"; "MAILGUN_SENDER"] in
  let status :=
    map (fun k => (k, if Py.truthy (getenv k) then "SET" else "MISSING")) keys in
  (join "<br>" (map (fun kv => fst kv ++ ": " ++ snd kv) status), 200).


(** The text a form field is measured and stored as: nothing for a
    missing or empty field, otherwise the field with the white space around
    it removed, cut to [max_length] characters and passed through
    [bleach.clean]. *)
Definition measured {deps : Deps} (max_length : nat) (field : option string) : string :=
  match field with
  | Some (String c s) => bleach_clean (Py.take max_length (Py.strip (String c s)))
  | _ => EmptyString
  end.

(** The options of a submission that count: those whose measured text has
    at least two characters, in the order submitted. *)
Definition kept_options {deps : Deps} (raw : list string) : list string :=
  filter (fun t => Nat.leb 2 (String.length t))
         (map (fun o => measured 200 (Some o)) raw).

(** In the words of the specification (section 4.2, "each 2..200 chars"):
    a submitted option is length-valid when the text as submitted has
    between 2 and 200 characters. *)
Definition spec_length_valid (t : string) : bool :=
  (Nat.leb 2 (String.length t) && Nat.leb (String.length t) 200)%bool.


(** ** Generic facts about strings and lists *)

Lemma rsplit1_app_nodot (c : ascii) (a b : string) :
  Py.all_chars (fun x => negb (Ascii.eqb x c)) b = true ->
  Py.rsplit1 c (a ++ String c b) = Some (a, b).
Proof.
  intros Hb.
  assert (Hnone : Py.rsplit1 c b = None).
  { clear a. induction b as [|x b IH]; simpl in *; [reflexivity|].
    apply andb_prop in Hb. destruct Hb as [Hx Hb].
    rewrite (IH Hb). apply negb_true_iff in Hx. now rewrite Hx. }
  induction a as [|x a IH]; simpl.
  - rewrite Hnone. now rewrite Ascii.eqb_refl.
  - now rewrite IH.
Qed.

Lemma vote_key_pair (p e : string) (v : VoteRow) :
  Sql.vote_key p e v = true <-> vote_pair v = (p, e).
Proof.
  unfold Sql.vote_key, vote_pair. rewrite andb_true_iff, !String.eqb_eq.
  split; [intros [-> ->]; reflexivity | intros H; inversion H; auto].
Qed.

Lemma existsb_vote_key (p e : string) (l : list VoteRow) :
  existsb (Sql.vote_key p e) l = true <-> In (p, e) (map vote_pair l).
Proof.
  rewrite existsb_exists, in_map_iff. split.
  - intros [v [Hin Hk]]. exists v. split; [now apply vote_key_pair | assumption].
  - intros [v [Hk Hin]]. exists v. split; [assumption | now apply vote_key_pair].
Qed.

Lemma find_vote_key (p e : string) (l : list VoteRow) :
  find (Sql.vote_key p e) l = None <-> existsb (Sql.vote_key p e) l = false.
Proof.
  induction l as [|v l IH]; simpl; [tauto|].
  destruct (Sql.vote_key p e v); simpl; [split; discriminate | exact IH].
Qed.

Lemma unique_pairs_at_most_one (p e : string) (l : list VoteRow) :
  NoDup (map vote_pair l) -> (List.length (filter (Sql.vote_key p e) l) <= 1)%nat.
Proof.
  induction l as [|v l IH]; simpl; intros Hnd; [lia|].
  inversion Hnd as [|? ? Hnotin Hnd']; subst.
  destruct (Sql.vote_key p e v) eqn:Hk; [|auto].
  apply vote_key_pair in Hk. rewrite Hk in Hnotin.
  assert (Hnone : filter (Sql.vote_key p e) l = []).
  { destruct (filter (Sql.vote_key p e) l) as [|x xs] eqn:Hf; [reflexivity|].
    exfalso. apply Hnotin.
    assert (Hx : In x (filter (Sql.vote_key p e) l)) by (rewrite Hf; now left).
    apply filter_In in Hx. destruct Hx as [Hx1 Hx2].
    apply vote_key_pair in Hx2. rewrite <- Hx2. now apply in_map. }
  rewrite Hnone. simpl. lia.
Qed.

Lemma nodup_snoc {A} (l : list A) (x : A) :
  NoDup l -> ~ In x l -> NoDup (l ++ [x]).
Proof.
  induction l as [|y l IH]; simpl; intros Hnd Hx.
  - constructor; [intros []|constructor].
  - inversion Hnd; subst. constructor.
    + rewrite in_app_iff. simpl. intuition congruence.
    + apply IH; intuition.
Qed.

Lemma string_app_assoc (a b c : string) : (a ++ b) ++ c = a ++ (b ++ c).
Proof. induction a as [|x a IH]; simpl; [reflexivity|now rewrite IH]. Qed.


(** ** Frame facts: which relation each code path can write *)

Lemma check_rate_limit_frame (d : Db) (w : World) (endpoint : string) :
  same_poll_store d (fst (check_rate_limit d w endpoint)).
Proof.
  unfold check_rate_limit, same_poll_store.
  destruct (find _ _) as [res|]; [destruct (r_attempt_count res >=? 50)|];
    simpl; auto.
Qed.

Lemma same_poll_store_refl (d : Db) : same_poll_store d d.
Proof. unfold same_poll_store; auto. Qed.

Lemma same_poll_store_trans (a b c : Db) :
  same_poll_store a b -> same_poll_store b c -> same_poll_store a c.
Proof. unfold same_poll_store. intuition congruence. Qed.

Lemma poll_exists_ext (d d' : Db) (poll_id : string) :
  polls d' = polls d -> Sql.poll_exists d' poll_id = Sql.poll_exists d poll_id.
Proof. unfold Sql.poll_exists. now intros ->. Qed.

Lemma insert_vote_ok (d d1 : Db) (t : Z) (p e o ip : string) :
  Sql.insert_vote d t p e o ip = inr d1 ->
  exists n,
    Sql.to_integer o = Some n /\
    existsb (Sql.vote_key p e) (votes d) = false /\
    Sql.poll_exists d p = true /\ Sql.option_exists d n = true /\
    d1 = set_votes d (votes d ++
           [mkVote (Sql.next_rowid (map v_id (votes d))) p e n true ip t]).
Proof.
  unfold Sql.insert_vote.
  destruct (existsb _ _) eqn:Hex; [discriminate|].
  destruct (Sql.poll_exists d p) eqn:Hp; simpl; [|discriminate].
  destruct (Sql.to_integer o) as [n|]; [|discriminate].
  destruct (Sql.option_exists d n) eqn:Ho; [|discriminate].
  intros H. inversion H. exists n. auto.
Qed.

Lemma insert_vote_duplicate (d : Db) (t : Z) (p e o ip : string) :
  existsb (Sql.vote_key p e) (votes d) = true ->
  Sql.insert_vote d t p e o ip = inl Sql.IntegrityError.
Proof. unfold Sql.insert_vote. now intros ->. Qed.

Lemma increment_votes_frame (d : Db) (o : string) :
  polls (Sql.increment_votes d o) = polls d /\
  votes (Sql.increment_votes d o) = votes d /\
  rate_limits (Sql.increment_votes d o) = rate_limits d.
Proof. unfold Sql.increment_votes. destruct (Sql.to_integer o); simpl; auto. Qed.

Lemma insert_options_spec (poll_id : string) (opts : list string) :
  forall d d2, insert_options d poll_id opts = inr d2 ->
    polls d2 = polls d /\ votes d2 = votes d /\ rate_limits d2 = rate_limits d /\
    exists news,
      options d2 = (options d ++ news)%list /\
      map o_option_text news = opts /\
      Forall (fun o => o_poll_id o = poll_id /\ o_votes o = 0) news.
Proof.
  induction opts as [|opt rest IH]; simpl; intros d d2 H.
  - inversion H; subst. repeat split; auto. exists []. rewrite app_nil_r. auto.
  - unfold Sql.insert_option in H.
    destruct (Sql.poll_exists d poll_id); [|discriminate].
    apply IH in H. simpl in H. destruct H as (Hp & Hv & Hr & news & Ho & Ht & Hall).
    repeat split; auto.
    eexists (_ :: news). rewrite Ho, <- app_assoc. simpl.
    split; [reflexivity|]. split; [now rewrite Ht|].
    constructor; auto.
Qed.

Lemma insert_options_total (poll_id : string) (opts : list string) :
  forall d, Sql.poll_exists d poll_id = true ->
    exists d2, insert_options d poll_id opts = inr d2.
Proof.
  induction opts as [|opt rest IH]; simpl; intros d Hp; [eauto|].
  unfold Sql.insert_option. rewrite Hp. apply IH.
  unfold Sql.poll_exists in *. simpl. exact Hp.
Qed.

Lemma poll_exists_snoc (d : Db) (row : PollRow) (poll_id : string) :
  Sql.poll_exists (set_polls d (polls d ++ [row])) poll_id
  = (Sql.poll_exists d poll_id || String.eqb (p_id row) poll_id)%bool.
Proof.
  unfold Sql.poll_exists. simpl. rewrite existsb_app. simpl.
  now rewrite orb_false_r.
Qed.

Lemma nodup_length_NoDup (l : list string) :
  Nat.eqb (List.length l) (List.length (nodup string_dec l)) = true -> NoDup l.
Proof.
  intros H. apply Nat.eqb_eq in H.
  induction l as [|x l IH]; [constructor|].
  simpl in H. destruct (in_dec string_dec x l) as [Hin|Hnin].
  - assert (Hle : (List.length (nodup string_dec l) <= List.length l)%nat).
    { clear. induction l as [|y l IH]; simpl; [lia|].
      destruct (in_dec string_dec y l); simpl; lia. }
    simpl in H. lia.
  - simpl in H. constructor; [assumption|]. apply IH. lia.
Qed.

Lemma NoDup_nodup_length (l : list string) :
  NoDup l -> Nat.eqb (List.length l) (List.length (nodup string_dec l)) = true.
Proof.
  intros H. rewrite (nodup_fixed_point string_dec H). apply Nat.eqb_refl.
Qed.

Lemma insert_by_perm {A} (le : A -> A -> bool) (x : A) (l : list A) :
  Permutation (Sql.insert_by le x l) (x :: l).
Proof.
  induction l as [|y l IH]; simpl; [apply Permutation_refl|].
  destruct (le x y); [apply Permutation_refl|].
  eapply Permutation_trans; [apply perm_skip, IH|apply perm_swap].
Qed.

Lemma order_by_perm {A} (le : A -> A -> bool) (l : list A) :
  Permutation (Sql.order_by le l) l.
Proof.
  induction l as [|x l IH]; simpl; [constructor|].
  eapply Permutation_trans; [apply insert_by_perm|now apply perm_skip].
Qed.

Lemma bump_poll_id (n : Z) (o : OptionRow) : o_poll_id (Sql.bump n o) = o_poll_id o.
Proof. unfold Sql.bump. now destruct (o_id o =? n). Qed.

Lemma bump_ident (n : Z) (o : OptionRow) : option_ident (Sql.bump n o) = option_ident o.
Proof. unfold Sql.bump, option_ident. now destruct (o_id o =? n). Qed.

Lemma filter_poll_bump (n : Z) (poll_id : string) (l : list OptionRow) :
  filter (fun o => String.eqb (o_poll_id o) poll_id) (map (Sql.bump n) l)
  = map (Sql.bump n) (filter (fun o => String.eqb (o_poll_id o) poll_id) l).
Proof.
  induction l as [|o l IH]; simpl; [reflexivity|].
  rewrite bump_poll_id. destruct (String.eqb (o_poll_id o) poll_id); simpl;
    now rewrite IH.
Qed.

Lemma filter_all {A} (f : A -> bool) (l : list A) :
  Forall (fun x => f x = true) l -> filter f l = l.
Proof.
  induction 1 as [|x l Hx _ IH]; simpl; [reflexivity|]. now rewrite Hx, IH.
Qed.

Lemma filter_none {A} (f : A -> bool) (l : list A) :
  Forall (fun x => f x = false) l -> filter f l = [].
Proof.
  induction 1 as [|x l Hx _ IH]; simpl; [reflexivity|]. now rewrite Hx, IH.
Qed.

Lemma select_poll_some (d : Db) (poll_id : string) :
  Sql.poll_exists d poll_id = true ->
  exists row, Sql.select_poll d poll_id = Some row.
Proof.
  unfold Sql.poll_exists, Sql.select_poll.
  induction (polls d) as [|p l IH]; simpl; [discriminate|].
  destruct (String.eqb (p_id p) poll_id); simpl; eauto.
Qed.

Lemma poll_exists_grow (d d' : Db) (row : PollRow) (poll_id : string) :
  polls d' = (polls d ++ [row])%list ->
  Sql.poll_exists d' poll_id
  = (Sql.poll_exists d poll_id || String.eqb (p_id row) poll_id)%bool.
Proof.
  unfold Sql.poll_exists. intros ->. rewrite existsb_app. simpl.
  now rewrite orb_false_r.
Qed.

Lemma options_of_orphans (d : Db) (poll_id : string) :
  options_fk d -> Sql.poll_exists d poll_id = false -> Sql.options_of d poll_id = [].
Proof.
  unfold options_fk, Sql.options_of. intros Hfk Hno.
  apply filter_none. eapply Forall_impl; [|exact Hfk].
  intros o Ho. simpl in Ho. destruct (String.eqb (o_poll_id o) poll_id) eqn:He;
    [|reflexivity].
  apply String.eqb_eq in He. congruence.
Qed.


Section Properties.

Context {deps : Deps}.

(** *** What each handler does to the database *)

Lemma create_poll_view_spec (w : World) (q : option string) (raw : list string)
    (d d' : Db) (r : Response) :
  create_poll_view w q raw d = (d', r) ->
  (d' = d /\ forall id, r <> PollCreated id) \/
  (let poll_id := Py.take 12 (uuid4_hex w) in
   r = PollCreated poll_id /\
   Sql.poll_exists d poll_id = false /\
   polls d' = (polls d ++ [mkPoll poll_id (sanitize_input q 500) (current_timestamp w) true 1000
                                  (Some (now w + 30 * 86400))])%list /\
   votes d' = votes d /\ rate_limits d' = rate_limits d /\
   (10 <= String.length (sanitize_input q 500))%nat /\
   (2 <= List.length (collect_options raw) <= 10)%nat /\
   NoDup (collect_options raw) /\
   exists news,
     options d' = (options d ++ news)%list /\
     map o_option_text news = collect_options raw /\
     Forall (fun o => o_poll_id o = poll_id /\ o_votes o = 0) news).
Proof.
  unfold create_poll_view.
  destruct (negb _ || _)%bool eqn:Hq.
  { intros H; inversion H; subst. left. split; [auto|discriminate]. }
  destruct (Nat.ltb (List.length (collect_options raw)) 2) eqn:H2.
  { intros H; inversion H; subst. left. split; [auto|discriminate]. }
  destruct (Nat.ltb 10 (List.length (collect_options raw))) eqn:H10.
  { intros H; inversion H; subst. left. split; [auto|discriminate]. }
  destruct (negb (Nat.eqb _ _)) eqn:Hd.
  { intros H; inversion H; subst. left. split; [auto|discriminate]. }
  unfold Sql.insert_poll.
  destruct (Sql.poll_exists d _) eqn:Hp.
  { intros H; inversion H; subst. left. split; [auto|discriminate]. }
  destruct (insert_options _ _ _) as [e|d2] eqn:Hins.
  { intros H; inversion H; subst. left. split; [auto|discriminate]. }
  intros H; inversion H; subst. right.
  apply insert_options_spec in Hins. simpl in Hins.
  destruct Hins as (Hpolls & Hvotes & Hrate & news & Hopts & Htexts & Hall).
  apply orb_false_iff in Hq. destruct Hq as [_ Hq].
  apply Nat.ltb_ge in Hq, H2, H10. apply negb_false_iff in Hd.
  cbv zeta. repeat split; auto; try lia.
  - now apply nodup_length_NoDup.
  - exists news. auto.
Qed.

Lemma vote_view_frame (w : World) (poll_id : string) (e o : option string) (d : Db) :
  fst (vote_view w poll_id e o d) = d.
Proof.
  unfold vote_view.
  repeat match goal with
         | |- context [if ?b then _ else _] => destruct b
         | |- context [match ?x with _ => _ end] => destruct x
         end; reflexivity.
Qed.

Lemma rate_limit_refused (endpoint : string) (view : Db -> Db * Response)
    (d : Db) (w : World) :
  snd (check_rate_limit d w endpoint) = false ->
  rate_limit_decorator endpoint view d w = (d, TooManyAttempts).
Proof.
  unfold rate_limit_decorator, check_rate_limit.
  destruct (find _ _) as [res|]; [destruct (r_attempt_count res >=? 50)|];
    simpl; intros H; try discriminate; reflexivity.
Qed.

Lemma rate_limit_cases (endpoint : string) (view : Db -> Db * Response)
    (d : Db) (w : World) :
  (rate_limit_decorator endpoint view d w = (d, TooManyAttempts)
   /\ snd (check_rate_limit d w endpoint) = false) \/
  (rate_limit_decorator endpoint view d w = view (fst (check_rate_limit d w endpoint))
   /\ snd (check_rate_limit d w endpoint) = true).
Proof.
  destruct (snd (check_rate_limit d w endpoint)) eqn:H.
  - right. split; [|reflexivity]. unfold rate_limit_decorator.
    destruct (check_rate_limit d w endpoint) as [d1 b]. simpl in *. now subst.
  - left. split; [|reflexivity]. now apply rate_limit_refused.
Qed.

Lemma vote_frame (d : Db) (w : World) (poll_id : string) (e o : option string) :
  same_poll_store d (fst (vote d w poll_id e o)).
Proof.
  unfold vote.
  destruct (rate_limit_cases "vote" (vote_view w poll_id e o) d w) as [[-> _]|[-> _]].
  - apply same_poll_store_refl.
  - rewrite vote_view_frame. apply check_rate_limit_frame.
Qed.

Lemma commit_vote_spec (d d' : Db) (w : World) (data : Intent) (r : Response) :
  commit_vote d w data = (d', r) ->
  (d' = d /\ r = AlreadyRecorded) \/
  (r = VoteRecorded /\
   exists n,
     Sql.to_integer (i_option_id data) = Some n /\
     existsb (Sql.vote_key (i_poll_id data) (i_email data)) (votes d) = false /\
     Sql.poll_exists d (i_poll_id data) = true /\
     Sql.option_exists d n = true /\
     votes d' = (votes d ++
       [mkVote (Sql.next_rowid (map v_id (votes d))) (i_poll_id data)
               (i_email data) n true (remote_addr w) (current_timestamp w)])%list /\
     options d' = map (Sql.bump n) (options d) /\
     polls d' = polls d /\ rate_limits d' = rate_limits d).
Proof.
  unfold commit_vote.
  destruct (Sql.insert_vote _ _ _ _ _ _) as [[]|d1] eqn:Hins; intros H;
    inversion H; subst; [left; auto|right].
  split; [reflexivity|].
  apply insert_vote_ok in Hins. destruct Hins as (n & Hn & Hex & Hp & Ho & ->).
  exists n. unfold Sql.increment_votes. rewrite Hn. simpl. auto 10.
Qed.

Lemma confirm_vote_spec (d d' : Db) (w : World) (token : string) (r : Response) :
  confirm_vote d w token = (d', r) ->
  (d' = d /\ r <> VoteRecorded) \/
  (exists data,
     loads token "email-confirm-v2" 3600 (now w) = inr data /\
     commit_vote d w data = (d', r) /\ r = VoteRecorded).
Proof.
  unfold confirm_vote.
  destruct (loads _ _ _ _) as [[]|data] eqn:Hl;
    try (intros H; inversion H; subst; left; split; [auto|discriminate]).
  destruct (Sql.select_vote _ _ _).
  { intros H; inversion H; subst; left; split; [auto|discriminate]. }
  intros H. destruct (commit_vote_spec _ _ _ _ _ H) as [[-> ->]|[-> _]].
  - left. split; [auto|discriminate].
  - right. exists data. auto.
Qed.

Lemma create_poll_cases (d d' : Db) (w : World) (q : option string)
    (raw : list string) (r : Response) :
  create_poll d w q raw = (d', r) ->
  (d' = d /\ r = TooManyAttempts /\ snd (check_rate_limit d w "create_poll") = false) \/
  (snd (check_rate_limit d w "create_poll") = true /\
   create_poll_view w q raw (fst (check_rate_limit d w "create_poll")) = (d', r)).
Proof.
  unfold create_poll.
  destruct (rate_limit_cases "create_poll" (create_poll_view w q raw) d w)
    as [[-> Hs]|[-> Hs]]; intros H.
  - inversion H; subst. left. auto.
  - right. auto.
Qed.

(** The rows of [votes] after any request: unchanged, or one more row for
    a pair that had none. *)
Lemma handle_votes (d : Db) (w : World) (rq : Request) :
  votes (fst (handle d w rq)) = votes d \/
  exists v, votes (fst (handle d w rq)) = (votes d ++ [v])%list /\
            ~ In (vote_pair v) (map vote_pair (votes d)).
Proof.
  destruct rq as [q raw|poll_id|poll_id e o|token|poll_id]; simpl.
  - destruct (create_poll d w q raw) as [d' r] eqn:H. simpl.
    apply create_poll_cases in H. destruct H as [(-> & _)|[_ H]]; [now left|].
    pose proof (check_rate_limit_frame d w "create_poll") as (_ & _ & Hv).
    apply create_poll_view_spec in H.
    destruct H as [[-> _]|H]; [left; exact Hv|].
    cbv zeta in H. destruct H as (_ & _ & _ & Hv' & _). left. congruence.
  - left. unfold poll.
    repeat match goal with
           | |- context [if ?b then _ else _] => destruct b
           | |- context [match ?x with _ => _ end] => destruct x
           end; reflexivity.
  - left. apply (vote_frame d w poll_id e o).
  - destruct (confirm_vote d w token) as [d' r] eqn:H. simpl.
    apply confirm_vote_spec in H.
    destruct H as [[-> _]|(data & _ & H & _)]; [now left|].
    apply commit_vote_spec in H.
    destruct H as [[-> _]|(_ & n & _ & Hex & _ & _ & Hv & _)]; [now left|].
    right. eexists. split; [exact Hv|].
    intros Hin. apply existsb_vote_key in Hin. simpl in Hin. congruence.
  - left. unfold results.
    repeat match goal with
           | |- context [if ?b then _ else _] => destruct b
           | |- context [match ?x with _ => _ end] => destruct x
           end; reflexivity.
Qed.

Lemma handle_votes_unique (d : Db) (w : World) (rq : Request) :
  votes_unique d -> votes_unique (fst (handle d w rq)).
Proof.
  unfold votes_unique. intros Hu.
  destruct (handle_votes d w rq) as [->|(v & -> & Hnew)]; [assumption|].
  rewrite map_app. simpl. now apply nodup_snoc.
Qed.

Lemma run_invariant (P : Db -> Prop) :
  (forall d w rq, P d -> P (fst (handle d w rq))) ->
  forall trace d, P d -> P (run d trace).
Proof.
  intros Hstep trace.
  induction trace as [|[w rq] rest IH]; simpl; intros d Hd; [assumption|].
  apply IH, Hstep, Hd.
Qed.

Lemma reachable_invariant (P : Db -> Prop) :
  P init_db ->
  (forall d w rq, P d -> P (fst (handle d w rq))) ->
  forall d, reachable d -> P d.
Proof.
  intros H0 Hstep d [trace ->]. now apply run_invariant.
Qed.

Lemma reachable_votes_unique (d : Db) : reachable d -> votes_unique d.
Proof.
  apply reachable_invariant.
  - constructor.
  - apply handle_votes_unique.
Qed.

Lemma select_vote_some (d : Db) (p e : string) :
  Sql.select_vote d p e <> None <->
  existsb (Sql.vote_key p e) (votes d) = true.
Proof.
  unfold Sql.select_vote. rewrite find_vote_key.
  destruct (existsb _ _); split; congruence.
Qed.

(** C1 — In every reachable state each (poll_id, email) pair has at most
    one Vote row, and the uniqueness is checked by the INSERT itself: when
    the pair already has a row, the statement raises IntegrityError, the
    commit part of [confirm_vote] answers "already recorded", a whole
    confirmation with a verifying token answers "already confirmed", and
    in both the database, hence the existing Vote, is left as it was. *)
Theorem one_vote_per_poll_and_email (d : Db) (w : World) (token : string)
    (data : Intent) :
  reachable d ->
  (forall poll_id email, (List.length (votes_for d poll_id email) <= 1)%nat) /\
  (Sql.select_vote d (i_poll_id data) (i_email data) <> None ->
     Sql.insert_vote d (current_timestamp w) (i_poll_id data) (i_email data)
                     (i_option_id data)
                     (remote_addr w) = inl Sql.IntegrityError /\
     commit_vote d w data = (d, AlreadyRecorded) /\
     (loads token "email-confirm-v2" 3600 (now w) = inr data ->
        confirm_vote d w token = (d, AlreadyConfirmed))).
Proof.
  intros Hr. split.
  - intros p e. apply unique_pairs_at_most_one. now apply reachable_votes_unique.
  - intros Hsome.
    assert (Hex := proj1 (select_vote_some _ _ _) Hsome).
    assert (Hins := insert_vote_duplicate d (current_timestamp w) _ _ (i_option_id data)
                      (remote_addr w) Hex).
    split; [exact Hins|]. split.
    + unfold commit_vote. now rewrite Hins.
    + intros Hl. unfold confirm_vote. rewrite Hl.
      destruct (Sql.select_vote d _ _); [reflexivity|congruence].
Qed.

Lemma insert_vote_fresh (d : Db) (t n : Z) (p e o ip : string) :
  existsb (Sql.vote_key p e) (votes d) = false ->
  Sql.poll_exists d p = true ->
  Sql.to_integer o = Some n ->
  Sql.option_exists d n = true ->
  Sql.insert_vote d t p e o ip
  = inr (set_votes d (votes d ++
           [mkVote (Sql.next_rowid (map v_id (votes d))) p e n true ip t])).
Proof.
  unfold Sql.insert_vote. intros -> -> -> ->. reflexivity.
Qed.

Lemma find_bump (n : Z) (l : list OptionRow) :
  find (fun o => o_id o =? n) (map (Sql.bump n) l)
  = option_map (Sql.bump n) (find (fun o => o_id o =? n) l).
Proof.
  induction l as [|o l IH]; simpl; [reflexivity|].
  unfold Sql.bump at 1. destruct (o_id o =? n) eqn:Ho; simpl.
  - rewrite Ho. unfold Sql.bump. now rewrite Ho.
  - now rewrite Ho.
Qed.

Lemma option_exists_counter (d : Db) (n : Z) :
  Sql.option_exists d n = true -> exists c, counter d n = Some c.
Proof.
  unfold Sql.option_exists, counter.
  induction (options d) as [|o l IH]; simpl; [discriminate|].
  destruct (o_id o =? n); simpl; eauto.
Qed.

Lemma counter_bump (d d' : Db) (n c : Z) :
  options d' = map (Sql.bump n) (options d) ->
  counter d n = Some c -> counter d' n = Some (c + 1).
Proof.
  unfold counter. intros ->. rewrite find_bump.
  destruct (find _ (options d)) as [o|] eqn:Hf; simpl; [|discriminate].
  intros H; inversion H; subst.
  apply find_some in Hf. destruct Hf as [_ Hf].
  unfold Sql.bump. now rewrite Hf.
Qed.

(** The first confirmation of a verifying token whose poll and option
    rows exist and whose pair has no Vote yet. *)
Lemma confirm_vote_fresh (d : Db) (w : World) (token : string) (data : Intent)
    (n : Z) :
  loads token "email-confirm-v2" 3600 (now w) = inr data ->
  Sql.select_vote d (i_poll_id data) (i_email data) = None ->
  Sql.poll_exists d (i_poll_id data) = true ->
  Sql.to_integer (i_option_id data) = Some n ->
  Sql.option_exists d n = true ->
  confirm_vote d w token
  = (mkDb (polls d) (map (Sql.bump n) (options d))
          (votes d ++ [mkVote (Sql.next_rowid (map v_id (votes d)))
                              (i_poll_id data) (i_email data) n true
                              (remote_addr w) (current_timestamp w)])
          (rate_limits d),
     VoteRecorded).
Proof.
  intros Hl Hnone Hp Hn Ho.
  unfold confirm_vote, commit_vote. rewrite Hl, Hnone.
  apply find_vote_key in Hnone.
  rewrite (insert_vote_fresh d (current_timestamp w) n _ _ _ (remote_addr w)
             Hnone Hp Hn Ho).
  unfold Sql.increment_votes. rewrite Hn. reflexivity.
Qed.

Lemma confirm_vote_existing (d : Db) (w : World) (token : string) (data : Intent) :
  loads token "email-confirm-v2" 3600 (now w) = inr data ->
  Sql.select_vote d (i_poll_id data) (i_email data) <> None ->
  confirm_vote d w token = (d, AlreadyConfirmed).
Proof.
  intros Hl Hsome. unfold confirm_vote. rewrite Hl.
  destruct (Sql.select_vote d _ _); [reflexivity|congruence].
Qed.

Lemma votes_for_existing (d : Db) (p e : string) :
  votes_unique d -> Sql.select_vote d p e <> None ->
  List.length (votes_for d p e) = 1%nat.
Proof.
  intros Hu Hsome.
  pose proof (unique_pairs_at_most_one p e (votes d) Hu) as Hle.
  unfold votes_for in *. unfold Sql.select_vote in Hsome.
  destruct (find _ _) as [v|] eqn:Hf; [|congruence].
  apply find_some in Hf.
  assert (Hin : In v (filter (Sql.vote_key p e) (votes d)))
    by (apply filter_In; exact Hf).
  destruct (filter _ _); simpl in *; [contradiction|lia].
Qed.

(** C2 — Confirming one verifying token twice: afterwards its (poll,
    email) pair has exactly one Vote row, the second confirmation answers
    "already confirmed" (DuplicateAtConfirm) and changes nothing; when the
    pair had no Vote before, the first confirmation records it and the
    counter of the option ends exactly one higher. *)
Theorem confirm_same_token_twice (d : Db) (w1 w2 : World) (token : string)
    (data : Intent) (n : Z) :
  reachable d ->
  loads token "email-confirm-v2" 3600 (now w1) = inr data ->
  loads token "email-confirm-v2" 3600 (now w2) = inr data ->
  Sql.poll_exists d (i_poll_id data) = true ->
  Sql.to_integer (i_option_id data) = Some n ->
  Sql.option_exists d n = true ->
  let d1 := fst (confirm_vote d w1 token) in
  let d2 := fst (confirm_vote d1 w2 token) in
  List.length (votes_for d2 (i_poll_id data) (i_email data)) = 1%nat /\
  snd (confirm_vote d1 w2 token) = AlreadyConfirmed /\
  d2 = d1 /\
  (Sql.select_vote d (i_poll_id data) (i_email data) = None ->
     snd (confirm_vote d w1 token) = VoteRecorded /\
     exists c, counter d n = Some c /\ counter d2 n = Some (c + 1)).
Proof.
  intros Hr Hl1 Hl2 Hp Hn Ho d1 d2.
  assert (Hu1 : votes_unique d1).
  { apply (handle_votes_unique d w1 (ConfirmVote token)).
    now apply reachable_votes_unique. }
  assert (Hsome1 : Sql.select_vote d1 (i_poll_id data) (i_email data) <> None).
  { subst d1. destruct (Sql.select_vote d (i_poll_id data) (i_email data)) eqn:Hs.
    - rewrite (confirm_vote_existing d w1 token data Hl1); simpl; congruence.
    - rewrite (confirm_vote_fresh d w1 token data n Hl1 Hs Hp Hn Ho). simpl.
      apply select_vote_some. simpl. rewrite existsb_app. simpl.
      unfold Sql.vote_key at 2. simpl. rewrite !String.eqb_refl. simpl.
      apply orb_true_r. }
  assert (H2 : confirm_vote d1 w2 token = (d1, AlreadyConfirmed))
    by (now apply (confirm_vote_existing d1 w2 token data)).
  subst d2. rewrite H2. simpl.
  split; [now apply votes_for_existing|]. split; [reflexivity|].
  split; [reflexivity|].
  intros Hs. subst d1.
  rewrite (confirm_vote_fresh d w1 token data n Hl1 Hs Hp Hn Ho). simpl.
  split; [reflexivity|].
  destruct (option_exists_counter d n Ho) as [c Hc]. exists c.
  split; [assumption|]. now apply (counter_bump d).
Qed.

(** *** The token codec *)

Lemma loads_dumps_unsigned (payload : Intent) (purpose : string) (issued : Z) :
  no_dot (encode_ts issued) = true ->
  no_dot (get_signature SECRET_KEY purpose
            (dump_payload payload ++ "." ++ encode_ts issued)) = true ->
  unsign purpose (dumps payload purpose issued)
  = inr (dump_payload payload ++ "." ++ encode_ts issued).
Proof.
  intros Hts Hsig. unfold unsign, dumps. cbv zeta.
  change ("." ++ ?x) with (String "." x).
  unfold no_dot in *.
  rewrite (rsplit1_app_nodot "." _ _ Hsig). now rewrite String.eqb_refl.
Qed.

(** C4 — Token round trip, as amended: with encodings of payload and
    timestamp that read back what they wrote and a signature and a
    timestamp text without dots, a token minted from a payload under
    purpose [p] at time [issued] verifies under [p] to that payload exactly
    while its age is between 0 and [max_age]; it fails with
    [SignatureExpired] once the age exceeds [max_age], and also when it is
    checked before the time it was minted. *)
Theorem token_round_trip (payload : Intent) (p : string) (issued t max_age : Z) :
  no_dot (encode_ts issued) = true ->
  no_dot (get_signature SECRET_KEY p
            (dump_payload payload ++ "." ++ encode_ts issued)) = true ->
  decode_ts (encode_ts issued) = Some issued ->
  load_payload (dump_payload payload) = Some payload ->
  (0 <= t - issued <= max_age ->
     loads (dumps payload p issued) p max_age t = inr payload) /\
  (t - issued > max_age ->
     loads (dumps payload p issued) p max_age t = inl SignatureExpired) /\
  (t - issued < 0 ->
     loads (dumps payload p issued) p max_age t = inl SignatureExpired).
Proof.
  intros Hts Hsig Hdec Hload.
  assert (Hun := loads_dumps_unsigned payload p issued Hts Hsig).
  unfold loads, timestamp_unsign. rewrite Hun.
  change ("." ++ ?x) with (String "." x).
  unfold no_dot in Hts. rewrite (rsplit1_app_nodot "." _ _ Hts), Hdec.
  split; [intros Hage|split; intros Hage].
  - destruct (t - issued >? max_age) eqn:H1; [lia|].
    destruct (t - issued <? 0) eqn:H2; [lia|]. now rewrite Hload.
  - destruct (t - issued >? max_age) eqn:H1; [reflexivity|lia].
  - destruct (t - issued >? max_age) eqn:H1; [reflexivity|].
    destruct (t - issued <? 0) eqn:H2; [reflexivity|lia].
Qed.

(** A verification failure of any kind writes nothing. *)
Lemma confirm_vote_failure_frame (d : Db) (w : World) (token : string)
    (e : TokenError) :
  loads token "email-confirm-v2" 3600 (now w) = inl e ->
  fst (confirm_vote d w token) = d.
Proof.
  intros Hl. unfold confirm_vote. rewrite Hl. destruct e; reflexivity.
Qed.

Lemma confirm_vote_expired (d : Db) (w : World) (token : string) :
  loads token "email-confirm-v2" 3600 (now w) = inl SignatureExpired ->
  confirm_vote d w token = (d, LinkExpired).
Proof. intros Hl. unfold confirm_vote. now rewrite Hl. Qed.

(** A text with a timestamp part and a signature part whose signature
    does not match the purpose and the signed text. *)
Lemma confirm_vote_bad_signature (d : Db) (w : World) (value ts sig : string) :
  no_dot ts = true -> no_dot sig = true ->
  sig <> get_signature SECRET_KEY "email-confirm-v2" (value ++ "." ++ ts) ->
  confirm_vote d w (value ++ "." ++ ts ++ "." ++ sig) = (d, LinkInvalid).
Proof.
  intros Hts Hsig Hne.
  unfold confirm_vote, loads, timestamp_unsign, unsign.
  replace (value ++ "." ++ ts ++ "." ++ sig)
    with ((value ++ "." ++ ts) ++ String "." sig).
  2:{ rewrite string_app_assoc. reflexivity. }
  unfold no_dot in *. rewrite (rsplit1_app_nodot "." _ _ Hsig).
  apply String.eqb_neq in Hne. rewrite Hne.
  change ("." ++ ?x) with (String "." x).
  now rewrite (rsplit1_app_nodot "." _ _ Hts).
Qed.

(** *** Vote initiation *)

Lemma check_rate_limit_mailgun (d : Db) (w : World) (ok : bool) (endpoint : string) :
  check_rate_limit d (with_mailgun w ok) endpoint = check_rate_limit d w endpoint.
Proof. reflexivity. Qed.

Lemma vote_view_delivery (w : World) (poll_id : string) (e o : option string)
    (d : Db) (to token : string) :
  mailgun_ok w = false ->
  snd (vote_view (with_mailgun w true) poll_id e o d) = ConfirmationSent to token ->
  vote_view w poll_id e o d = (d, MailNotSent).
Proof.
  intros Hm. unfold vote_view. simpl. rewrite Hm.
  repeat match goal with
         | |- context [if ?b then _ else _] => destruct b
         | |- context [match ?x with _ => _ end] => destruct x
         end; simpl; intros H; try discriminate H; reflexivity.
Qed.

Lemma vote_view_no_mail (w : World) (poll_id : string) (e o : option string)
    (d : Db) (to token : string) :
  mailgun_ok w = false ->
  snd (vote_view w poll_id e o d) <> ConfirmationSent to token.
Proof.
  intros Hm. unfold vote_view. rewrite Hm.
  repeat match goal with
         | |- context [if ?b then _ else _] => destruct b
         | |- context [match ?x with _ => _ end] => destruct x
         end; simpl; discriminate.
Qed.

(** C9 — When Mailgun refuses the message, [vote] answers "could not be
    sent" wherever it would otherwise have sent the confirmation, never
    reports a sent mail, and leaves [polls], [options] and [votes] exactly
    as they were; only the rate guard's own relation may differ. *)
Theorem failed_delivery_changes_nothing (d : Db) (w : World) (poll_id : string)
    (e o : option string) :
  mailgun_ok w = false ->
  same_poll_store d (fst (vote d w poll_id e o)) /\
  (forall to token, snd (vote d w poll_id e o) <> ConfirmationSent to token) /\
  (forall to token,
     snd (vote d (with_mailgun w true) poll_id e o) = ConfirmationSent to token ->
     snd (vote d w poll_id e o) = MailNotSent).
Proof.
  intros Hm. split; [apply vote_frame|].
  unfold vote.
  destruct (rate_limit_cases "vote" (vote_view w poll_id e o) d w)
    as [[Hv Hs]|[Hv Hs]];
  destruct (rate_limit_cases "vote"
              (vote_view (with_mailgun w true) poll_id e o) d (with_mailgun w true))
    as [[Hv' Hs']|[Hv' Hs']];
  rewrite check_rate_limit_mailgun in *; try congruence; rewrite Hv, Hv'.
  - split; intros; simpl in *; discriminate.
  - split.
    + intros to token. now apply vote_view_no_mail.
    + intros to token H. now rewrite (vote_view_delivery _ _ _ _ _ to token Hm H).
Qed.

(** *** Confirmation and the lifecycle of the poll *)

Lemma select_poll_exists (d : Db) (poll_id : string) (row : PollRow) :
  Sql.select_poll d poll_id = Some row -> Sql.poll_exists d poll_id = true.
Proof.
  unfold Sql.select_poll, Sql.poll_exists. intros H.
  apply find_some in H. apply existsb_exists. eauto.
Qed.

(** C10 — [confirm_vote] does not look at the lifecycle of the poll: for
    a token that verifies, whose pair has no Vote yet, and whose poll and
    option rows exist, it records the Vote and raises the counter of the
    option by one, whatever [is_active] and [expire_date] of the poll row
    are, in particular when the poll is inactive or expired. *)
Theorem confirm_ignores_poll_lifecycle (d : Db) (w : World) (token : string)
    (data : Intent) (row : PollRow) (n : Z) :
  loads token "email-confirm-v2" 3600 (now w) = inr data ->
  Sql.select_vote d (i_poll_id data) (i_email data) = None ->
  Sql.select_poll d (i_poll_id data) = Some row ->
  Sql.to_integer (i_option_id data) = Some n ->
  Sql.option_exists d n = true ->
  let d' := fst (confirm_vote d w token) in
  snd (confirm_vote d w token) = VoteRecorded /\
  votes d' = (votes d ++ [mkVote (Sql.next_rowid (map v_id (votes d)))
                                 (i_poll_id data) (i_email data) n true
                                 (remote_addr w) (current_timestamp w)])%list /\
  polls d' = polls d /\
  exists c, counter d n = Some c /\ counter d' n = Some (c + 1).
Proof.
  intros Hl Hs Hrow Hn Ho d'. subst d'.
  rewrite (confirm_vote_fresh d w token data n Hl Hs
             (select_poll_exists _ _ _ Hrow) Hn Ho).
  simpl. repeat split.
  destruct (option_exists_counter d n Ho) as [c Hc]. exists c.
  split; [assumption|]. now apply (counter_bump d).
Qed.

(** *** Poll creation *)

Lemma nonempty_length (s : string) : (1 <= String.length s)%nat -> nonempty s = true.
Proof. destruct s; simpl; [lia|reflexivity]. Qed.

Lemma create_poll_view_accepts (d : Db) (w : World) (q : option string)
    (raw : list string) :
  Sql.poll_exists d (Py.take 12 (uuid4_hex w)) = false ->
  (10 <= String.length (sanitize_input q 500))%nat ->
  (2 <= List.length (collect_options raw) <= 10)%nat ->
  NoDup (collect_options raw) ->
  snd (create_poll_view w q raw d) = PollCreated (Py.take 12 (uuid4_hex w)).
Proof.
  intros Hfresh Hq [Hlo Hhi] Hnd. unfold create_poll_view.
  rewrite nonempty_length by lia.
  replace (Nat.ltb (String.length (sanitize_input q 500)) 10) with false
    by (symmetry; apply Nat.ltb_ge; lia).
  replace (Nat.ltb (List.length (collect_options raw)) 2) with false
    by (symmetry; apply Nat.ltb_ge; lia).
  replace (Nat.ltb 10 (List.length (collect_options raw))) with false
    by (symmetry; apply Nat.ltb_ge; lia).
  rewrite (NoDup_nodup_length _ Hnd). cbn [negb orb]. cbv zeta.
  unfold Sql.insert_poll. rewrite Hfresh.
  match goal with
  | |- context [insert_options ?d1 ?p ?l] =>
      destruct (insert_options_total p l d1) as [d2 ->]; [|reflexivity]
  end.
  rewrite poll_exists_snoc. simpl. rewrite String.eqb_refl. apply orb_true_r.
Qed.

Lemma create_poll_view_rejects (d : Db) (w : World) (q : option string)
    (raw : list string) :
  let question := sanitize_input q 500 in
  let opts := collect_options raw in
  ((String.length question < 10)%nat ->
     create_poll_view w q raw d = (d, QuestionTooShort)) /\
  ((10 <= String.length question)%nat -> (List.length opts < 2)%nat ->
     create_poll_view w q raw d = (d, TooFewOptions)) /\
  ((10 <= String.length question)%nat -> (10 < List.length opts)%nat ->
     create_poll_view w q raw d = (d, TooManyOptions)).
Proof.
  cbv zeta. unfold create_poll_view. repeat split.
  - intros Hq. apply Nat.ltb_lt in Hq. rewrite Hq. now rewrite orb_true_r.
  - intros Hq Ho. rewrite nonempty_length by lia.
    apply Nat.ltb_ge in Hq. apply Nat.ltb_lt in Ho. now rewrite Hq, Ho.
  - intros Hq Ho. rewrite nonempty_length by lia.
    apply Nat.ltb_ge in Hq. rewrite Hq. simpl.
    replace (Nat.ltb (List.length (collect_options raw)) 2) with false
      by (symmetry; apply Nat.ltb_ge; lia).
    apply Nat.ltb_lt in Ho. now rewrite Ho.
Qed.

(** The boundaries of poll creation, read on what the handler computes. *)
Lemma creation_bounds_on_collected (d : Db) (w : World) (q : option string)
    (raw : list string) :
  snd (check_rate_limit d w "create_poll") = true ->
  Sql.poll_exists d (Py.take 12 (uuid4_hex w)) = false ->
  let question := sanitize_input q 500 in
  let opts := collect_options raw in
  let response := snd (create_poll d w q raw) in
  let accepted := response = PollCreated (Py.take 12 (uuid4_hex w)) in
  (String.length question = 9%nat -> response = QuestionTooShort) /\
  (String.length question = 10%nat ->
     (2 <= List.length opts <= 10)%nat -> NoDup opts -> accepted) /\
  ((10 <= String.length question)%nat ->
     (List.length opts = 1%nat -> response = TooFewOptions) /\
     (List.length opts = 2%nat -> NoDup opts -> accepted) /\
     (List.length opts = 10%nat -> NoDup opts -> accepted) /\
     (List.length opts = 11%nat -> response = TooManyOptions)) /\
  (~ NoDup opts -> forall id, response <> PollCreated id).
Proof.
  intros Hrate Hfresh. cbv zeta.
  destruct (create_poll d w q raw) as [d' r] eqn:Hc. simpl.
  destruct (create_poll_cases _ _ _ _ _ _ Hc) as [(_ & _ & Hno)|[_ Hv]];
    [congruence|].
  set (d1 := fst (check_rate_limit d w "create_poll")) in *.
  assert (Hfresh1 : Sql.poll_exists d1 (Py.take 12 (uuid4_hex w)) = false).
  { rewrite <- Hfresh. apply poll_exists_ext.
    apply (check_rate_limit_frame d w "create_poll"). }
  assert (Hr : r = snd (create_poll_view w q raw d1)) by now rewrite Hv.
  destruct (create_poll_view_rejects d1 w q raw) as (Rq & Rfew & Rmany).
  cbv zeta in *.
  assert (Hacc : (10 <= String.length (sanitize_input q 500))%nat ->
                 (2 <= List.length (collect_options raw) <= 10)%nat ->
                 NoDup (collect_options raw) ->
                 r = PollCreated (Py.take 12 (uuid4_hex w))).
  { intros. rewrite Hr. now apply create_poll_view_accepts. }
  split; [intros H9; rewrite Hr, Rq; [reflexivity|lia]|].
  split; [intros H10 Hn Hnd; apply Hacc; auto; lia|].
  split.
  - intros Hq. repeat split.
    + intros H1. rewrite Hr, Rfew; [reflexivity|lia|lia].
    + intros H2 Hnd. apply Hacc; auto; lia.
    + intros H10 Hnd. apply Hacc; auto; lia.
    + intros H11. rewrite Hr, Rmany; [reflexivity|lia|lia].
  - intros Hdup id Hid. subst r.
    apply create_poll_view_spec in Hv.
    destruct Hv as [[_ Hne]|Hok]; [now apply (Hne id)|].
    cbv zeta in Hok. destruct Hok as (_ & _ & _ & _ & _ & _ & _ & Hnd & _).
    contradiction.
Qed.

Lemma sanitize_input_measured (field : option string) (n : nat) :
  sanitize_input field n = measured n field.
Proof. destruct field as [[|c s]|]; reflexivity. Qed.

Lemma collect_options_kept (raw : list string) :
  collect_options raw = kept_options raw.
Proof.
  unfold collect_options, kept_options.
  rewrite (map_ext _ (fun o => measured 200 (Some o)))
    by (intros o; apply sanitize_input_measured).
  apply filter_ext. intros t. destruct t; reflexivity.
Qed.

(** C8 — Boundaries of poll creation, as amended: for a request the rate
    guard lets through and a fresh identifier, the lengths are taken after
    sanitizing (the field stripped, cut and cleaned), and the options
    counted are those that then have at least two characters.  So
    measured, a question of 9 characters is rejected and one of 10
    accepted; 1 counted option is rejected and 2 accepted; 10 counted
    options are accepted and 11 rejected; and two counted options with the
    same text (compared exactly, so case-sensitively) are never accepted. *)
Theorem create_poll_boundaries (d : Db) (w : World) (q : option string)
    (raw : list string) :
  snd (check_rate_limit d w "create_poll") = true ->
  Sql.poll_exists d (Py.take 12 (uuid4_hex w)) = false ->
  let question := measured 500 q in
  let opts := kept_options raw in
  let response := snd (create_poll d w q raw) in
  let accepted := response = PollCreated (Py.take 12 (uuid4_hex w)) in
  (String.length question = 9%nat -> response = QuestionTooShort) /\
  (String.length question = 10%nat ->
     (2 <= List.length opts <= 10)%nat -> NoDup opts -> accepted) /\
  ((10 <= String.length question)%nat ->
     (List.length opts = 1%nat -> response = TooFewOptions) /\
     (List.length opts = 2%nat -> NoDup opts -> accepted) /\
     (List.length opts = 10%nat -> NoDup opts -> accepted) /\
     (List.length opts = 11%nat -> response = TooManyOptions)) /\
  (~ NoDup opts -> forall id, response <> PollCreated id).
Proof.
  intros Hrate Hfresh. cbv zeta.
  rewrite <- sanitize_input_measured, <- collect_options_kept.
  exact (creation_bounds_on_collected d w q raw Hrate Hfresh).
Qed.

(** *** The options of a poll over time *)

(** What one request can do to [polls] and [options]: nothing, one counter
    update, or one new poll with its own options. *)
Lemma handle_polls_options (d : Db) (w : World) (rq : Request) :
  let d' := fst (handle d w rq) in
  (polls d' = polls d /\ options d' = options d) \/
  (polls d' = polls d /\ exists n, options d' = map (Sql.bump n) (options d)) \/
  (exists row news,
     Sql.poll_exists d (p_id row) = false /\
     polls d' = (polls d ++ [row])%list /\
     options d' = (options d ++ news)%list /\
     Forall (fun o => o_poll_id o = p_id row) news).
Proof.
  cbv zeta. destruct rq as [q raw|poll_id|poll_id e o|token|poll_id]; simpl.
  - destruct (create_poll d w q raw) as [d' r] eqn:H. simpl.
    apply create_poll_cases in H. destruct H as [(-> & _)|[_ H]]; [now left|].
    pose proof (check_rate_limit_frame d w "create_poll") as (Hp & Ho & _).
    apply create_poll_view_spec in H.
    destruct H as [[-> _]|H]; [left; auto|].
    cbv zeta in H.
    destruct H as (_ & Hfresh & Hp' & _ & _ & _ & _ & _ & news & Ho' & _ & Hall).
    right. right. eexists. exists news. simpl.
    rewrite <- Hp, <- Ho. repeat split; try eassumption.
    + rewrite <- Hfresh. symmetry. now apply poll_exists_ext.
    + eapply Forall_impl; [|exact Hall]. simpl. intros a [Ha _]. exact Ha.
  - left. unfold poll.
    repeat match goal with
           | |- context [if ?b then _ else _] => destruct b
           | |- context [match ?x with _ => _ end] => destruct x
           end; auto.
  - left. destruct (vote_frame d w poll_id e o) as (Hp & Ho & _). auto.
  - destruct (confirm_vote d w token) as [d' r] eqn:H. simpl.
    apply confirm_vote_spec in H.
    destruct H as [[-> _]|(data & _ & H & _)]; [now left|].
    apply commit_vote_spec in H.
    destruct H as [[-> _]|(_ & n & _ & _ & _ & _ & _ & Ho & Hp & _)]; [now left|].
    right. left. eauto.
  - left. unfold results.
    repeat match goal with
           | |- context [if ?b then _ else _] => destruct b
           | |- context [match ?x with _ => _ end] => destruct x
           end; auto.
Qed.

Lemma handle_options_fk (d : Db) (w : World) (rq : Request) :
  options_fk d -> options_fk (fst (handle d w rq)).
Proof.
  unfold options_fk. intros Hfk.
  destruct (handle_polls_options d w rq)
    as [[Hp Ho]|[[Hp [n Ho]]|(row & news & Hfresh & Hp & Ho & Hall)]];
    rewrite Ho.
  - eapply Forall_impl; [|exact Hfk]. intros o H. simpl.
    now rewrite (poll_exists_ext _ _ _ Hp).
  - apply Forall_map. eapply Forall_impl; [|exact Hfk]. intros o H. simpl.
    now rewrite bump_poll_id, (poll_exists_ext _ _ _ Hp).
  - apply Forall_app. split.
    + eapply Forall_impl; [|exact Hfk]. intros o H. simpl in *.
      rewrite (poll_exists_grow d _ row _ Hp), H. reflexivity.
    + eapply Forall_impl; [|exact Hall]. intros o H. simpl in *.
      rewrite (poll_exists_grow d _ row _ Hp), H, String.eqb_refl.
      apply orb_true_r.
Qed.

Lemma reachable_options_fk (d : Db) : reachable d -> options_fk d.
Proof.
  apply reachable_invariant.
  - constructor.
  - apply handle_options_fk.
Qed.

(** Once a poll exists, no request adds, drops or renames its options. *)
Lemma handle_keeps_options (poll_id : string) (d : Db) (w : World) (rq : Request) :
  Sql.poll_exists d poll_id = true ->
  Sql.poll_exists (fst (handle d w rq)) poll_id = true /\
  map option_ident (Sql.options_of (fst (handle d w rq)) poll_id)
  = map option_ident (Sql.options_of d poll_id).
Proof.
  intros Hex. unfold Sql.options_of.
  destruct (handle_polls_options d w rq)
    as [[Hp Ho]|[[Hp [n Ho]]|(row & news & Hfresh & Hp & Ho & Hall)]];
    rewrite Ho.
  - split; [now rewrite (poll_exists_ext _ _ _ Hp)|reflexivity].
  - split; [now rewrite (poll_exists_ext _ _ _ Hp)|].
    rewrite filter_poll_bump, map_map.
    apply map_ext. intros o. apply bump_ident.
  - split; [rewrite (poll_exists_grow d _ row _ Hp), Hex; reflexivity|].
    rewrite filter_app.
    rewrite (filter_none _ news); [now rewrite app_nil_r|].
    eapply Forall_impl; [|exact Hall]. intros o H. simpl in *.
    apply String.eqb_neq. intros Heq. congruence.
Qed.

(** The options of a new poll, read on what the handler computes. *)
Lemma new_options_on_collected (d : Db) (w : World) (q : option string)
    (raw : list string) (poll_id : string) :
  reachable d ->
  snd (create_poll d w q raw) = PollCreated poll_id ->
  poll_id_re poll_id = true ->
  let d1 := fst (create_poll d w q raw) in
  let created := Sql.options_of d1 poll_id in
  map o_option_text created = collect_options raw /\
  List.length created = List.length (nodup string_dec (collect_options raw)) /\
  forall trace, exists row opts total,
    results (run d1 trace) poll_id = (run d1 trace, ResultsPage row opts total) /\
    Permutation (map option_ident opts) (map option_ident created).
Proof.
  intros Hreach Hresp Hre d1 created.
  destruct (create_poll d w q raw) as [d' r] eqn:Hc. simpl in Hresp, d1.
  subst r d1.
  pose proof (reachable_options_fk d Hreach) as Hfk.
  destruct (create_poll_cases _ _ _ _ _ _ Hc) as [(_ & Hno & _)|[_ Hv]];
    [discriminate|].
  pose proof (check_rate_limit_frame d w "create_poll") as (Hp0 & Ho0 & _).
  apply create_poll_view_spec in Hv.
  destruct Hv as [[_ Hne]|Hok]; [now elim (Hne poll_id)|].
  cbv zeta in Hok.
  destruct Hok as (Hid & Hfresh & Hp & _ & _ & _ & _ & Hnd & news & Ho & Htexts & Hall).
  assert (Hid' : poll_id = Py.take 12 (uuid4_hex w)) by congruence.
  rewrite <- Hid' in *. clear Hid Hid'.
  rewrite (poll_exists_ext _ _ _ Hp0) in Hfresh. rewrite Hp0 in Hp. rewrite Ho0 in Ho.
  assert (Hcreated : created = news).
  { subst created. unfold Sql.options_of. rewrite Ho, filter_app.
    fold (Sql.options_of d poll_id). rewrite (options_of_orphans d _ Hfk Hfresh).
    simpl. apply filter_all. eapply Forall_impl; [|exact Hall].
    intros o [H _]. simpl. rewrite H. apply String.eqb_refl. }
  split; [now rewrite Hcreated|].
  split.
  { rewrite (nodup_fixed_point string_dec Hnd), Hcreated, <- Htexts.
    now rewrite length_map. }
  intros trace.
  assert (Hinv : Sql.poll_exists (run d' trace) poll_id = true /\
                 map option_ident (Sql.options_of (run d' trace) poll_id)
                 = map option_ident created).
  { apply (run_invariant (fun x =>
             Sql.poll_exists x poll_id = true /\
             map option_ident (Sql.options_of x poll_id) = map option_ident created)).
    - intros x w' rq [Hx1 Hx2].
      destruct (handle_keeps_options poll_id x w' rq Hx1) as [H1 H2].
      split; [assumption|congruence].
    - split; [|reflexivity].
      rewrite (poll_exists_grow d d' _ _ Hp). simpl.
      rewrite String.eqb_refl. apply orb_true_r. }
  destruct Hinv as [Hex Hopts].
  destruct (select_poll_some _ _ Hex) as [row Hrow].
  exists row, (Sql.select_tally (run d' trace) poll_id),
         (total_votes (Sql.select_tally (run d' trace) poll_id)).
  split.
  - unfold results. now rewrite Hre, Hrow.
  - rewrite <- Hopts. apply Permutation_map. apply order_by_perm.
Qed.

(** C7 — Persisted options, as amended: when [create_poll] accepts its
    input, the option rows it has persisted for the new poll carry, in the
    order submitted, the sanitized texts (stripped, cut to 200 characters,
    cleaned) of the submitted options that then have at least two
    characters; these texts are pairwise distinct, so the number of rows is
    the number of distinct ones; and after any further requests the results
    page of that poll lists exactly those rows, each once. *)
Theorem poll_options_persist (d : Db) (w : World) (q : option string)
    (raw : list string) (poll_id : string) :
  reachable d ->
  snd (create_poll d w q raw) = PollCreated poll_id ->
  poll_id_re poll_id = true ->
  let d1 := fst (create_poll d w q raw) in
  let created := Sql.options_of d1 poll_id in
  map o_option_text created = kept_options raw /\
  NoDup (kept_options raw) /\
  List.length created = List.length (nodup string_dec (kept_options raw)) /\
  forall trace, exists row opts total,
    results (run d1 trace) poll_id = (run d1 trace, ResultsPage row opts total) /\
    Permutation (map option_ident opts) (map option_ident created).
Proof.
  intros Hreach Hresp Hre. cbv zeta.
  destruct (new_options_on_collected d w q raw poll_id Hreach Hresp Hre)
    as (Htexts & Hlen & Hlater).
  rewrite <- collect_options_kept.
  split; [exact Htexts|]. split; [|split; [exact Hlen|exact Hlater]].
  apply nodup_length_NoDup. apply Nat.eqb_eq.
  rewrite <- Hlen, <- Htexts. now rewrite length_map.
Qed.

(** *** Tokens minted by [vote] *)

(** A confirmation mail is only sent for a poll row and an option row
    that exist; the token carries their identifiers. *)
Lemma vote_mints_for_existing_rows (d : Db) (w : World) (poll_id : string)
    (e o : option string) (to token : string) :
  snd (vote d w poll_id e o) = ConfirmationSent to token ->
  exists option_id n,
    token = dumps (mkIntent poll_id option_id to (remote_addr w))
                  "email-confirm-v2" (now w) /\
    Sql.poll_exists d poll_id = true /\
    Sql.to_integer option_id = Some n /\
    Sql.option_exists d n = true.
Proof.
  unfold vote.
  destruct (rate_limit_cases "vote" (vote_view w poll_id e o) d w)
    as [[-> _]|[-> _]]; [discriminate|].
  pose proof (check_rate_limit_frame d w "vote") as (Hp & Ho & _).
  set (d1 := fst (check_rate_limit d w "vote")) in *.
  unfold vote_view.
  destruct (negb _ || negb _)%bool; [discriminate|].
  destruct o as [option_id|]; [|discriminate].
  destruct (negb _ || negb _)%bool; [discriminate|].
  destruct (Sql.select_poll d1 poll_id) as [row|] eqn:Hrow; [|discriminate].
  destruct (negb (p_is_active row)); [discriminate|].
  destruct (Sql.select_option d1 option_id poll_id) as [opt|] eqn:Hopt;
    [|discriminate].
  destruct (Sql.select_vote d1 poll_id _); [discriminate|].
  destruct (mailgun_ok w); [|discriminate].
  simpl. intros H. inversion H; subst to token.
  unfold Sql.select_option in Hopt.
  destruct (Sql.to_integer option_id) as [n|] eqn:Hn; [|discriminate].
  exists option_id, n. split; [reflexivity|].
  split; [rewrite <- (poll_exists_ext d d1 _ Hp); now apply (select_poll_exists d1 _ row)|].
  split; [exact Hn|].
  apply find_some in Hopt. destruct Hopt as [Hin Hk].
  apply andb_prop in Hk. destruct Hk as [Hk _].
  unfold Sql.option_exists. rewrite <- Ho. apply existsb_exists. eauto.
Qed.

(** Rows are never deleted: a poll and an option that exist keep existing. *)
Lemma handle_keeps_rows (d : Db) (w : World) (rq : Request) (poll_id : string) (n : Z) :
  Sql.poll_exists d poll_id = true -> Sql.option_exists d n = true ->
  Sql.poll_exists (fst (handle d w rq)) poll_id = true /\
  Sql.option_exists (fst (handle d w rq)) n = true.
Proof.
  intros Hp Ho. unfold Sql.option_exists in *.
  destruct (handle_polls_options d w rq)
    as [[Hp' Ho']|[[Hp' [m Ho']]|(row & news & _ & Hp' & Ho' & _)]];
    rewrite Ho'.
  - split; [now rewrite (poll_exists_ext _ _ _ Hp')|assumption].
  - split; [now rewrite (poll_exists_ext _ _ _ Hp')|].
    rewrite existsb_exists in *. destruct Ho as (x & Hin & Hx).
    exists (Sql.bump m x). split; [now apply in_map|].
    unfold Sql.bump. now destruct (o_id x =? m).
  - split; [rewrite (poll_exists_grow d _ row _ Hp'), Hp; reflexivity|].
    rewrite existsb_app, Ho. reflexivity.
Qed.

(** The commit part alone, entered without the check before it (as after
    a race with another confirmation), keeps the pairs unique. *)
Lemma commit_vote_keeps_unique (d : Db) (w : World) (data : Intent) :
  votes_unique d -> votes_unique (fst (commit_vote d w data)).
Proof.
  unfold votes_unique. intros Hu.
  destruct (commit_vote d w data) as [d' r] eqn:H. simpl.
  apply commit_vote_spec in H.
  destruct H as [[-> _]|(_ & n & _ & Hex & _ & _ & Hv & _)]; [assumption|].
  rewrite Hv, map_app. simpl. apply nodup_snoc; [assumption|].
  intros Hin. apply existsb_vote_key in Hin. simpl in Hin. congruence.
Qed.


(** *** The lifecycle gate and the shape of poll identifiers *)

(** The poll view shows the poll exactly when the gate is open. *)
Lemma poll_enforces_gate (d : Db) (w : World) (poll_id : string) (row : PollRow) :
  poll_id_re poll_id = true ->
  Sql.select_poll d poll_id = Some row ->
  (votable w row = true ->
     poll d w poll_id = (d, PollPage row (Sql.select_options d poll_id))) /\
  (votable w row = false ->
     poll d w poll_id = (d, PollInactive) \/ poll d w poll_id = (d, PollExpired)).
Proof.
  intros Hre Hrow. unfold poll, votable, expired. rewrite Hre, Hrow. simpl.
  destruct (p_is_active row); simpl; [|split; [discriminate|auto]].
  destruct (p_expire_date row) as [t|]; [|split; [auto|discriminate]].
  destruct (now w >? t) eqn:Hgt, (now w <=? t) eqn:Hle; try lia;
    split; auto; discriminate.
Qed.

(** [vote] turns down a poll that is missing or inactive, once the email
    and the option field have the right shape. *)
Lemma vote_view_rejects_inactive (d : Db) (w : World) (poll_id email option_id : string) :
  validate_email (Some (Py.lower (Py.strip email))) = true ->
  Py.isdigit option_id = true ->
  (Sql.select_poll d poll_id = None \/
   exists row, Sql.select_poll d poll_id = Some row /\ p_is_active row = false) ->
  vote_view w poll_id (Some email) (Some option_id) d = (d, PollNotActive).
Proof.
  intros He Ho Hrow. unfold vote_view.
  assert (Hne : nonempty (Py.lower (Py.strip email)) = true).
  { destruct (Py.lower (Py.strip email)); [discriminate He|reflexivity]. }
  assert (Hno : nonempty option_id = true).
  { destruct option_id; [discriminate Ho|reflexivity]. }
  rewrite Hne, He, Hno, Ho. simpl.
  destruct Hrow as [->|(row & -> & ->)]; reflexivity.
Qed.

(** The views that check the identifier answer before any query: the
    answer to a malformed identifier is the same in every database. *)
Lemma malformed_id_rejected (d : Db) (w : World) (poll_id : string) :
  poll_id_re poll_id = false ->
  poll d w poll_id = (d, InvalidPollId) /\ results d poll_id = (d, InvalidPollId).
Proof. intros H. unfold poll, results. now rewrite H. Qed.

(** C5 — A token text without any dot fails verification with the plain
    [BadSignature], which is neither of the two exceptions [confirm_vote]
    catches: the request ends in an unhandled error, not in the "invalid
    link" answer.  The database is untouched. *)
Theorem confirm_vote_unsigned_text_unhandled (d : Db) (w : World) :
  confirm_vote d w "abc" = (d, Unhandled BadSignature).
Proof. reflexivity. Qed.

(** [vote] never answers "invalid poll ID". *)
Lemma vote_never_invalid_poll_id (d : Db) (w : World) (poll_id : string)
    (e o : option string) :
  snd (vote d w poll_id e o) <> InvalidPollId.
Proof.
  unfold vote.
  destruct (rate_limit_cases "vote" (vote_view w poll_id e o) d w)
    as [[-> _]|[-> _]]; [discriminate|].
  unfold vote_view.
  repeat match goal with
         | |- context [if ?b then _ else _] => destruct b
         | |- context [match ?x with _ => _ end] => destruct x
         end; simpl; discriminate.
Qed.

End Properties.

(** ** Where the handlers fall short, on the scenario run *)

(** C3 — Thirty-one days after its creation the poll of the scenario is
    past its expiry date, so the gate of the specification is closed and
    the poll view answers "expired"; [vote] reads [expire_date] but does
    not test it, and still sends the confirmation mail. *)
Theorem vote_accepts_expired_poll :
  let w := Demo.world Demo.late "" true in
  Sql.select_poll Demo.created Demo.poll_id = Some Demo.poll_row /\
  votable w Demo.poll_row = false /\
  poll Demo.created w Demo.poll_id = (Demo.created, PollExpired) /\
  snd (vote (deps := Demo.deps) Demo.created w Demo.poll_id
            (Some "a@b.com") (Some "1"))
  = ConfirmationSent "a@b.com" Demo.late_token.
Proof. vm_compute. repeat split. Qed.

(** C6 — [vote] has no shape check on the poll identifier: it never
    answers "invalid poll ID", and for an identifier that the poll view and
    the results view turn down as malformed it queries the database and
    answers "this poll is not active". *)
Theorem vote_does_not_check_poll_id :
  (forall (deps : Deps) d w poll_id e o,
     snd (vote d w poll_id e o) <> InvalidPollId) /\
  let w := Demo.world 110 "" true in
  poll Demo.created w "not-a-poll-id" = (Demo.created, InvalidPollId) /\
  results Demo.created "not-a-poll-id" = (Demo.created, InvalidPollId) /\
  snd (vote (deps := Demo.deps) Demo.created w "not-a-poll-id"
            (Some "a@b.com") (Some "1")) = PollNotActive.
Proof.
  split; [intros; apply vote_never_invalid_poll_id|].
  vm_compute. repeat split.
Qed.

(** The anchor [$] lets one final line feed through: thirteen characters
    pass the check of the poll view and reach the lookup. *)
Lemma poll_id_re_final_newline :
  let poll_id := Demo.poll_id ++ String Py.newline EmptyString in
  String.length poll_id = 13%nat /\
  poll_id_re poll_id = true /\
  snd (poll init_db (Demo.world 110 "" true) poll_id) = PollNotFound.
Proof. vm_compute. repeat split. Qed.

(** ** Instances of the theorems on the scenario run *)

Lemma reachable_created : reachable (deps := Demo.deps) Demo.created.
Proof. exists Demo.trace_created. reflexivity. Defined.

Lemma reachable_confirmed : reachable (deps := Demo.deps) Demo.confirmed.
Proof. exists Demo.trace_confirmed. reflexivity. Defined.

Lemma one_vote_per_poll_and_email_witness :
  reachable (deps := Demo.deps) Demo.confirmed /\
  (List.length (votes_for Demo.confirmed Demo.poll_id "a@b.com") <= 1)%nat /\
  commit_vote Demo.confirmed (Demo.world 130 "" true) Demo.intent
  = (Demo.confirmed, AlreadyRecorded) /\
  confirm_vote (deps := Demo.deps) Demo.confirmed (Demo.world 130 "" true) Demo.token
  = (Demo.confirmed, AlreadyConfirmed).
Proof.
  split; [exact reachable_confirmed|].
  destruct (one_vote_per_poll_and_email (deps := Demo.deps) Demo.confirmed
              (Demo.world 130 "" true) Demo.token Demo.intent reachable_confirmed)
    as [H1 H2].
  split; [apply H1|].
  assert (Hsome : Sql.select_vote Demo.confirmed (i_poll_id Demo.intent)
                    (i_email Demo.intent) <> None)
    by (vm_compute; discriminate).
  destruct (H2 Hsome) as (_ & H3 & H4).
  split; [exact H3|]. apply H4. vm_compute. reflexivity.
Defined.

Lemma confirm_same_token_twice_witness :
  let w1 := Demo.world 120 "" true in
  let w2 := Demo.world 130 "" true in
  let d1 := fst (confirm_vote (deps := Demo.deps) Demo.created w1 Demo.token) in
  reachable (deps := Demo.deps) Demo.created /\
  loads (deps := Demo.deps) Demo.token "email-confirm-v2" 3600 120 = inr Demo.intent /\
  loads (deps := Demo.deps) Demo.token "email-confirm-v2" 3600 130 = inr Demo.intent /\
  List.length (votes_for (fst (confirm_vote (deps := Demo.deps) d1 w2 Demo.token))
                         Demo.poll_id "a@b.com") = 1%nat /\
  snd (confirm_vote (deps := Demo.deps) d1 w2 Demo.token) = AlreadyConfirmed /\
  counter Demo.created 1 = Some 0 /\
  counter (fst (confirm_vote (deps := Demo.deps) d1 w2 Demo.token)) 1 = Some 1.
Proof.
  cbv zeta.
  assert (Hl1 : loads (deps := Demo.deps) Demo.token "email-confirm-v2" 3600 120
                = inr Demo.intent) by (vm_compute; reflexivity).
  assert (Hl2 : loads (deps := Demo.deps) Demo.token "email-confirm-v2" 3600 130
                = inr Demo.intent) by (vm_compute; reflexivity).
  split; [exact reachable_created|]. split; [exact Hl1|]. split; [exact Hl2|].
  destruct (confirm_same_token_twice (deps := Demo.deps) Demo.created
              (Demo.world 120 "" true) (Demo.world 130 "" true) Demo.token
              Demo.intent 1 reachable_created Hl1 Hl2)
    as (H1 & H2 & _ & _); try (vm_compute; reflexivity).
  split; [exact H1|]. split; [exact H2|].
  split; vm_compute; reflexivity.
Defined.

Lemma token_round_trip_witness :
  no_dot (Demo.encode_ts 110) = true /\
  Demo.decode_ts (Demo.encode_ts 110) = Some 110 /\
  Demo.load_payload (Demo.dump_payload Demo.intent) = Some Demo.intent /\
  loads (deps := Demo.deps) Demo.token "email-confirm-v2" 3600 110 = inr Demo.intent /\
  loads (deps := Demo.deps) Demo.token "email-confirm-v2" 3600 3710 = inr Demo.intent /\
  loads (deps := Demo.deps) Demo.token "email-confirm-v2" 3600 3711
  = inl SignatureExpired /\
  loads (deps := Demo.deps) Demo.token "email-confirm-v2" 3600 109
  = inl SignatureExpired.
Proof.
  split; [reflexivity|]. split; [reflexivity|]. split; [reflexivity|].
  split; [|split; [|split]].
  - destruct (token_round_trip (deps := Demo.deps) Demo.intent "email-confirm-v2"
                110 110 3600 eq_refl eq_refl eq_refl eq_refl) as (H & _ & _).
    apply H. lia.
  - destruct (token_round_trip (deps := Demo.deps) Demo.intent "email-confirm-v2"
                110 3710 3600 eq_refl eq_refl eq_refl eq_refl) as (H & _ & _).
    apply H. lia.
  - destruct (token_round_trip (deps := Demo.deps) Demo.intent "email-confirm-v2"
                110 3711 3600 eq_refl eq_refl eq_refl eq_refl) as (_ & H & _).
    apply H. lia.
  - destruct (token_round_trip (deps := Demo.deps) Demo.intent "email-confirm-v2"
                110 109 3600 eq_refl eq_refl eq_refl eq_refl) as (_ & _ & H).
    apply H. lia.
Defined.

(** C4, as first stated, fails: a token checked one second before the
    time it carries has an age of -1, which is at most [max_age], and yet
    does not verify to its payload. *)
Lemma token_round_trip_counterexample :
  109 - 110 <= 3600 /\
  loads (deps := Demo.deps)
        (dumps (deps := Demo.deps) Demo.intent "email-confirm-v2" 110)
        "email-confirm-v2" 3600 109
  <> inr Demo.intent.
Proof. split; [lia|]. vm_compute. discriminate. Qed.

Lemma poll_options_persist_witness :
  reachable (deps := Demo.deps) init_db /\
  snd (create_poll (deps := Demo.deps) init_db Demo.world_create
         (Some "Best language?") ["Go"; "Rust"]) = PollCreated Demo.poll_id /\
  poll_id_re Demo.poll_id = true /\
  kept_options (deps := Demo.deps) ["Go"; "Rust"] = ["Go"; "Rust"] /\
  map o_option_text (Sql.options_of Demo.created Demo.poll_id) = ["Go"; "Rust"] /\
  exists row opts total,
    results Demo.confirmed Demo.poll_id = (Demo.confirmed, ResultsPage row opts total) /\
    Permutation (map option_ident opts) [(1, "Go"); (2, "Rust")].
Proof.
  assert (Hr : reachable (deps := Demo.deps) init_db) by (exists []; reflexivity).
  split; [exact Hr|]. split; [reflexivity|]. split; [reflexivity|].
  split; [reflexivity|].
  destruct (poll_options_persist (deps := Demo.deps) init_db Demo.world_create
              (Some "Best language?") ["Go"; "Rust"] Demo.poll_id Hr
              eq_refl eq_refl) as (H1 & _ & _ & H3).
  split; [exact H1|].
  exact (H3 [(Demo.world 110 "" true, Demo.vote_request);
             (Demo.world 120 "" true, ConfirmVote Demo.token)]).
Defined.

(** C7, as first stated, fails: of the three distinct submitted options
    below, each between 2 and 200 characters long as submitted, only two
    are persisted, because the third is a single character once the white
    space around it is removed. *)
Lemma poll_options_persist_counterexample :
  let raw := ["Go"; "Rust"; " x "] in
  let answer := create_poll (deps := Demo.deps) init_db Demo.world_create
                            (Some "Best language?") raw in
  snd answer = PollCreated Demo.poll_id /\
  List.length (nodup string_dec (filter spec_length_valid raw)) = 3%nat /\
  List.length (Sql.options_of (fst answer) Demo.poll_id)
  <> List.length (nodup string_dec (filter spec_length_valid raw)).
Proof. vm_compute. repeat split. discriminate. Qed.

Lemma create_poll_boundaries_witness :
  snd (check_rate_limit init_db Demo.world_create "create_poll") = true /\
  Sql.poll_exists init_db (Py.take 12 (uuid4_hex Demo.world_create)) = false /\
  String.length (measured (deps := Demo.deps) 500 (Some "0123456789")) = 10%nat /\
  snd (create_poll (deps := Demo.deps) init_db Demo.world_create
         (Some "0123456789") ["Go"; "Rust"]) = PollCreated Demo.poll_id /\
  String.length (measured (deps := Demo.deps) 500 (Some " 12345678 ")) = 8%nat /\
  snd (create_poll (deps := Demo.deps) init_db Demo.world_create
         (Some "123456789") ["Go"; "Rust"]) = QuestionTooShort.
Proof.
  split; [reflexivity|]. split; [reflexivity|]. split; [reflexivity|].
  destruct (create_poll_boundaries (deps := Demo.deps) init_db Demo.world_create
              (Some "0123456789") ["Go"; "Rust"] eq_refl eq_refl)
    as (_ & H10 & _).
  split.
  { apply H10; [reflexivity|simpl; lia|].
    repeat constructor; simpl; intuition discriminate. }
  split; [reflexivity|].
  destruct (create_poll_boundaries (deps := Demo.deps) init_db Demo.world_create
              (Some "123456789") ["Go"; "Rust"] eq_refl eq_refl)
    as (H9 & _).
  apply H9. reflexivity.
Defined.

(** C8, as first stated, fails on the texts as submitted: a question of
    ten characters is rejected when two of them are white space around it;
    eleven submitted options are accepted when one of them is too short
    once stripped; and a submission with two options of the same text is
    accepted when that text is too short to count. *)
Lemma create_poll_boundaries_counterexample :
  let try q raw :=
    snd (create_poll (deps := Demo.deps) init_db Demo.world_create (Some q) raw) in
  (String.length " 12345678 " = 10%nat /\
   try " 12345678 " ["Go"; "Rust"] = QuestionTooShort) /\
  (List.length ["o1"; "o2"; "o3"; "o4"; "o5"; "o6"; "o7"; "o8"; "o9"; "o10"; " x "]
   = 11%nat /\
   try "Best language?"
       ["o1"; "o2"; "o3"; "o4"; "o5"; "o6"; "o7"; "o8"; "o9"; "o10"; " x "]
   = PollCreated Demo.poll_id) /\
  try "Best language?" ["Go"; "Rust"; "x"; "x"] = PollCreated Demo.poll_id.
Proof. vm_compute. repeat split. Qed.

Lemma failed_delivery_changes_nothing_witness :
  let w := Demo.world 110 "" false in
  mailgun_ok w = false /\
  snd (vote (deps := Demo.deps) Demo.created w Demo.poll_id (Some "a@b.com") (Some "1"))
  = MailNotSent /\
  same_poll_store Demo.created
    (fst (vote (deps := Demo.deps) Demo.created w Demo.poll_id (Some "a@b.com") (Some "1"))).
Proof.
  cbv zeta. split; [reflexivity|].
  destruct (failed_delivery_changes_nothing (deps := Demo.deps) Demo.created
              (Demo.world 110 "" false) Demo.poll_id (Some "a@b.com") (Some "1")
              eq_refl) as (H1 & _ & H3).
  split; [|exact H1].
  apply (H3 "a@b.com" Demo.token). vm_compute. reflexivity.
Defined.

Lemma confirm_ignores_poll_lifecycle_witness :
  let w := Demo.world (Demo.late + 60) "" true in
  loads (deps := Demo.deps) Demo.late_token "email-confirm-v2" 3600 (now w)
  = inr Demo.intent /\
  Sql.select_poll Demo.created Demo.poll_id = Some Demo.poll_row /\
  votable w Demo.poll_row = false /\
  snd (confirm_vote (deps := Demo.deps) Demo.created w Demo.late_token) = VoteRecorded /\
  counter (fst (confirm_vote (deps := Demo.deps) Demo.created w Demo.late_token)) 1
  = Some 1.
Proof.
  cbv zeta.
  assert (Hl : loads (deps := Demo.deps) Demo.late_token "email-confirm-v2" 3600
                 (now (Demo.world (Demo.late + 60) "" true)) = inr Demo.intent)
    by (vm_compute; reflexivity).
  split; [exact Hl|]. split; [reflexivity|]. split; [reflexivity|].
  destruct (confirm_ignores_poll_lifecycle (deps := Demo.deps) Demo.created
              (Demo.world (Demo.late + 60) "" true) Demo.late_token Demo.intent
              Demo.poll_row 1 Hl)
    as (H1 & _ & _ & _); try (vm_compute; reflexivity).
  split; [exact H1|]. vm_compute. reflexivity.
Defined.

(** ** The rate limiter *)

Lemma rate_key_pair (ip endpoint : string) (r : RateRow) :
  rate_key ip endpoint r = true <-> rate_pair r = (ip, endpoint).
Proof.
  unfold rate_key, rate_pair. rewrite andb_true_iff, !String.eqb_eq.
  split; [intros [-> ->]; reflexivity | intros H; inversion H; auto].
Qed.

Lemma find_rate_none (ip endpoint : string) (l : list RateRow) :
  find (rate_key ip endpoint) l = None <-> ~ In (ip, endpoint) (map rate_pair l).
Proof.
  induction l as [|r l IH]; simpl; [tauto|].
  destruct (rate_key ip endpoint r) eqn:Hk.
  - apply rate_key_pair in Hk. split; [discriminate|]. intros H. elim H. now left.
  - rewrite IH. split.
    + intros H [Heq|Hin]; [|now apply H].
      apply rate_key_pair in Heq. congruence.
    + intros H Hin. apply H. now right.
Qed.

Lemma find_rate_filter (ip endpoint : string) (f : RateRow -> bool) (l : list RateRow) :
  NoDup (map rate_pair l) ->
  find (rate_key ip endpoint) (filter f l)
  = match find (rate_key ip endpoint) l with
    | Some r => if f r then Some r else None
    | None => None
    end.
Proof.
  induction l as [|r l IH]; simpl; intros Hnd; [reflexivity|].
  inversion Hnd as [|? ? Hnotin Hnd']; subst.
  destruct (rate_key ip endpoint r) eqn:Hk.
  - destruct (f r); simpl; [now rewrite Hk|].
    apply find_rate_none. apply rate_key_pair in Hk. rewrite Hk in Hnotin.
    intros Hin. apply Hnotin. apply in_map_iff in Hin.
    destruct Hin as (x & Hx & Hin). apply filter_In in Hin.
    apply in_map_iff. exists x. tauto.
  - destruct (f r); simpl; [rewrite Hk|]; now apply IH.
Qed.

Lemma touch_pair (ip endpoint : string) (t : Z) (r : RateRow) :
  rate_pair (touch ip endpoint t r) = rate_pair r.
Proof. unfold touch. now destruct (rate_key ip endpoint r). Qed.

Lemma find_rate_touch (ip endpoint : string) (t : Z) (l : list RateRow) :
  find (rate_key ip endpoint) (map (touch ip endpoint t) l)
  = option_map (fun r => mkRate ip endpoint (r_attempt_count r + 1) t)
               (find (rate_key ip endpoint) l).
Proof.
  induction l as [|r l IH]; simpl; [reflexivity|].
  unfold touch at 1. destruct (rate_key ip endpoint r) eqn:Hk.
  - destruct r as [rip rep c la]. unfold rate_key in *. simpl in *.
    rewrite Hk. simpl. apply andb_prop in Hk. destruct Hk as [H1 H2].
    unfold touch, rate_key. simpl. rewrite H1, H2. simpl.
    apply String.eqb_eq in H1, H2. now subst.
  - rewrite Hk. exact IH.
Qed.

Lemma nodup_map_filter {A B} (g : A -> B) (f : A -> bool) (l : list A) :
  NoDup (map g l) -> NoDup (map g (filter f l)).
Proof.
  induction l as [|x l IH]; simpl; intros Hnd; [constructor|].
  inversion Hnd as [|? ? Hnotin Hnd']; subst.
  destruct (f x); simpl; [|now apply IH].
  constructor; [|now apply IH].
  intros Hin. apply Hnotin. apply in_map_iff in Hin.
  destruct Hin as (y & Hy & Hin). apply filter_In in Hin.
  apply in_map_iff. exists y. tauto.
Qed.

Lemma check_rate_limit_keeps_keys (d : Db) (w : World) (endpoint : string) :
  rate_keys_unique d -> rate_keys_unique (fst (check_rate_limit d w endpoint)).
Proof.
  unfold rate_keys_unique, check_rate_limit. intros Hu.
  set (kept := filter _ (rate_limits d)).
  assert (Hk : NoDup (map rate_pair kept)) by now apply nodup_map_filter.
  destruct (find _ kept) as [res|] eqn:Hf.
  - destruct (r_attempt_count res >=? 50); simpl; [assumption|].
    rewrite map_map.
    erewrite map_ext; [exact Hk|]. intros r. apply touch_pair.
  - simpl. rewrite map_app. simpl. apply nodup_snoc; [assumption|].
    now apply find_rate_none.
Qed.

Lemma find_app_none {A} (f : A -> bool) (l l' : list A) :
  find f l = None -> find f (l ++ l') = find f l'.
Proof.
  induction l as [|x l IH]; simpl; [reflexivity|].
  destruct (f x); [discriminate|exact IH].
Qed.

Lemma find_app_some {A} (f : A -> bool) (l l' : list A) (x : A) :
  find f l = Some x -> find f (l ++ l') = Some x.
Proof.
  induction l as [|y l IH]; simpl; [discriminate|].
  destruct (f y); [auto|exact IH].
Qed.

(** What one call of the limiter does, read on the row of the caller. *)
Lemma check_rate_limit_entry (d : Db) (w : World) (endpoint : string) :
  rate_keys_unique d ->
  let ip := get_client_ip w in
  let d' := fst (check_rate_limit d w endpoint) in
  let ok := snd (check_rate_limit d w endpoint) in
  let first := Some (mkRate ip endpoint 1 (now w)) in
  match rate_entry d ip endpoint with
  | None => ok = true /\ rate_entry d' ip endpoint = first
  | Some r =>
      if r_last_attempt r <? now w - 300
      then ok = true /\ rate_entry d' ip endpoint = first
      else if r_attempt_count r >=? 50
      then ok = false /\ d' = d
      else ok = true /\
           rate_entry d' ip endpoint
           = Some (mkRate ip endpoint (r_attempt_count r + 1) (now w))
  end.
Proof.
  intros Hu. cbv zeta. unfold check_rate_limit, rate_entry.
  rewrite (find_rate_filter _ _ _ _ Hu).
  set (ip := get_client_ip w).
  assert (Hsnoc : forall l, find (rate_key ip endpoint) l = None ->
            find (rate_key ip endpoint) (l ++ [mkRate ip endpoint 1 (now w)])
            = Some (mkRate ip endpoint 1 (now w))).
  { intros l Hl. rewrite (find_app_none _ _ _ Hl). simpl. unfold rate_key. simpl.
    now rewrite !String.eqb_refl. }
  destruct (find (rate_key ip endpoint) (rate_limits d)) as [r|] eqn:Hf.
  - destruct (r_last_attempt r <? now w - 300) eqn:Hstale; simpl.
    + split; [reflexivity|]. apply Hsnoc.
      rewrite (find_rate_filter _ _ _ _ Hu), Hf, Hstale. reflexivity.
    + destruct (r_attempt_count r >=? 50); simpl; [auto|].
      split; [reflexivity|].
      rewrite find_rate_touch, (find_rate_filter _ _ _ _ Hu), Hf, Hstale.
      reflexivity.
  - simpl. split; [reflexivity|]. apply Hsnoc.
    now rewrite (find_rate_filter _ _ _ _ Hu), Hf.
Qed.

Lemma attempts_from (ip endpoint : string) (t0 : Z) (ws : list World) :
  Forall (fun w => get_client_ip w = ip /\ t0 <= now w <= t0 + 300) ws ->
  forall d r k,
    rate_keys_unique d ->
    rate_entry d ip endpoint = Some r ->
    r_attempt_count r = Z.of_nat (Nat.min k 50) ->
    t0 <= r_last_attempt r <= t0 + 300 ->
    snd (attempts d ws endpoint)
    = map (fun i => Nat.ltb i 50) (seq k (List.length ws)).
Proof.
  induction 1 as [|w rest [Hip Hw] _ IH]; intros d r k Hu He Hc Hl;
    [reflexivity|].
  simpl.
  pose proof (check_rate_limit_entry d w endpoint Hu) as Hstep.
  pose proof (check_rate_limit_keeps_keys d w endpoint Hu) as Hu'.
  cbv zeta in Hstep. rewrite Hip, He in Hstep.
  destruct (check_rate_limit d w endpoint) as [d1 ok]. simpl in Hstep, Hu'.
  replace (r_last_attempt r <? now w - 300) with false in Hstep
    by (symmetry; apply Z.ltb_ge; lia).
  destruct (Nat.ltb k 50) eqn:Hk.
  - apply Nat.ltb_lt in Hk.
    replace (r_attempt_count r >=? 50) with false in Hstep
      by (symmetry; rewrite Z.geb_leb; apply Z.leb_gt; lia).
    destruct Hstep as [-> He1].
    specialize (IH d1 _ (S k) Hu' He1).
    destruct (attempts d1 rest endpoint) as [d2 oks]. simpl in *.
    f_equal. apply IH; [lia|lia].
  - apply Nat.ltb_ge in Hk.
    replace (r_attempt_count r >=? 50) with true in Hstep
      by (symmetry; rewrite Z.geb_leb; apply Z.leb_le; lia).
    destruct Hstep as [-> ->].
    specialize (IH d r (S k) Hu He).
    destruct (attempts d rest endpoint) as [d2 oks]. simpl in *.
    f_equal. apply IH; [lia|lia].
Qed.

(** X1 — Fifty attempts and no more: for a caller without a row in
    [rate_limits], any number of calls that all fall into one span of 300
    seconds are answered yes for the first fifty and no from the
    fifty-first on. *)
Theorem rate_limit_burst (d : Db) (ip endpoint : string) (t0 : Z)
    (ws : list World) :
  rate_keys_unique d ->
  rate_entry d ip endpoint = None ->
  Forall (fun w => get_client_ip w = ip /\ t0 <= now w <= t0 + 300) ws ->
  snd (attempts d ws endpoint)
  = map (fun i => Nat.ltb i 50) (seq 0 (List.length ws)).
Proof.
  intros Hu He Hws. destruct Hws as [|w rest [Hip Hw] Hrest]; [reflexivity|].
  simpl.
  pose proof (check_rate_limit_entry d w endpoint Hu) as Hstep.
  pose proof (check_rate_limit_keeps_keys d w endpoint Hu) as Hu'.
  cbv zeta in Hstep. rewrite Hip, He in Hstep.
  destruct (check_rate_limit d w endpoint) as [d1 ok]. simpl in Hstep, Hu'.
  destruct Hstep as [-> He1].
  pose proof (attempts_from ip endpoint t0 rest Hrest d1 _ 1%nat Hu' He1) as H.
  destruct (attempts d1 rest endpoint) as [d2 oks]. simpl in *.
  f_equal. apply H; [reflexivity|lia].
Qed.

(** X2 — A caller at the limit is refused, and the refusal writes
    nothing, for as long as the call comes within 300 seconds of the last
    counted attempt; refused calls do not prolong this.  The first call
    after that is let through and the count starts again at one. *)
Theorem rate_limit_lockout (d : Db) (w : World) (endpoint : string) (r : RateRow) :
  rate_keys_unique d ->
  rate_entry d (get_client_ip w) endpoint = Some r ->
  50 <= r_attempt_count r ->
  (now w <= r_last_attempt r + 300 -> check_rate_limit d w endpoint = (d, false)) /\
  (r_last_attempt r + 300 < now w ->
     snd (check_rate_limit d w endpoint) = true /\
     rate_entry (fst (check_rate_limit d w endpoint)) (get_client_ip w) endpoint
     = Some (mkRate (get_client_ip w) endpoint 1 (now w))).
Proof.
  intros Hu He Hc.
  pose proof (check_rate_limit_entry d w endpoint Hu) as Hstep.
  cbv zeta in Hstep. rewrite He in Hstep.
  split; intros Ht.
  - replace (r_last_attempt r <? now w - 300) with false in Hstep
      by (symmetry; apply Z.ltb_ge; lia).
    replace (r_attempt_count r >=? 50) with true in Hstep
      by (symmetry; rewrite Z.geb_leb; apply Z.leb_le; lia).
    destruct (check_rate_limit d w endpoint) as [d1 ok]. simpl in Hstep.
    destruct Hstep as [-> ->]. reflexivity.
  - replace (r_last_attempt r <? now w - 300) with true in Hstep
      by (symmetry; apply Z.ltb_lt; lia).
    exact Hstep.
Qed.

Section Further.

Context {deps : Deps}.

Lemma handle_rate_limits (d : Db) (w : World) (rq : Request) :
  rate_limits (fst (handle d w rq)) = rate_limits d \/
  exists endpoint,
    rate_limits (fst (handle d w rq))
    = rate_limits (fst (check_rate_limit d w endpoint)).
Proof.
  destruct rq as [q raw|poll_id|poll_id e o|token|poll_id]; simpl.
  - destruct (create_poll d w q raw) as [d' r] eqn:H. simpl.
    apply create_poll_cases in H. destruct H as [(-> & _)|[_ H]]; [now left|].
    right. exists "create_poll".
    apply create_poll_view_spec in H.
    destruct H as [[-> _]|H]; [reflexivity|].
    cbv zeta in H. tauto.
  - left. unfold poll.
    repeat match goal with
           | |- context [if ?b then _ else _] => destruct b
           | |- context [match ?x with _ => _ end] => destruct x
           end; reflexivity.
  - unfold vote.
    destruct (rate_limit_cases "vote" (vote_view w poll_id e o) d w)
      as [[-> _]|[-> _]]; [now left|].
    right. exists "vote". now rewrite vote_view_frame.
  - left. destruct (confirm_vote d w token) as [d' r] eqn:H. simpl.
    apply confirm_vote_spec in H.
    destruct H as [[-> _]|(data & _ & H & _)]; [reflexivity|].
    apply commit_vote_spec in H.
    destruct H as [[-> _]|(_ & n & H)]; [reflexivity|tauto].
  - left. unfold results.
    repeat match goal with
           | |- context [if ?b then _ else _] => destruct b
           | |- context [match ?x with _ => _ end] => destruct x
           end; reflexivity.
Qed.

Lemma handle_rate_keys_unique (d : Db) (w : World) (rq : Request) :
  rate_keys_unique d -> rate_keys_unique (fst (handle d w rq)).
Proof.
  intros Hx. unfold rate_keys_unique in *.
  destruct (handle_rate_limits d w rq) as [->|[endpoint ->]]; [assumption|].
  now apply check_rate_limit_keeps_keys.
Qed.

(** X3 — PRIMARY KEY (ip_address, endpoint): in every reachable state no
    two rows of [rate_limits] have the same address and endpoint, so the
    INSERT of the limiter never meets an existing key. *)
Theorem reachable_rate_keys_unique (d : Db) :
  reachable d -> rate_keys_unique d.
Proof.
  apply reachable_invariant.
  - constructor.
  - apply handle_rate_keys_unique.
Qed.

End Further.

(** ** Row identifiers *)

Lemma max_rowid_ge (ids : list Z) : 0 <= max_rowid ids.
Proof. unfold max_rowid. induction ids; simpl; lia. Qed.

Lemma max_rowid_bound (ids : list Z) (x : Z) : In x ids -> x <= max_rowid ids.
Proof.
  unfold max_rowid. induction ids as [|y ids IH]; simpl; [tauto|].
  intros [->|Hin]; [lia|]. specialize (IH Hin). lia.
Qed.

Lemma max_rowid_snoc (ids : list Z) (x : Z) :
  max_rowid (ids ++ [x]) = Z.max (max_rowid ids) x.
Proof. unfold max_rowid. induction ids as [|y ids IH]; simpl; lia. Qed.

Lemma next_rowid_fresh (ids : list Z) : ~ In (Sql.next_rowid ids) ids.
Proof.
  intros Hin. apply max_rowid_bound in Hin.
  unfold Sql.next_rowid, max_rowid in *. lia.
Qed.

(** The rows the INSERT loop appends carry the texts in order, belong to
    the poll, start at zero votes, and get increasing identifiers above
    every identifier in use. *)
Lemma insert_options_rows (poll_id : string) (opts : list string) :
  forall d d2, insert_options d poll_id opts = inr d2 ->
    exists news,
      options d2 = (options d ++ news)%list /\
      map o_option_text news = opts /\
      Forall (fun o => o_poll_id o = poll_id /\ o_votes o = 0 /\
                       max_rowid (map o_id (options d)) < o_id o) news /\
      StronglySorted Z.lt (map o_id news).
Proof.
  induction opts as [|opt rest IH]; simpl; intros d d2 H.
  - inversion H; subst. exists []. rewrite app_nil_r.
    repeat split; constructor.
  - unfold Sql.insert_option in H.
    destruct (Sql.poll_exists d poll_id); [|discriminate].
    apply IH in H. cbn [options set_options] in H.
    destruct H as (news & Ho & Ht & Hall & Hs).
    pose proof (max_rowid_ge (map o_id (options d))) as Hge.
    unfold Sql.next_rowid in *. fold (max_rowid (map o_id (options d))) in *.
    match type of Hall with
    | Forall (fun o => _ /\ _ /\ max_rowid ?l < _) _ =>
        assert (Hmax : max_rowid l = 1 + max_rowid (map o_id (options d)))
          by (rewrite map_app; cbn [map]; rewrite max_rowid_snoc; cbn [o_id]; lia);
        set (m := max_rowid l) in *
    end.
    eexists (_ :: news). rewrite Ho, <- app_assoc.
    cbn [app map o_option_text o_id o_poll_id o_votes].
    split; [reflexivity|]. split; [now rewrite Ht|]. split.
    + constructor; [cbn [o_id o_poll_id o_votes]; repeat split; lia|].
      eapply Forall_impl; [|exact Hall]. cbv beta. intros o (H1 & H2 & H3).
      repeat split; auto; lia.
    + constructor; [assumption|].
      apply Forall_map. eapply Forall_impl; [|exact Hall]. cbv beta.
      intros o (_ & _ & H3). cbn [o_id]. lia.
Qed.

Lemma strongly_sorted_lt_nodup (l : list Z) : StronglySorted Z.lt l -> NoDup l.
Proof.
  induction 1 as [|x l Hs IH Hall]; constructor; [|assumption].
  intros Hin. rewrite Forall_forall in Hall. specialize (Hall _ Hin). lia.
Qed.

Lemma nodup_app_fresh (old new : list Z) :
  NoDup old -> NoDup new -> Forall (fun x => max_rowid old < x) new ->
  NoDup (old ++ new).
Proof.
  intros Ho Hn Hall. induction old as [|y old IH]; simpl; [assumption|].
  inversion Ho as [|? ? Hnotin Ho']; subst.
  constructor.
  - rewrite in_app_iff. intros [Hin|Hin]; [contradiction|].
    rewrite Forall_forall in Hall. specialize (Hall _ Hin).
    pose proof (max_rowid_bound (y :: old) y (or_introl eq_refl)). lia.
  - apply IH; [assumption|].
    eapply Forall_impl; [|exact Hall]. intros x Hx. simpl in Hx.
    unfold max_rowid in *. simpl in Hx. lia.
Qed.

(** ** The effect of a request on the poll store *)

Section Effects.

Context {deps : Deps}.

Lemma collect_options_valid (raw : list string) :
  Forall (fun t => (2 <= String.length t)%nat) (collect_options raw).
Proof.
  unfold collect_options. apply Forall_forall. intros t Hin.
  apply filter_In in Hin. destruct Hin as [_ H].
  apply andb_prop in H. destruct H as [_ H]. now apply Nat.leb_le.
Qed.

Lemma create_poll_view_rows (w : World) (q : option string) (raw : list string)
    (d d' : Db) (poll_id : string) :
  create_poll_view w q raw d = (d', PollCreated poll_id) ->
  exists news,
    poll_id = Py.take 12 (uuid4_hex w) /\
    Sql.poll_exists d poll_id = false /\
    (10 <= String.length (sanitize_input q 500))%nat /\
    polls d' = (polls d ++ [mkPoll poll_id (sanitize_input q 500) (current_timestamp w) true 1000
                                   (Some (now w + 30 * 86400))])%list /\
    options d' = (options d ++ news)%list /\
    votes d' = votes d /\
    map o_option_text news = collect_options raw /\
    (2 <= List.length (collect_options raw) <= 10)%nat /\
    NoDup (collect_options raw) /\
    Forall (fun o => o_poll_id o = poll_id /\ o_votes o = 0 /\
                     max_rowid (map o_id (options d)) < o_id o) news /\
    StronglySorted Z.lt (map o_id news).
Proof.
  unfold create_poll_view.
  destruct (negb _ || _)%bool eqn:Hq; [discriminate|].
  destruct (Nat.ltb (List.length (collect_options raw)) 2) eqn:H2; [discriminate|].
  destruct (Nat.ltb 10 (List.length (collect_options raw))) eqn:H10; [discriminate|].
  destruct (negb (Nat.eqb _ _)) eqn:Hd; [discriminate|].
  unfold Sql.insert_poll.
  destruct (Sql.poll_exists d _) eqn:Hp; [discriminate|].
  destruct (insert_options _ _ _) as [e|d2] eqn:Hins; [discriminate|].
  intros H. assert (d2 = d') by congruence.
  assert (Hid : poll_id = Py.take 12 (uuid4_hex w)) by congruence.
  subst d2. rewrite <- Hid in *. clear H.
  pose proof (insert_options_spec _ _ _ _ Hins) as (Hpolls & Hvotes & _).
  apply insert_options_rows in Hins. cbn [options polls votes set_polls] in *.
  destruct Hins as (news & Hopts & Htexts & Hall & Hs).
  apply orb_false_iff in Hq. destruct Hq as [_ Hq].
  apply Nat.ltb_ge in Hq, H2, H10. apply negb_false_iff in Hd.
  exists news. repeat split; auto; try lia.
  now apply nodup_length_NoDup.
Qed.

(** One request does one of three things to [polls], [options] and
    [votes]: nothing; one new Vote with the counter of its option raised;
    or one new poll with its options. *)
Lemma handle_effect (d : Db) (w : World) (rq : Request) :
  let d' := fst (handle d w rq) in
  same_poll_store d d' \/
  (exists v,
     polls d' = polls d /\
     options d' = map (Sql.bump (v_option_id v)) (options d) /\
     votes d' = (votes d ++ [v])%list /\
     v_id v = Sql.next_rowid (map v_id (votes d)) /\
     Sql.poll_exists d (v_poll_id v) = true /\
     Sql.option_exists d (v_option_id v) = true) \/
  (exists row news,
     Sql.poll_exists d (p_id row) = false /\
     polls d' = (polls d ++ [row])%list /\
     options d' = (options d ++ news)%list /\
     votes d' = votes d /\
     (10 <= String.length (p_question row))%nat /\
     p_is_active row = true /\ p_max_votes row = 1000 /\
     p_expire_date row <> None /\
     (2 <= List.length news <= 10)%nat /\
     NoDup (map o_option_text news) /\
     Forall (fun t => (2 <= String.length t)%nat) (map o_option_text news) /\
     Forall (fun o => o_poll_id o = p_id row /\ o_votes o = 0 /\
                      max_rowid (map o_id (options d)) < o_id o) news /\
     StronglySorted Z.lt (map o_id news)).
Proof.
  cbv zeta. destruct rq as [q raw|poll_id|poll_id e o|token|poll_id]; simpl.
  - destruct (create_poll d w q raw) as [d' r] eqn:H. simpl.
    apply create_poll_cases in H.
    destruct H as [(-> & _)|[_ H]]; [left; apply same_poll_store_refl|].
    pose proof (check_rate_limit_frame d w "create_poll") as Hframe.
    destruct (create_poll_view_spec _ _ _ _ _ _ H) as [[-> _]|Hok];
      [now left|].
    cbv zeta in Hok. destruct Hok as (-> & _).
    apply create_poll_view_rows in H.
    destruct H as (news & _ & Hfresh & Hq & Hp & Ho & Hv & Ht & Hn & Hnd & Hall & Hs).
    destruct Hframe as (Fp & Fo & Fv).
    right. right. eexists. exists news.
    rewrite Hp, Ho, Hv, Fp, Fo, Fv. cbn [p_id p_question p_is_active p_max_votes
                                         p_expire_date p_created_at].
    rewrite Ht. rewrite <- (length_map o_option_text news), Ht.
    rewrite Fo in Hall. rewrite (poll_exists_ext _ _ _ Fp) in Hfresh.
    repeat split; auto; try lia; try discriminate. apply collect_options_valid.
  - left. unfold poll.
    repeat match goal with
           | |- context [if ?b then _ else _] => destruct b
           | |- context [match ?x with _ => _ end] => destruct x
           end; apply same_poll_store_refl.
  - left. apply vote_frame.
  - destruct (confirm_vote d w token) as [d' r] eqn:H. simpl.
    apply confirm_vote_spec in H.
    destruct H as [[-> _]|(data & _ & H & _)]; [left; apply same_poll_store_refl|].
    apply commit_vote_spec in H.
    destruct H as [[-> _]|(_ & n & _ & _ & Hp & Hopt & Hv & Ho & Hpolls & _)];
      [left; apply same_poll_store_refl|].
    right. left.
    exists (mkVote (Sql.next_rowid (map v_id (votes d))) (i_poll_id data)
                   (i_email data) n true (remote_addr w) (current_timestamp w)).
    rewrite Hv, Ho, Hpolls. cbn [v_id v_poll_id v_option_id]. auto 10.
  - left. unfold results.
    repeat match goal with
           | |- context [if ?b then _ else _] => destruct b
           | |- context [match ?x with _ => _ end] => destruct x
           end; apply same_poll_store_refl.
Qed.

End Effects.

(** ** Consistency of the reachable states *)

Lemma bump_id (n : Z) (o : OptionRow) : o_id (Sql.bump n o) = o_id o.
Proof. unfold Sql.bump. now destruct (o_id o =? n). Qed.

Lemma bump_text (n : Z) (o : OptionRow) :
  o_option_text (Sql.bump n o) = o_option_text o.
Proof. unfold Sql.bump. now destruct (o_id o =? n). Qed.

Lemma bump_votes (n : Z) (o : OptionRow) :
  o_votes (Sql.bump n o) = if o_id o =? n then o_votes o + 1 else o_votes o.
Proof. unfold Sql.bump. now destruct (o_id o =? n). Qed.

Lemma existsb_id_bump (n x : Z) (l : list OptionRow) :
  existsb (fun o => o_id o =? x) (map (Sql.bump n) l)
  = existsb (fun o => o_id o =? x) l.
Proof.
  induction l as [|o l IH]; simpl; [reflexivity|]. now rewrite bump_id, IH.
Qed.

Lemma poll_exists_false_notin (d : Db) (poll_id : string) :
  Sql.poll_exists d poll_id = false -> ~ In poll_id (map p_id (polls d)).
Proof.
  unfold Sql.poll_exists. intros H Hin. apply in_map_iff in Hin.
  destruct Hin as (p & Hp & Hin).
  assert (existsb (fun p => String.eqb (p_id p) poll_id) (polls d) = true).
  { apply existsb_exists. exists p. split; [assumption|]. now apply String.eqb_eq. }
  congruence.
Qed.

Lemma option_exists_bound (d : Db) (n : Z) :
  Sql.option_exists d n = true -> n <= max_rowid (map o_id (options d)).
Proof.
  unfold Sql.option_exists. intros H. apply existsb_exists in H.
  destruct H as (o & Hin & Ho). apply Z.eqb_eq in Ho. subst n.
  apply max_rowid_bound. now apply in_map.
Qed.

Lemma consistent_same (d d' : Db) :
  same_poll_store d d' -> consistent d -> consistent d'.
Proof.
  intros (Hp & Ho & Hv).
  unfold consistent, poll_ids_unique, option_ids_unique, vote_ids_unique,
    options_fk, votes_fk, counters_match_votes, poll_well_formed,
    Sql.poll_exists, Sql.option_exists, votes_of_option, Sql.options_of.
  rewrite Hp, Ho, Hv. tauto.
Qed.

Lemma consistent_vote (d d' : Db) (v : VoteRow) :
  polls d' = polls d ->
  options d' = map (Sql.bump (v_option_id v)) (options d) ->
  votes d' = (votes d ++ [v])%list ->
  v_id v = Sql.next_rowid (map v_id (votes d)) ->
  Sql.poll_exists d (v_poll_id v) = true ->
  Sql.option_exists d (v_option_id v) = true ->
  consistent d -> consistent d'.
Proof.
  intros Hp Ho Hv Hid Hpe Hoe (H1 & H2 & H3 & H4 & H5 & H6 & H7).
  unfold consistent, poll_ids_unique, option_ids_unique, vote_ids_unique,
    options_fk, votes_fk, counters_match_votes, poll_well_formed,
    Sql.poll_exists, Sql.option_exists, votes_of_option, Sql.options_of in *.
  rewrite Hp, Ho, Hv. repeat split.
  - assumption.
  - rewrite map_map. erewrite map_ext; [exact H2|]. intros o. apply bump_id.
  - rewrite map_app. simpl. apply nodup_snoc; [assumption|].
    rewrite Hid. apply next_rowid_fresh.
  - apply Forall_map. eapply Forall_impl; [|exact H4]. cbv beta.
    intros o H. now rewrite bump_poll_id.
  - apply Forall_app. split.
    + eapply Forall_impl; [|exact H5]. cbv beta. intros x [Ha Hb].
      split; [assumption|]. now rewrite existsb_id_bump.
    + constructor; [|constructor]. split; [assumption|].
      now rewrite existsb_id_bump.
  - apply Forall_map. eapply Forall_impl; [|exact H6]. cbv beta.
    intros o Hc. rewrite bump_id, bump_votes, filter_app, length_app. simpl.
    rewrite (Z.eqb_sym (v_option_id v) (o_id o)).
    destruct (o_id o =? v_option_id v); simpl; lia.
  - eapply Forall_impl; [|exact H7]. cbv beta.
    intros p (Ha & Hb & Hc & Hd & He).
    repeat split; auto;
      rewrite filter_poll_bump, map_map in *;
      (erewrite map_ext; [apply He|]); intros o; apply bump_text.
Qed.

Lemma consistent_poll (d d' : Db) (row : PollRow) (news : list OptionRow) :
  Sql.poll_exists d (p_id row) = false ->
  polls d' = (polls d ++ [row])%list ->
  options d' = (options d ++ news)%list ->
  votes d' = votes d ->
  (10 <= String.length (p_question row))%nat ->
  p_is_active row = true -> p_max_votes row = 1000 ->
  p_expire_date row <> None ->
  (2 <= List.length news <= 10)%nat ->
  NoDup (map o_option_text news) ->
  Forall (fun t => (2 <= String.length t)%nat) (map o_option_text news) ->
  Forall (fun o => o_poll_id o = p_id row /\ o_votes o = 0 /\
                   max_rowid (map o_id (options d)) < o_id o) news ->
  StronglySorted Z.lt (map o_id news) ->
  consistent d -> consistent d'.
Proof.
  intros Hfresh Hp Ho Hv Hq Hact Hmax Hexp Hlen Hnd Hvalid Hall Hsorted
         (H1 & H2 & H3 & H4 & H5 & H6 & H7).
  assert (Hnew : Sql.options_of d' (p_id row) = news).
  { unfold Sql.options_of. rewrite Ho, filter_app.
    fold (Sql.options_of d (p_id row)).
    rewrite (options_of_orphans d _ H4 Hfresh). simpl.
    apply filter_all. eapply Forall_impl; [|exact Hall]. cbv beta.
    intros o (Ha & _). rewrite Ha. apply String.eqb_refl. }
  assert (Hold : forall p, In p (polls d) ->
            Sql.options_of d' (p_id p) = Sql.options_of d (p_id p)).
  { intros p Hin. unfold Sql.options_of. rewrite Ho, filter_app.
    rewrite (filter_none _ news); [apply app_nil_r|].
    eapply Forall_impl; [|exact Hall]. cbv beta. intros o (Ha & _).
    apply String.eqb_neq. rewrite Ha. intros Heq.
    apply (poll_exists_false_notin d _ Hfresh). rewrite Heq. now apply in_map. }
  unfold consistent, poll_ids_unique, option_ids_unique, vote_ids_unique,
    options_fk, votes_fk, counters_match_votes in *.
  repeat split.
  - rewrite Hp, map_app. simpl. apply nodup_snoc; [assumption|].
    now apply poll_exists_false_notin.
  - rewrite Ho, map_app. apply nodup_app_fresh; [assumption| |].
    + now apply strongly_sorted_lt_nodup.
    + apply Forall_map. eapply Forall_impl; [|exact Hall]. cbv beta. tauto.
  - now rewrite Hv.
  - rewrite Ho. apply Forall_app. split.
    + eapply Forall_impl; [|exact H4]. cbv beta. intros o H.
      rewrite (poll_exists_grow d d' row _ Hp), H. reflexivity.
    + eapply Forall_impl; [|exact Hall]. cbv beta. intros o (Ha & _).
      rewrite (poll_exists_grow d d' row _ Hp), Ha, String.eqb_refl.
      apply orb_true_r.
  - rewrite Hv. eapply Forall_impl; [|exact H5]. cbv beta. intros v [Ha Hb].
    split.
    + rewrite (poll_exists_grow d d' row _ Hp), Ha. reflexivity.
    + unfold Sql.option_exists in *. rewrite Ho, existsb_app, Hb. reflexivity.
  - rewrite Ho. apply Forall_app. split.
    + eapply Forall_impl; [|exact H6]. cbv beta. intros o Hc.
      unfold votes_of_option in *. now rewrite Hv.
    + eapply Forall_impl; [|exact Hall]. cbv beta. intros o (_ & Hz & Hgt).
      unfold votes_of_option. rewrite Hv, filter_none; [assumption|].
      eapply Forall_impl; [|exact H5]. cbv beta. intros v [_ Hb].
      apply option_exists_bound in Hb. apply Z.eqb_neq. lia.
  - rewrite Hp. apply Forall_app. split.
    + apply Forall_forall. intros p Hin.
      rewrite Forall_forall in H7. specialize (H7 p Hin).
      unfold poll_well_formed in *. now rewrite (Hold p Hin).
    + constructor; [|constructor]. unfold poll_well_formed.
      rewrite Hnew, length_map. auto 10.
Qed.

Section Consistency.

Context {deps : Deps}.

Lemma handle_consistent (d : Db) (w : World) (rq : Request) :
  consistent d -> consistent (fst (handle d w rq)).
Proof.
  intros Hc.
  destruct (handle_effect d w rq)
    as [Hsame|[(v & Hp & Ho & Hv & Hid & Hpe & Hoe)
              |(row & news & Hf & Hp & Ho & Hv & Hq & Ha & Hm & He & Hl & Hnd
                & Hval & Hall & Hs)]].
  - now apply (consistent_same d).
  - now apply (consistent_vote d _ v).
  - now apply (consistent_poll d _ row news).
Qed.

Lemma reachable_consistent (d : Db) : reachable d -> consistent d.
Proof.
  apply reachable_invariant.
  - repeat split; constructor.
  - apply handle_consistent.
Qed.

(** X4 — The primary keys hold in every reachable state: no two polls,
    no two options and no two votes share an identifier. *)
Theorem reachable_primary_keys (d : Db) :
  reachable d -> poll_ids_unique d /\ option_ids_unique d /\ vote_ids_unique d.
Proof. intros H. apply reachable_consistent in H. unfold consistent in H. tauto. Qed.

(** X5 — Referential integrity holds in every reachable state: every
    option row names an existing poll, and every Vote row names an existing
    poll and an existing option. *)
Theorem reachable_foreign_keys (d : Db) : reachable d -> options_fk d /\ votes_fk d.
Proof. intros H. apply reachable_consistent in H. unfold consistent in H. tauto. Qed.

(** X6 — In every reachable state the counter of each option equals the
    number of Vote rows that name the option. *)
Theorem reachable_counters_match_votes (d : Db) :
  reachable d -> counters_match_votes d.
Proof. intros H. apply reachable_consistent in H. unfold consistent in H. tauto. Qed.

(** X7 — Every poll of a reachable state is as [create_poll] made it:
    a question of at least 10 characters, active, with the default cap of
    1000 and an expiry date set, and with between 2 and 10 options whose
    texts are pairwise distinct and at least 2 characters long. *)
Theorem reachable_polls_well_formed (d : Db) :
  reachable d -> Forall (poll_well_formed d) (polls d).
Proof. intros H. apply reachable_consistent in H. unfold consistent in H. tauto. Qed.

End Consistency.

(** ** ORDER BY *)

Lemma insert_by_sorted {A} (R : A -> A -> Prop) (leb : A -> A -> bool) :
  (forall a b, leb a b = true -> R a b) ->
  (forall a b, leb a b = false -> R b a) ->
  forall x l, Sorted R l -> Sorted R (Sql.insert_by leb x l).
Proof.
  intros Ht Hf x l. induction l as [|y l IH]; simpl; intros Hs.
  - repeat constructor.
  - destruct (leb x y) eqn:Hxy.
    + constructor; [assumption|]. constructor. now apply Ht.
    + inversion Hs as [|? ? Hs' Hhd]; subst.
      constructor; [now apply IH|].
      destruct l as [|z l]; simpl.
      * constructor. now apply Hf.
      * destruct (leb x z); constructor; [now apply Hf|].
        now inversion Hhd.
Qed.

Lemma order_by_sorted {A} (R : A -> A -> Prop) (leb : A -> A -> bool) :
  (forall a b, leb a b = true -> R a b) ->
  (forall a b, leb a b = false -> R b a) ->
  forall l, Sorted R (Sql.order_by leb l).
Proof.
  intros Ht Hf l. induction l as [|x l IH]; simpl; [constructor|].
  now apply insert_by_sorted.
Qed.

Lemma by_votes_desc_id_true (a b : OptionRow) :
  Sql.by_votes_desc_id a b = true -> tally_le a b.
Proof.
  unfold Sql.by_votes_desc_id, tally_le. intros H.
  apply orb_prop in H. destruct H as [H|H].
  - left. now apply Z.ltb_lt.
  - right. apply andb_prop in H. destruct H as [H1 H2].
    apply Z.eqb_eq in H1. apply Z.leb_le in H2. auto.
Qed.

Lemma by_votes_desc_id_false (a b : OptionRow) :
  Sql.by_votes_desc_id a b = false -> tally_le b a.
Proof.
  unfold Sql.by_votes_desc_id, tally_le. intros H.
  apply orb_false_iff in H. destruct H as [H1 H2].
  apply Z.ltb_ge in H1. apply andb_false_iff in H2.
  destruct H2 as [H2|H2]; [apply Z.eqb_neq in H2|apply Z.leb_gt in H2]; lia.
Qed.

Lemma tally_le_trans (a b c : OptionRow) : tally_le a b -> tally_le b c -> tally_le a c.
Proof. unfold tally_le. lia. Qed.

Lemma total_votes_perm (l l' : list OptionRow) :
  Permutation l l' -> total_votes l = total_votes l'.
Proof.
  unfold total_votes. induction 1; simpl; lia.
Qed.

(** X8 — The results page of a poll lists the option rows of that poll,
    each once, ordered by falling votes and, among equal votes, by rising
    identifier; its total is the sum of their counters. *)
Theorem results_page_sorted (d d' : Db) (poll_id : string) (row : PollRow)
    (opts : list OptionRow) (total : Z) :
  results d poll_id = (d', ResultsPage row opts total) ->
  StronglySorted tally_le opts /\
  Permutation opts (Sql.options_of d poll_id) /\
  total = total_votes (Sql.options_of d poll_id) /\
  Sql.select_poll d poll_id = Some row /\ d' = d.
Proof.
  unfold results.
  destruct (negb (poll_id_re poll_id)); [discriminate|].
  destruct (Sql.select_poll d poll_id) as [r|]; [|discriminate].
  intros H. inversion H; subst. unfold Sql.select_tally.
  split.
  - apply Sorted_StronglySorted; [exact tally_le_trans|].
    apply order_by_sorted;
      [exact by_votes_desc_id_true|exact by_votes_desc_id_false].
  - split; [apply order_by_perm|]. split; [|auto].
    apply total_votes_perm, order_by_perm.
Qed.

(** ** The paths that write *)

Section Writes.

Context {deps : Deps}.

(** X9 — Only a created poll and a recorded vote write to the poll
    store: after any request answered otherwise, [polls], [options] and
    [votes] are exactly as before. *)
Theorem other_answers_write_nothing (d : Db) (w : World) (rq : Request) :
  (forall id, snd (handle d w rq) <> PollCreated id) ->
  snd (handle d w rq) <> VoteRecorded ->
  same_poll_store d (fst (handle d w rq)).
Proof.
  destruct rq as [q raw|poll_id|poll_id e o|token|poll_id]; simpl;
    intros Hnc Hnv.
  - destruct (create_poll d w q raw) as [d' r] eqn:H. simpl in *.
    apply create_poll_cases in H.
    destruct H as [(-> & _)|[_ H]]; [apply same_poll_store_refl|].
    apply create_poll_view_spec in H.
    destruct H as [[-> _]|H]; [apply check_rate_limit_frame|].
    cbv zeta in H. destruct H as (Hr & _). now elim (Hnc _ Hr).
  - unfold poll.
    repeat match goal with
           | |- context [if ?b then _ else _] => destruct b
           | |- context [match ?x with _ => _ end] => destruct x
           end; apply same_poll_store_refl.
  - apply vote_frame.
  - destruct (confirm_vote d w token) as [d' r] eqn:H. simpl in *.
    apply confirm_vote_spec in H.
    destruct H as [[-> _]|(data & _ & _ & Hr)];
      [apply same_poll_store_refl|contradiction].
  - unfold results.
    repeat match goal with
           | |- context [if ?b then _ else _] => destruct b
           | |- context [match ?x with _ => _ end] => destruct x
           end; apply same_poll_store_refl.
Qed.

(** X10 — When the twelve characters taken from the UUID are already the
    identifier of a poll, an otherwise valid creation fails on the primary
    key: the answer is "failed to create the poll" and the poll store is
    as before. *)
Theorem create_poll_id_collision (d : Db) (w : World) (q : option string)
    (raw : list string) :
  snd (check_rate_limit d w "create_poll") = true ->
  Sql.poll_exists d (Py.take 12 (uuid4_hex w)) = true ->
  (10 <= String.length (sanitize_input q 500))%nat ->
  (2 <= List.length (collect_options raw) <= 10)%nat ->
  NoDup (collect_options raw) ->
  snd (create_poll d w q raw) = PollCreateFailed /\
  same_poll_store d (fst (create_poll d w q raw)).
Proof.
  intros Hrate Hex Hq [Hlo Hhi] Hnd. unfold create_poll.
  destruct (rate_limit_cases "create_poll" (create_poll_view w q raw) d w)
    as [[_ Hs]|[-> _]]; [congruence|].
  pose proof (check_rate_limit_frame d w "create_poll") as Hframe.
  set (d1 := fst (check_rate_limit d w "create_poll")) in *.
  assert (Hex1 : Sql.poll_exists d1 (Py.take 12 (uuid4_hex w)) = true).
  { rewrite <- Hex. apply poll_exists_ext. apply Hframe. }
  unfold create_poll_view.
  rewrite nonempty_length by lia.
  replace (Nat.ltb (String.length (sanitize_input q 500)) 10) with false
    by (symmetry; apply Nat.ltb_ge; lia).
  replace (Nat.ltb (List.length (collect_options raw)) 2) with false
    by (symmetry; apply Nat.ltb_ge; lia).
  replace (Nat.ltb 10 (List.length (collect_options raw))) with false
    by (symmetry; apply Nat.ltb_ge; lia).
  rewrite (NoDup_nodup_length _ Hnd). cbn [negb orb]. cbv zeta.
  unfold Sql.insert_poll. rewrite Hex1. simpl. split; [reflexivity|exact Hframe].
Qed.

(** X11 — The limiter runs before the view and commits on its own: what
    [create_poll] and [vote] leave in [rate_limits] is what the limiter
    wrote, whatever the answer of the view (a rejected form, an unknown
    poll and a failed mail count as attempts too); the other three
    handlers never write to [rate_limits]. *)
Theorem attempts_are_counted_first (d : Db) (w : World) :
  (forall q raw,
     rate_limits (fst (create_poll d w q raw))
     = rate_limits (fst (check_rate_limit d w "create_poll"))) /\
  (forall poll_id e o,
     rate_limits (fst (vote d w poll_id e o))
     = rate_limits (fst (check_rate_limit d w "vote"))) /\
  (forall poll_id, rate_limits (fst (poll d w poll_id)) = rate_limits d) /\
  (forall token, rate_limits (fst (confirm_vote d w token)) = rate_limits d) /\
  (forall poll_id, rate_limits (fst (results d poll_id)) = rate_limits d).
Proof.
  repeat split.
  - intros q raw. destruct (create_poll d w q raw) as [d' r] eqn:H. simpl.
    apply create_poll_cases in H. destruct H as [(-> & _ & Hs)|[_ H]].
    + unfold check_rate_limit in *.
      destruct (find _ _) as [res|]; [destruct (r_attempt_count res >=? 50)|];
        simpl in *; congruence.
    + apply create_poll_view_spec in H.
      destruct H as [[-> _]|H]; [reflexivity|]. cbv zeta in H. tauto.
  - intros poll_id e o. unfold vote.
    destruct (rate_limit_cases "vote" (vote_view w poll_id e o) d w)
      as [[-> Hs]|[-> _]].
    + unfold check_rate_limit in *.
      destruct (find _ _) as [res|]; [destruct (r_attempt_count res >=? 50)|];
        simpl in *; congruence.
    + now rewrite vote_view_frame.
  - intros poll_id. unfold poll.
    repeat match goal with
           | |- context [if ?b then _ else _] => destruct b
           | |- context [match ?x with _ => _ end] => destruct x
           end; reflexivity.
  - intros token. destruct (confirm_vote d w token) as [d' r] eqn:H. simpl.
    apply confirm_vote_spec in H.
    destruct H as [[-> _]|(data & _ & H & _)]; [reflexivity|].
    apply commit_vote_spec in H.
    destruct H as [[-> _]|(_ & n & H)]; [reflexivity|tauto].
  - intros poll_id. unfold results.
    repeat match goal with
           | |- context [if ?b then _ else _] => destruct b
           | |- context [match ?x with _ => _ end] => destruct x
           end; reflexivity.
Qed.

End Writes.

(** ** The two patterns *)

Lemma split_first_eq (c : ascii) (s a b : string) :
  Py.split_first c s = Some (a, b) -> s = a ++ String c b.
Proof.
  revert a b. induction s as [|x s IH]; simpl; intros a b H; [discriminate|].
  destruct (Ascii.eqb x c) eqn:Hx.
  - apply Ascii.eqb_eq in Hx. inversion H; subst. reflexivity.
  - destruct (Py.split_first c s) as [[a' b']|]; [|discriminate].
    inversion H; subst. simpl. f_equal. now apply IH.
Qed.

Lemma split_first_app (c : ascii) (a b : string) :
  Py.all_chars (fun x => negb (Ascii.eqb x c)) a = true ->
  Py.split_first c (a ++ String c b) = Some (a, b).
Proof.
  induction a as [|x a IH]; simpl; intros H.
  - now rewrite Ascii.eqb_refl.
  - apply andb_prop in H. destruct H as [Hx Ha].
    apply negb_true_iff in Hx. rewrite Hx, (IH Ha). reflexivity.
Qed.

Lemma rsplit1_eq (c : ascii) (s a b : string) :
  Py.rsplit1 c s = Some (a, b) -> s = a ++ String c b.
Proof.
  revert a b. induction s as [|x s IH]; simpl; intros a b H; [discriminate|].
  destruct (Py.rsplit1 c s) as [[a' b']|].
  - inversion H; subst. simpl. f_equal. now apply IH.
  - destruct (Ascii.eqb x c) eqn:Hx; [|discriminate].
    apply Ascii.eqb_eq in Hx. inversion H; subst. reflexivity.
Qed.

Lemma all_chars_impl (p q : ascii -> bool) (s : string) :
  (forall c, p c = true -> q c = true) ->
  Py.all_chars p s = true -> Py.all_chars q s = true.
Proof.
  intros Hpq. induction s as [|x s IH]; simpl; [reflexivity|].
  intros H. apply andb_prop in H. destruct H as [Hx Hs].
  now rewrite (Hpq _ Hx), IH.
Qed.

Lemma local_char_not_at (c : ascii) :
  is_local_char c = true -> negb (Ascii.eqb c "@") = true.
Proof.
  destruct c as [[] [] [] [] [] [] [] []]; vm_compute; intros H;
    first [reflexivity | discriminate H].
Qed.

Lemma alpha_not_dot (c : ascii) :
  is_alpha c = true -> negb (Ascii.eqb c ".") = true.
Proof.
  destruct c as [[] [] [] [] [] [] [] []]; vm_compute; intros H;
    first [reflexivity | discriminate H].
Qed.

Lemma nonempty_neq (s : string) : nonempty s = true <-> s <> EmptyString.
Proof. destruct s; simpl; split; congruence. Qed.

Lemma email_body_shape (s : string) : email_body s = true <-> email_shape s.
Proof.
  unfold email_body, email_shape. split.
  - destruct (Py.split_first "@" s) as [[loc rest]|] eqn:H1; [|discriminate].
    destruct (Py.rsplit1 "." rest) as [[dom tld]|] eqn:H2; [|discriminate].
    intros H. repeat (apply andb_prop in H; destruct H as [H ?]).
    apply split_first_eq in H1. apply rsplit1_eq in H2. subst.
    exists loc, dom, tld. repeat split; auto.
    + now apply nonempty_neq.
    + now apply nonempty_neq.
    + now apply Nat.leb_le.
  - intros (loc & dom & tld & -> & Hl & Hlc & Hd & Hdc & Ht & Htc).
    change ("@" ++ ?x) with (String "@" x).
    rewrite split_first_app
      by (eapply all_chars_impl; [exact local_char_not_at|exact Hlc]).
    change ("." ++ ?x) with (String "." x).
    rewrite rsplit1_app_nodot
      by (eapply all_chars_impl; [exact alpha_not_dot|exact Htc]).
    rewrite (proj2 (nonempty_neq loc) Hl), (proj2 (nonempty_neq dom) Hd),
      Hlc, Hdc, Htc. apply Nat.leb_le in Ht. now rewrite Ht.
Qed.

(** The anchor [$]: the body has to match the whole text, or the text
    without its final line feed. *)
Lemma dollar_spec (body : string -> bool) (s : string) :
  existsb body (Py.dollar_candidates s) = true <->
  body s = true \/
  exists u, s = u ++ String Py.newline EmptyString /\ body u = true.
Proof.
  unfold Py.dollar_candidates. split.
  - destruct (Py.rsplit1 Py.newline s) as [[a [|x b]]|] eqn:H; simpl;
      rewrite ?orb_false_r; auto.
    intros Hb. apply orb_prop in Hb. destruct Hb as [Hb|Hb]; [now left|].
    right. exists a. split; [now apply rsplit1_eq|assumption].
  - intros [Hb|(u & -> & Hb)].
    + destruct (Py.rsplit1 Py.newline s) as [[a [|x b]]|]; simpl;
        now rewrite Hb.
    + rewrite rsplit1_app_nodot by reflexivity. simpl. rewrite Hb.
      now rewrite orb_true_r.
Qed.

(** X12 — [validate_email] accepts exactly the texts of the form
    local@domain.label, where the local part is a non-empty run of letters,
    digits and [._%+-], the domain a non-empty run of letters, digits, dots
    and hyphens, and the label at least two letters; and such a text
    followed by one line feed. *)
Theorem validate_email_spec (s : string) :
  validate_email (Some s) = true <->
  email_shape s \/
  exists u, s = u ++ String Py.newline EmptyString /\ email_shape u.
Proof.
  unfold validate_email. rewrite dollar_spec, email_body_shape.
  split; (intros [H|(u & Hu & H)]; [now left|right; exists u]);
    split; auto; now apply email_body_shape.
Qed.

(** X13 — The identifier check of the poll view and the results view
    accepts exactly twelve characters out of [0-9a-f], and such a text
    followed by one line feed; every accepted identifier is 12 or 13
    characters long. *)
Theorem poll_id_re_spec (s : string) :
  (poll_id_re s = true <->
   hex12 s = true \/
   exists u, s = u ++ String Py.newline EmptyString /\ hex12 u = true) /\
  (poll_id_re s = true -> String.length s = 12%nat \/ String.length s = 13%nat).
Proof.
  assert (Hspec := dollar_spec hex12 s). fold (poll_id_re s) in Hspec.
  split; [exact Hspec|].
  intros H. apply Hspec in H. destruct H as [H|(u & -> & H)];
    unfold hex12 in H; apply andb_prop in H; destruct H as [H _];
    apply Nat.eqb_eq in H; [now left|right].
  clear -H. revert H. generalize 12%nat as n.
  induction u as [|x u IH]; simpl; intros n H; [now subst|].
  destruct n; [discriminate|]. f_equal. apply IH. congruence.
Qed.

(** ** A poll after its creation *)

Lemma order_by_id_sorted (l : list OptionRow) :
  StronglySorted Z.lt (map o_id l) -> Sql.order_by Sql.by_id l = l.
Proof.
  induction l as [|x l IH]; simpl; intros Hs; [reflexivity|].
  inversion Hs as [|? ? Hs' Hall]; subst. rewrite (IH Hs').
  destruct l as [|y l]; simpl; [reflexivity|].
  inversion Hall as [|? ? Hxy _]; subst.
  unfold Sql.by_id. replace (o_id x <=? o_id y) with true; [reflexivity|].
  symmetry. apply Z.leb_le. lia.
Qed.

Lemma map_ident_id (l : list OptionRow) : map o_id l = map fst (map option_ident l).
Proof. rewrite map_map. reflexivity. Qed.

Lemma map_ident_text (l : list OptionRow) :
  map o_option_text l = map snd (map option_ident l).
Proof. rewrite map_map. reflexivity. Qed.

Lemma select_poll_fresh (d : Db) (poll_id : string) :
  Sql.poll_exists d poll_id = false -> Sql.select_poll d poll_id = None.
Proof.
  unfold Sql.poll_exists, Sql.select_poll.
  induction (polls d) as [|p l IH]; simpl; [reflexivity|].
  destruct (String.eqb (p_id p) poll_id); simpl; [discriminate|exact IH].
Qed.

Section Lifetime.

Context {deps : Deps}.

Lemma handle_keeps_poll_row (d : Db) (w : World) (rq : Request) (poll_id : string)
    (row : PollRow) :
  Sql.select_poll d poll_id = Some row ->
  Sql.select_poll (fst (handle d w rq)) poll_id = Some row.
Proof.
  intros Hrow. unfold Sql.select_poll in *.
  destruct (handle_effect d w rq)
    as [(Hp & _)|[(v & Hp & _)|(r & news & _ & Hp & _)]]; rewrite Hp;
    [assumption|assumption|now apply find_app_some].
Qed.

(** X14 — A poll that [create_poll] has just made stays on show: after
    any further requests, until 30 days after its creation the poll view
    shows it with its options in the order they were submitted, and from
    then on answers "expired". *)
Theorem created_poll_page (d : Db) (w : World) (q : option string)
    (raw : list string) (poll_id : string) (trace : list (World * Request))
    (w' : World) :
  reachable d ->
  snd (create_poll d w q raw) = PollCreated poll_id ->
  poll_id_re poll_id = true ->
  let d2 := run (fst (create_poll d w q raw)) trace in
  (now w' <= now w + 30 * 86400 ->
     exists row opts,
       poll d2 w' poll_id = (d2, PollPage row opts) /\
       p_question row = sanitize_input q 500 /\
       map o_option_text opts = collect_options raw) /\
  (now w' > now w + 30 * 86400 -> poll d2 w' poll_id = (d2, PollExpired)).
Proof.
  intros Hreach Hresp Hre.
  destruct (create_poll d w q raw) as [d1 r] eqn:Hc. simpl in Hresp. subst r.
  cbn [fst]. cbv zeta.
  pose proof (reachable_options_fk d Hreach) as Hfk.
  destruct (create_poll_cases _ _ _ _ _ _ Hc) as [(_ & Hno & _)|[_ Hv]];
    [discriminate|].
  pose proof (check_rate_limit_frame d w "create_poll") as (Hp0 & Ho0 & _).
  apply create_poll_view_rows in Hv.
  destruct Hv as (news & _ & Hfresh & _ & Hp & Ho & _ & Htexts & _ & _ & Hall & Hs).
  rewrite (poll_exists_ext _ _ _ Hp0) in Hfresh. rewrite Hp0 in Hp. rewrite Ho0 in Ho.
  set (row := mkPoll poll_id (sanitize_input q 500) (current_timestamp w) true 1000
                     (Some (now w + 30 * 86400))) in *.
  assert (Hrow1 : Sql.select_poll d1 poll_id = Some row).
  { unfold Sql.select_poll. rewrite Hp.
    rewrite find_app_none by (apply (select_poll_fresh d); exact Hfresh).
    simpl. now rewrite String.eqb_refl. }
  assert (Hopts1 : Sql.options_of d1 poll_id = news).
  { unfold Sql.options_of. rewrite Ho, filter_app.
    fold (Sql.options_of d poll_id). rewrite (options_of_orphans d _ Hfk Hfresh).
    simpl. apply filter_all. eapply Forall_impl; [|exact Hall]. cbv beta.
    intros o (Ha & _). rewrite Ha. apply String.eqb_refl. }
  assert (Hinv : Sql.select_poll (run d1 trace) poll_id = Some row /\
                 map option_ident (Sql.options_of (run d1 trace) poll_id)
                 = map option_ident news).
  { apply (run_invariant (fun x =>
             Sql.select_poll x poll_id = Some row /\
             map option_ident (Sql.options_of x poll_id) = map option_ident news)).
    - intros x wx rq [Hx1 Hx2]. split; [now apply handle_keeps_poll_row|].
      destruct (handle_keeps_options poll_id x wx rq
                  (select_poll_exists _ _ _ Hx1)) as [_ H2]. congruence.
    - split; [assumption|now rewrite Hopts1]. }
  destruct Hinv as [Hrow Hopts]. set (d2 := run d1 trace) in *.
  unfold poll, expired. rewrite Hre, Hrow. simpl.
  split; intros Ht.
  - replace (now w' >? now w + 2592000) with false
      by (symmetry; rewrite Z.gtb_ltb; apply Z.ltb_ge; lia).
    exists row, (Sql.select_options d2 poll_id).
    split; [reflexivity|]. split; [reflexivity|].
    unfold Sql.select_options. rewrite order_by_id_sorted.
    + now rewrite map_ident_text, Hopts, <- map_ident_text.
    + now rewrite map_ident_id, Hopts, <- map_ident_id.
  - replace (now w' >? now w + 2592000) with true
      by (symmetry; rewrite Z.gtb_ltb; apply Z.ltb_lt; lia).
    reflexivity.
Qed.

End Lifetime.

(** ** From the vote form to the confirmation *)

Lemma length_filter_or {A} (f g : A -> bool) (l : list A) :
  (forall x, In x l -> f x = true -> g x = false) ->
  List.length (filter (fun x => (f x || g x)%bool) l)
  = (List.length (filter f l) + List.length (filter g l))%nat.
Proof.
  induction l as [|x l IH]; simpl; intros H; [reflexivity|].
  assert (IH' := IH (fun y Hy => H y (or_intror Hy))).
  destruct (f x) eqn:Hf; simpl.
  - rewrite (H x (or_introl eq_refl) Hf). simpl. lia.
  - destruct (g x); simpl; lia.
Qed.

(** The counters of rows with distinct identifiers add up to the number
    of Vote rows that name one of those rows. *)
Lemma counters_sum (votes_ : list VoteRow) (opts : list OptionRow) :
  NoDup (map o_id opts) ->
  Forall (fun o => o_votes o
          = Z.of_nat (List.length (filter (fun v => v_option_id v =? o_id o) votes_)))
         opts ->
  total_votes opts
  = Z.of_nat (List.length
      (filter (fun v => existsb (fun o => o_id o =? v_option_id v) opts) votes_)).
Proof.
  unfold total_votes.
  induction opts as [|o opts IH]; simpl; intros Hnd Hall.
  - replace (filter (fun _ => false) votes_) with (@nil VoteRow); [reflexivity|].
    induction votes_; simpl; auto.
  - inversion Hnd as [|? ? Hnotin Hnd']; subst.
    inversion Hall as [|? ? Ho Hall']; subst.
    rewrite (IH Hnd' Hall'), Ho.
    rewrite (length_filter_or (fun v => o_id o =? v_option_id v)).
    + rewrite Nat2Z.inj_add. f_equal. f_equal. f_equal.
      apply filter_ext. intros v. apply Z.eqb_sym.
    + intros v _ Hv. apply Z.eqb_eq in Hv.
      destruct (existsb _ opts) eqn:He; [|reflexivity].
      apply existsb_exists in He. destruct He as (o' & Hin & Ho').
      apply Z.eqb_eq in Ho'. elim Hnotin. rewrite Hv, <- Ho'. now apply in_map.
Qed.

Section Workflow.

Context {deps : Deps}.

Lemma loads_dumps_cases (payload : Intent) (p : string) (issued t max_age : Z) :
  no_dot (encode_ts issued) = true ->
  no_dot (get_signature SECRET_KEY p
            (dump_payload payload ++ "." ++ encode_ts issued)) = true ->
  decode_ts (encode_ts issued) = Some issued ->
  load_payload (dump_payload payload) = Some payload ->
  loads (dumps payload p issued) p max_age t
  = if t - issued >? max_age then inl SignatureExpired
    else if t - issued <? 0 then inl SignatureExpired
    else inr payload.
Proof.
  intros Hts Hsig Hdec Hload.
  unfold loads, timestamp_unsign.
  rewrite (loads_dumps_unsigned payload p issued Hts Hsig).
  change ("." ++ ?x) with (String "." x).
  unfold no_dot in Hts. rewrite (rsplit1_app_nodot "." _ _ Hts), Hdec.
  destruct (t - issued >? max_age); [reflexivity|].
  destruct (t - issued <? 0); [reflexivity|]. now rewrite Hload.
Qed.

Lemma vote_sent (d : Db) (w : World) (poll_id : string) (e : option string)
    (option_id to token : string) :
  snd (vote d w poll_id e (Some option_id)) = ConfirmationSent to token ->
  token = dumps (mkIntent poll_id option_id to (remote_addr w))
                "email-confirm-v2" (now w) /\
  to = Py.lower (Py.strip (match e with Some x => x | None => EmptyString end)) /\
  validate_email (Some to) = true /\
  Sql.poll_exists d poll_id = true /\
  Sql.select_vote d poll_id to = None /\
  exists n, Sql.to_integer option_id = Some n /\ Sql.option_exists d n = true.
Proof.
  unfold vote.
  destruct (rate_limit_cases "vote" (vote_view w poll_id e (Some option_id)) d w)
    as [[-> _]|[-> _]]; [cbn [snd]; discriminate|].
  pose proof (check_rate_limit_frame d w "vote") as (Hp & Ho & Hv).
  set (d1 := fst (check_rate_limit d w "vote")) in *.
  unfold vote_view.
  destruct (negb _ || negb (validate_email _))%bool eqn:Hem; [cbn [snd]; discriminate|].
  destruct (negb (nonempty option_id) || negb (Py.isdigit option_id))%bool;
    [cbn [snd]; discriminate|].
  destruct (Sql.select_poll d1 poll_id) as [row|] eqn:Hrow; [|cbn [snd]; discriminate].
  destruct (negb (p_is_active row)); [cbn [snd]; discriminate|].
  destruct (Sql.select_option d1 option_id poll_id) as [opt|] eqn:Hopt;
    [|cbn [snd]; discriminate].
  destruct (Sql.select_vote d1 poll_id _) eqn:Hsv; [cbn [snd]; discriminate|].
  destruct (mailgun_ok w); [|cbn [snd]; discriminate].
  simpl. intros H. inversion H; subst to token. clear H.
  apply orb_false_iff in Hem. destruct Hem as [_ Hem].
  apply negb_false_iff in Hem.
  unfold Sql.select_option in Hopt.
  destruct (Sql.to_integer option_id) as [n|] eqn:Hn; [|cbn [snd]; discriminate].
  split; [reflexivity|]. split; [reflexivity|]. split; [exact Hem|].
  split; [rewrite <- (poll_exists_ext d d1 _ Hp);
          now apply (select_poll_exists d1 _ row)|].
  split; [unfold Sql.select_vote in *; now rewrite <- Hv|].
  exists n. split; [reflexivity|].
  apply find_some in Hopt. destruct Hopt as [Hin Hk].
  apply andb_prop in Hk. destruct Hk as [Hk _].
  unfold Sql.option_exists. rewrite <- Ho. apply existsb_exists. eauto.
Qed.

Lemma run_keeps_rows (trace : list (World * Request)) (poll_id : string) (n : Z) :
  forall d, Sql.poll_exists d poll_id = true -> Sql.option_exists d n = true ->
    Sql.poll_exists (run d trace) poll_id = true /\
    Sql.option_exists (run d trace) n = true.
Proof.
  intros d Hp Ho.
  apply (run_invariant (fun x => Sql.poll_exists x poll_id = true /\
                                 Sql.option_exists x n = true)); [|auto].
  intros x w rq [H1 H2]. now apply handle_keeps_rows.
Qed.

(** X15 — From the form to the ballot: the token mailed by [vote], given
    a codec that reads back what it wrote, is good for one hour whatever
    requests come in between.  Confirmed within 3600 seconds it records the
    vote if the pair has none yet and answers "already confirmed" if it
    has; confirmed later it answers "expired" and writes nothing. *)
Theorem vote_then_confirm (d : Db) (w : World) (poll_id : string)
    (e : option string) (option_id to token : string)
    (trace : list (World * Request)) (w2 : World) :
  snd (vote d w poll_id e (Some option_id)) = ConfirmationSent to token ->
  let data := mkIntent poll_id option_id to (remote_addr w) in
  no_dot (encode_ts (now w)) = true ->
  no_dot (get_signature SECRET_KEY "email-confirm-v2"
            (dump_payload data ++ "." ++ encode_ts (now w))) = true ->
  decode_ts (encode_ts (now w)) = Some (now w) ->
  load_payload (dump_payload data) = Some data ->
  let d2 := run (fst (vote d w poll_id e (Some option_id))) trace in
  (now w2 - now w > 3600 -> confirm_vote d2 w2 token = (d2, LinkExpired)) /\
  (now w <= now w2 -> now w2 - now w <= 3600 ->
     (Sql.select_vote d2 poll_id to = None ->
        snd (confirm_vote d2 w2 token) = VoteRecorded /\
        Sql.select_vote (fst (confirm_vote d2 w2 token)) poll_id to <> None) /\
     (Sql.select_vote d2 poll_id to <> None ->
        confirm_vote d2 w2 token = (d2, AlreadyConfirmed))).
Proof.
  intros Hsent data Hts Hsig Hdec Hload d2.
  destruct (vote_sent _ _ _ _ _ _ _ Hsent)
    as (Htok & _ & _ & Hpe & _ & n & Hn & Hoe).
  fold data in Htok.
  pose proof (loads_dumps_cases data "email-confirm-v2" (now w) (now w2) 3600
                Hts Hsig Hdec Hload) as Hloads.
  rewrite <- Htok in Hloads.
  destruct (vote_frame d w poll_id e (Some option_id)) as (Fp & Fo & _).
  assert (Hrows : Sql.poll_exists d2 poll_id = true /\ Sql.option_exists d2 n = true).
  { apply run_keeps_rows.
    - now rewrite (poll_exists_ext _ _ _ Fp).
    - unfold Sql.option_exists in *. now rewrite Fo. }
  destruct Hrows as [Hpe2 Hoe2].
  split.
  - intros Hlate.
    replace (now w2 - now w >? 3600) with true in Hloads
      by (symmetry; rewrite Z.gtb_ltb; apply Z.ltb_lt; lia).
    now apply confirm_vote_expired.
  - intros Hle Hage.
    replace (now w2 - now w >? 3600) with false in Hloads
      by (symmetry; rewrite Z.gtb_ltb; apply Z.ltb_ge; lia).
    replace (now w2 - now w <? 0) with false in Hloads
      by (symmetry; apply Z.ltb_ge; lia).
    split.
    + intros Hnone.
      rewrite (confirm_vote_fresh d2 w2 token data n Hloads Hnone Hpe2 Hn Hoe2).
      split; [reflexivity|]. cbn [fst].
      apply select_vote_some. cbn [votes]. rewrite existsb_app. simpl.
      unfold Sql.vote_key at 2. simpl. rewrite !String.eqb_refl. simpl.
      apply orb_true_r.
    + intros Hsome. now apply (confirm_vote_existing d2 w2 token data).
Qed.

(** X16 — A token whose signature was made for another purpose, or for
    another signed text, is turned down as an invalid link: for a text of
    the form value.timestamp.signature whose signature is not the one of
    value.timestamp under the purpose of the confirmation, and so for a
    token minted under a purpose that signs differently, [confirm_vote]
    answers "invalid link" and writes nothing. *)
Theorem foreign_token_is_invalid (d : Db) (w : World) (obj : Intent)
    (p : string) (issued : Z) :
  no_dot (encode_ts issued) = true ->
  no_dot (get_signature SECRET_KEY p
            (dump_payload obj ++ "." ++ encode_ts issued)) = true ->
  get_signature SECRET_KEY p (dump_payload obj ++ "." ++ encode_ts issued)
  <> get_signature SECRET_KEY "email-confirm-v2"
       (dump_payload obj ++ "." ++ encode_ts issued) ->
  confirm_vote d w (dumps obj p issued) = (d, LinkInvalid).
Proof.
  intros Hts Hsig Hne. unfold dumps. cbv zeta.
  rewrite string_app_assoc.
  change (("." ++ encode_ts issued) ++ ?x) with ("." ++ encode_ts issued ++ x).
  now apply confirm_vote_bad_signature.
Qed.

(** X17 — A token that verifies, whose option id is digit text (as
    [vote] requires of every token it mints), but which names a poll or an
    option that is not in the database is refused by the foreign keys of
    [votes]; the handler takes the IntegrityError for a duplicate and
    answers "already recorded", though the pair has no Vote, and writes
    nothing.  With both rows present the vote is recorded. *)
Theorem confirm_vote_dangling_reference (d : Db) (w : World) (token : string)
    (data : Intent) :
  loads token "email-confirm-v2" 3600 (now w) = inr data ->
  Py.isdigit (i_option_id data) = true ->
  Sql.select_vote d (i_poll_id data) (i_email data) = None ->
  let present :=
    (Sql.poll_exists d (i_poll_id data) &&
     match Sql.to_integer (i_option_id data) with
     | Some n => Sql.option_exists d n
     | None => false
     end)%bool in
  (present = false -> confirm_vote d w token = (d, AlreadyRecorded)) /\
  (present = true -> snd (confirm_vote d w token) = VoteRecorded).
Proof.
  intros Hl _ Hnone. cbv zeta. split; intros Hp.
  - unfold confirm_vote, commit_vote, Sql.insert_vote.
    rewrite Hl, Hnone. apply find_vote_key in Hnone. rewrite Hnone.
    destruct (Sql.poll_exists d (i_poll_id data)); simpl in *; [|reflexivity].
    destruct (Sql.to_integer (i_option_id data)) as [n|]; [|reflexivity].
    now rewrite Hp.
  - apply andb_prop in Hp. destruct Hp as [Hpe Hoe].
    destruct (Sql.to_integer (i_option_id data)) as [n|] eqn:Hn; [|discriminate].
    now rewrite (confirm_vote_fresh d w token data n Hl Hnone Hpe Hn Hoe).
Qed.

(** X18 — In every reachable state the total on the results page of a
    poll is the number of Vote rows whose option is one of the options of
    that poll. *)
Theorem results_total_counts_votes (d d' : Db) (poll_id : string) (row : PollRow)
    (opts : list OptionRow) (total : Z) :
  reachable d ->
  results d poll_id = (d', ResultsPage row opts total) ->
  total = Z.of_nat (List.length (votes_cast d poll_id)).
Proof.
  intros Hreach Hres.
  pose proof (reachable_consistent d Hreach) as (_ & Hids & _ & _ & _ & Hcnt & _).
  unfold results in Hres.
  destruct (negb (poll_id_re poll_id)); [discriminate|].
  destruct (Sql.select_poll d poll_id); [|discriminate].
  injection Hres as _ _ _ Ht. rewrite <- Ht. unfold Sql.select_tally.
  rewrite (total_votes_perm _ (Sql.options_of d poll_id))
    by apply order_by_perm.
  unfold votes_cast. apply counters_sum.
  - unfold Sql.options_of. now apply nodup_map_filter.
  - unfold counters_match_votes, votes_of_option in Hcnt.
    unfold Sql.options_of. rewrite Forall_forall in *.
    intros o Ho. apply filter_In in Ho. now apply Hcnt.
Qed.

End Workflow.

(** ** The address the limiter keys on *)

Lemma lstrip_head (s : string) :
  Py.lstrip s = EmptyString \/
  exists c t, Py.lstrip s = String c t /\ Py.is_space c = false.
Proof.
  induction s as [|c s IH]; simpl; [now left|].
  destruct (Py.is_space c) eqn:Hc; [exact IH|]. right. eauto.
Qed.

Lemma rstrip_head (c : ascii) (t : string) :
  Py.is_space c = false -> exists r, Py.rstrip (String c t) = String c r.
Proof.
  intros Hc. simpl. destruct (Py.rstrip t); [rewrite Hc|]; eauto.
Qed.

Lemma rstrip_idem (s : string) : Py.rstrip (Py.rstrip s) = Py.rstrip s.
Proof.
  induction s as [|c s IH]; [reflexivity|].
  cbn [Py.rstrip]. destruct (Py.rstrip s) as [|x r] eqn:Hr.
  - destruct (Py.is_space c) eqn:Hc; [reflexivity|].
    cbn [Py.rstrip]. now rewrite Hc.
  - change (Py.rstrip (String c (String x r)))
      with (match Py.rstrip (String x r) with
            | EmptyString =>
                if Py.is_space c then EmptyString else String c EmptyString
            | String y r0 => String c (String y r0)
            end).
    now rewrite IH.
Qed.

Lemma strip_idem (s : string) : Py.strip (Py.strip s) = Py.strip s.
Proof.
  unfold Py.strip.
  destruct (lstrip_head s) as [->|(c & t & -> & Hc)]; [reflexivity|].
  destruct (rstrip_head c t Hc) as [r Hr]. rewrite Hr.
  simpl Py.lstrip. rewrite Hc. rewrite <- Hr. apply rstrip_idem.
Qed.

Lemma all_chars_lstrip (p : ascii -> bool) (s : string) :
  Py.all_chars p s = true -> Py.all_chars p (Py.lstrip s) = true.
Proof.
  induction s as [|c s IH]; simpl; [reflexivity|]. intros H.
  destruct (Py.is_space c); [|exact H].
  apply andb_prop in H. now apply IH.
Qed.

Lemma all_chars_rstrip (p : ascii -> bool) (s : string) :
  Py.all_chars p s = true -> Py.all_chars p (Py.rstrip s) = true.
Proof.
  induction s as [|c s IH]; simpl; [reflexivity|]. intros H.
  apply andb_prop in H. destruct H as [Hc Hs]. specialize (IH Hs).
  destruct (Py.rstrip s); [destruct (Py.is_space c)|]; simpl in *;
    rewrite ?Hc, ?IH; reflexivity.
Qed.

Lemma all_chars_before_first (c : ascii) (s : string) :
  Py.all_chars (fun x => negb (Ascii.eqb x c)) (Py.before_first c s) = true.
Proof.
  induction s as [|x s IH]; simpl; [reflexivity|].
  destruct (Ascii.eqb x c) eqn:Hx; simpl; [reflexivity|]. now rewrite Hx, IH.
Qed.

(** X19 — With a non-empty [X-Forwarded-For] header the address of the
    client is the first comma-separated element of the header with the
    white space around it removed, whatever the peer address is: it has no
    comma, stripping it again changes nothing, and two requests with the
    same header get the same address.  Without the header, or with an
    empty one, it is the peer address. *)
Theorem get_client_ip_key (w : World) :
  (forall h, x_forwarded_for w = Some h -> h <> EmptyString ->
     get_client_ip w = Py.strip (Py.before_first "," h) /\
     Py.strip (get_client_ip w) = get_client_ip w /\
     Py.all_chars (fun x => negb (Ascii.eqb x ",")) (get_client_ip w) = true /\
     forall w', x_forwarded_for w' = Some h -> get_client_ip w' = get_client_ip w) /\
  (x_forwarded_for w = None \/ x_forwarded_for w = Some EmptyString ->
     get_client_ip w = remote_addr w).
Proof.
  unfold get_client_ip. split.
  - intros h Hh Hne. rewrite Hh. destruct h as [|c h]; [congruence|].
    split; [reflexivity|]. split; [apply strip_idem|]. split.
    + apply all_chars_rstrip, all_chars_lstrip, all_chars_before_first.
    + intros w' Hw'. now rewrite Hw'.
  - intros [->| ->]; reflexivity.
Qed.

Section Guard.

Context {deps : Deps}.

Lemma create_poll_view_not_limited (w : World) (q : option string)
    (raw : list string) (d : Db) :
  snd (create_poll_view w q raw d) <> TooManyAttempts.
Proof.
  unfold create_poll_view.
  repeat match goal with
         | |- context [if ?b then _ else _] => destruct b
         | |- context [match ?x with _ => _ end] => destruct x
         end; cbn [snd]; discriminate.
Qed.

Lemma vote_view_not_limited (w : World) (poll_id : string) (e o : option string)
    (d : Db) :
  snd (vote_view w poll_id e o d) <> TooManyAttempts.
Proof.
  unfold vote_view.
  repeat match goal with
         | |- context [if ?b then _ else _] => destruct b
         | |- context [match ?x with _ => _ end] => destruct x
         end; cbn [snd]; discriminate.
Qed.

(** X20 — An address the limiter has no row for is never refused: in a
    reachable state, [create_poll] and [vote] do not answer "too many
    attempts" to a client whose address, as [get_client_ip] reads it, has
    no row in [rate_limits] for the endpoint. *)
Theorem unseen_address_is_let_through (d : Db) (w : World) :
  reachable d ->
  (rate_entry d (get_client_ip w) "create_poll" = None ->
     forall q raw, snd (create_poll d w q raw) <> TooManyAttempts) /\
  (rate_entry d (get_client_ip w) "vote" = None ->
     forall poll_id e o, snd (vote d w poll_id e o) <> TooManyAttempts).
Proof.
  intros Hr.
  assert (Hu : rate_keys_unique d).
  { revert Hr. apply reachable_invariant;
      [constructor|apply handle_rate_keys_unique]. }
  split; intros He.
  - intros q raw. unfold create_poll.
    pose proof (check_rate_limit_entry d w "create_poll" Hu) as H.
    cbv zeta in H. rewrite He in H. destruct H as [Hok _].
    destruct (rate_limit_cases "create_poll" (create_poll_view w q raw) d w)
      as [[_ Hs]|[-> _]]; [congruence|].
    apply create_poll_view_not_limited.
  - intros poll_id e o. unfold vote.
    pose proof (check_rate_limit_entry d w "vote" Hu) as H.
    cbv zeta in H. rewrite He in H. destruct H as [Hok _].
    destruct (rate_limit_cases "vote" (vote_view w poll_id e o) d w)
      as [[_ Hs]|[-> _]]; [congruence|].
    apply vote_view_not_limited.
Qed.

Lemma reachable_polls_active (d : Db) (poll_id : string) (row : PollRow) :
  reachable d -> Sql.select_poll d poll_id = Some row -> p_is_active row = true.
Proof.
  intros Hr Hrow. pose proof (reachable_consistent d Hr) as H.
  unfold consistent in H. destruct H as (_ & _ & _ & _ & _ & _ & Hwf).
  unfold Sql.select_poll in Hrow. apply find_some in Hrow.
  rewrite Forall_forall in Hwf. apply (Hwf row). tauto.
Qed.

(** X21 — No handler ever switches a poll off: in every reachable state
    the poll view never answers "not active", and [vote] answers "not
    active" only for an identifier that has no poll. *)
Theorem no_poll_is_ever_inactive (d : Db) (w : World) (poll_id : string) :
  reachable d ->
  snd (poll d w poll_id) <> PollInactive /\
  (forall e o, snd (vote d w poll_id e o) = PollNotActive ->
     Sql.select_poll d poll_id = None).
Proof.
  intros Hr. split.
  - unfold poll. destruct (negb (poll_id_re poll_id)); [discriminate|].
    destruct (Sql.select_poll d poll_id) as [row|] eqn:Hrow; [|discriminate].
    rewrite (reachable_polls_active d _ _ Hr Hrow). cbn [negb].
    destruct (expired w row); discriminate.
  - intros e o. unfold vote.
    destruct (rate_limit_cases "vote" (vote_view w poll_id e o) d w)
      as [[-> _]|[-> _]]; [discriminate|].
    pose proof (check_rate_limit_frame d w "vote") as (Hp & _).
    set (d1 := fst (check_rate_limit d w "vote")) in *.
    assert (Hsel : Sql.select_poll d1 poll_id = Sql.select_poll d poll_id)
      by (unfold Sql.select_poll; now rewrite Hp).
    unfold vote_view. rewrite Hsel.
    destruct (negb _ || negb (validate_email _))%bool; [discriminate|].
    destruct o as [option_id|]; [|discriminate].
    destruct (negb (nonempty option_id) || negb (Py.isdigit option_id))%bool;
      [discriminate|].
    destruct (Sql.select_poll d poll_id) as [row|] eqn:Hrow; [|reflexivity].
    rewrite (reachable_polls_active d _ _ Hr Hrow). cbn [negb].
    destruct (Sql.select_option d1 option_id poll_id); [|discriminate].
    destruct (Sql.select_vote d1 poll_id _); [discriminate|].
    destruct (mailgun_ok w); discriminate.
Qed.

(** X22 — Options that are too short after sanitizing are dropped, not
    refused: taking them out of the submitted list changes neither the
    answer of [create_poll] nor the state it leaves. *)
Theorem short_options_are_dropped (d : Db) (w : World) (q : option string)
    (raw : list string) :
  let valid t :=
    (nonempty (sanitize_input (Some t) 200)
     && Nat.leb 2 (String.length (sanitize_input (Some t) 200)))%bool in
  create_poll d w q (filter valid raw) = create_poll d w q raw.
Proof.
  cbv zeta.
  assert (Hc : collect_options (filter
            (fun t => (nonempty (sanitize_input (Some t) 200)
               && Nat.leb 2 (String.length (sanitize_input (Some t) 200)))%bool)
            raw) = collect_options raw).
  { unfold collect_options. induction raw as [|t raw IH]; [reflexivity|].
    cbn [filter map].
    destruct (nonempty (sanitize_input (Some t) 200)
              && Nat.leb 2 (String.length (sanitize_input (Some t) 200)))%bool
      eqn:Hv; cbn [filter map]; rewrite ?Hv, IH; reflexivity. }
  unfold create_poll, rate_limit_decorator.
  destruct (check_rate_limit d w "create_poll") as [d1 [|]]; [|reflexivity].
  unfold create_poll_view. now rewrite Hc.
Qed.

End Guard.

(** ** Further instances on the scenario run *)

Lemma rate_limit_burst_witness :
  let ws := repeat (Demo.world 100 "" true) 51 in
  rate_keys_unique init_db /\
  rate_entry init_db "10.0.0.7" "vote" = None /\
  snd (attempts init_db ws "vote") = (repeat true 50 ++ [false])%list.
Proof.
  cbv zeta.
  assert (Hu : rate_keys_unique init_db) by constructor.
  split; [exact Hu|]. split; [reflexivity|].
  apply (rate_limit_burst init_db "10.0.0.7" "vote" 100
           (repeat (Demo.world 100 "" true) 51) Hu eq_refl).
  apply Forall_forall. intros w Hin. apply repeat_spec in Hin. subst w.
  split; [reflexivity|simpl; lia].
Defined.

Lemma rate_limit_lockout_witness :
  let r := mkRate "10.0.0.7" "vote" 50 100 in
  rate_keys_unique Demo.limited /\
  rate_entry Demo.limited "10.0.0.7" "vote" = Some r /\
  check_rate_limit Demo.limited (Demo.world 400 "" true) "vote"
  = (Demo.limited, false) /\
  snd (check_rate_limit Demo.limited (Demo.world 401 "" true) "vote") = true.
Proof.
  cbv zeta.
  assert (Hu : rate_keys_unique Demo.limited).
  { unfold rate_keys_unique. simpl. constructor; [simpl; tauto|constructor]. }
  split; [exact Hu|]. split; [reflexivity|]. split.
  - apply (rate_limit_lockout Demo.limited (Demo.world 400 "" true) "vote"
             (mkRate "10.0.0.7" "vote" 50 100) Hu eq_refl); simpl; lia.
  - apply (rate_limit_lockout Demo.limited (Demo.world 401 "" true) "vote"
             (mkRate "10.0.0.7" "vote" 50 100) Hu eq_refl); simpl; lia.
Defined.

Lemma reachable_rate_keys_unique_witness :
  reachable (deps := Demo.deps) Demo.confirmed /\ rate_keys_unique Demo.confirmed.
Proof.
  split; [exact reachable_confirmed|].
  exact (reachable_rate_keys_unique (deps := Demo.deps) Demo.confirmed
           reachable_confirmed).
Defined.

Lemma reachable_primary_keys_witness :
  reachable (deps := Demo.deps) Demo.confirmed /\
  poll_ids_unique Demo.confirmed /\ option_ids_unique Demo.confirmed /\
  vote_ids_unique Demo.confirmed.
Proof.
  split; [exact reachable_confirmed|].
  exact (reachable_primary_keys (deps := Demo.deps) Demo.confirmed
           reachable_confirmed).
Defined.

Lemma reachable_foreign_keys_witness :
  reachable (deps := Demo.deps) Demo.confirmed /\
  options_fk Demo.confirmed /\ votes_fk Demo.confirmed.
Proof.
  split; [exact reachable_confirmed|].
  exact (reachable_foreign_keys (deps := Demo.deps) Demo.confirmed
           reachable_confirmed).
Defined.

Lemma reachable_counters_match_votes_witness :
  reachable (deps := Demo.deps) Demo.confirmed /\
  counters_match_votes Demo.confirmed /\
  counter Demo.confirmed 1 = Some 1 /\
  List.length (votes_of_option Demo.confirmed 1) = 1%nat.
Proof.
  split; [exact reachable_confirmed|]. split.
  - exact (reachable_counters_match_votes (deps := Demo.deps) Demo.confirmed
             reachable_confirmed).
  - split; reflexivity.
Defined.

Lemma reachable_polls_well_formed_witness :
  reachable (deps := Demo.deps) Demo.confirmed /\
  poll_well_formed Demo.confirmed Demo.poll_row.
Proof.
  split; [exact reachable_confirmed|].
  pose proof (reachable_polls_well_formed (deps := Demo.deps) Demo.confirmed
                reachable_confirmed) as H.
  rewrite Forall_forall in H. apply H. simpl. now left.
Defined.

Lemma results_page_sorted_witness :
  results Demo.confirmed Demo.poll_id
  = (Demo.confirmed,
     ResultsPage Demo.poll_row (Sql.select_tally Demo.confirmed Demo.poll_id) 1) /\
  StronglySorted tally_le (Sql.select_tally Demo.confirmed Demo.poll_id).
Proof.
  assert (H : results Demo.confirmed Demo.poll_id
              = (Demo.confirmed,
                 ResultsPage Demo.poll_row
                   (Sql.select_tally Demo.confirmed Demo.poll_id) 1))
    by reflexivity.
  split; [exact H|].
  exact (proj1 (results_page_sorted _ _ _ _ _ _ H)).
Defined.

Lemma other_answers_write_nothing_witness :
  let w := Demo.world 4000 "" true in
  snd (handle (deps := Demo.deps) Demo.created w (ConfirmVote Demo.token))
  = LinkExpired /\
  same_poll_store Demo.created
    (fst (handle (deps := Demo.deps) Demo.created w (ConfirmVote Demo.token))).
Proof.
  cbv zeta. split; [reflexivity|].
  apply (other_answers_write_nothing (deps := Demo.deps)).
  - intros id. vm_compute. discriminate.
  - vm_compute. discriminate.
Defined.

Lemma create_poll_id_collision_witness :
  snd (check_rate_limit Demo.created Demo.world_collision "create_poll") = true /\
  Sql.poll_exists Demo.created (Py.take 12 (uuid4_hex Demo.world_collision)) = true /\
  snd (create_poll (deps := Demo.deps) Demo.created Demo.world_collision
         (Some "Tabs or spaces?") ["Tabs"; "Spaces"]) = PollCreateFailed.
Proof.
  split; [reflexivity|]. split; [reflexivity|].
  apply (create_poll_id_collision (deps := Demo.deps) Demo.created
           Demo.world_collision (Some "Tabs or spaces?") ["Tabs"; "Spaces"]);
    try reflexivity; simpl; try lia.
  repeat constructor; simpl; intuition discriminate.
Defined.

Lemma validate_email_spec_witness :
  validate_email (Some "a@b.com") = true /\ email_shape "a@b.com".
Proof.
  split; [reflexivity|].
  destruct (proj1 (validate_email_spec "a@b.com") eq_refl) as [H|(u & Hu & _)];
    [exact H|].
  exfalso. clear -Hu. destruct u as [|c0 [|c1 [|c2 [|c3 [|c4 [|c5 [|c6 u]]]]]]];
    simpl in Hu; try discriminate Hu.
  inversion Hu. destruct u; discriminate.
Defined.

Lemma created_poll_page_witness :
  let w' := Demo.world (100 + 30 * 86400) "" true in
  reachable (deps := Demo.deps) init_db /\
  snd (create_poll (deps := Demo.deps) init_db Demo.world_create
         (Some "Best language?") ["Go"; "Rust"]) = PollCreated Demo.poll_id /\
  poll_id_re Demo.poll_id = true /\
  exists row opts,
    poll Demo.confirmed w' Demo.poll_id = (Demo.confirmed, PollPage row opts) /\
    p_question row = "Best language?" /\
    map o_option_text opts = ["Go"; "Rust"].
Proof.
  cbv zeta.
  assert (Hr : reachable (deps := Demo.deps) init_db) by (exists []; reflexivity).
  split; [exact Hr|]. split; [reflexivity|]. split; [reflexivity|].
  destruct (created_poll_page (deps := Demo.deps) init_db Demo.world_create
              (Some "Best language?") ["Go"; "Rust"] Demo.poll_id
              [(Demo.world 110 "" true, Demo.vote_request);
               (Demo.world 120 "" true, ConfirmVote Demo.token)]
              (Demo.world (100 + 30 * 86400) "" true) Hr eq_refl eq_refl)
    as [H _].
  apply H. simpl. lia.
Defined.

Lemma vote_then_confirm_witness :
  let w := Demo.world 110 "" true in
  let w2 := Demo.world 3710 "" true in
  let d1 := fst (vote (deps := Demo.deps) Demo.created w Demo.poll_id
                      (Some " A@B.com ") (Some "1")) in
  snd (vote (deps := Demo.deps) Demo.created w Demo.poll_id
            (Some " A@B.com ") (Some "1"))
  = ConfirmationSent "a@b.com" Demo.token /\
  snd (confirm_vote (deps := Demo.deps) d1 w2 Demo.token) = VoteRecorded /\
  confirm_vote (deps := Demo.deps) d1 (Demo.world 3711 "" true) Demo.token
  = (d1, LinkExpired).
Proof.
  cbv zeta.
  assert (Hs : snd (vote (deps := Demo.deps) Demo.created (Demo.world 110 "" true)
                         Demo.poll_id (Some " A@B.com ") (Some "1"))
               = ConfirmationSent "a@b.com" Demo.token) by reflexivity.
  split; [exact Hs|].
  split.
  - destruct (vote_then_confirm (deps := Demo.deps) Demo.created
                (Demo.world 110 "" true) Demo.poll_id (Some " A@B.com ") "1"
                "a@b.com" Demo.token [] (Demo.world 3710 "" true) Hs
                eq_refl eq_refl eq_refl eq_refl) as [_ H].
    apply H; [simpl; lia|simpl; lia|reflexivity].
  - destruct (vote_then_confirm (deps := Demo.deps) Demo.created
                (Demo.world 110 "" true) Demo.poll_id (Some " A@B.com ") "1"
                "a@b.com" Demo.token [] (Demo.world 3711 "" true) Hs
                eq_refl eq_refl eq_refl eq_refl) as [H _].
    apply H. simpl. lia.
Defined.

Lemma foreign_token_is_invalid_witness :
  let token := dumps (deps := Demo.deps) Demo.intent "password-reset" 110 in
  confirm_vote (deps := Demo.deps) Demo.created (Demo.world 120 "" true) token
  = (Demo.created, LinkInvalid).
Proof.
  cbv zeta.
  apply (foreign_token_is_invalid (deps := Demo.deps) Demo.created
           (Demo.world 120 "" true) Demo.intent "password-reset" 110);
    try reflexivity.
  vm_compute. discriminate.
Defined.

Lemma confirm_vote_dangling_reference_witness :
  let w := Demo.world 120 "" true in
  loads (deps := Demo.deps) Demo.token "email-confirm-v2" 3600 (now w)
  = inr Demo.intent /\
  Py.isdigit (i_option_id Demo.intent) = true /\
  Sql.select_vote init_db Demo.poll_id "a@b.com" = None /\
  Sql.poll_exists init_db Demo.poll_id = false /\
  confirm_vote (deps := Demo.deps) init_db w Demo.token = (init_db, AlreadyRecorded).
Proof.
  cbv zeta.
  assert (Hl : loads (deps := Demo.deps) Demo.token "email-confirm-v2" 3600
                 (now (Demo.world 120 "" true)) = inr Demo.intent)
    by (vm_compute; reflexivity).
  split; [exact Hl|]. split; [reflexivity|]. split; [reflexivity|].
  split; [reflexivity|].
  destruct (confirm_vote_dangling_reference (deps := Demo.deps) init_db
              (Demo.world 120 "" true) Demo.token Demo.intent Hl eq_refl eq_refl)
    as [H _].
  apply H. reflexivity.
Defined.

Lemma results_total_counts_votes_witness :
  reachable (deps := Demo.deps) Demo.confirmed /\
  results Demo.confirmed Demo.poll_id
  = (Demo.confirmed,
     ResultsPage Demo.poll_row (Sql.select_tally Demo.confirmed Demo.poll_id) 1) /\
  List.length (votes_cast Demo.confirmed Demo.poll_id) = 1%nat.
Proof.
  assert (H : results Demo.confirmed Demo.poll_id
              = (Demo.confirmed,
                 ResultsPage Demo.poll_row
                   (Sql.select_tally Demo.confirmed Demo.poll_id) 1))
    by reflexivity.
  split; [exact reachable_confirmed|]. split; [exact H|].
  pose proof (results_total_counts_votes (deps := Demo.deps) _ _ _ _ _ _
                reachable_confirmed H) as Ht.
  apply Nat2Z.inj. symmetry. exact Ht.
Defined.

Lemma unseen_address_is_let_through_witness :
  reachable (deps := Demo.deps) Demo.created /\
  rate_entry Demo.created (get_client_ip (Demo.world 110 "" true)) "vote" = None /\
  snd (vote (deps := Demo.deps) Demo.created (Demo.world 110 "" true)
            Demo.poll_id (Some "a@b.com") (Some "1")) <> TooManyAttempts.
Proof.
  split; [exact reachable_created|]. split; [reflexivity|].
  destruct (unseen_address_is_let_through (deps := Demo.deps) Demo.created
              (Demo.world 110 "" true) reachable_created) as [_ H].
  apply H. reflexivity.
Defined.

Lemma no_poll_is_ever_inactive_witness :
  reachable (deps := Demo.deps) Demo.confirmed /\
  snd (poll Demo.confirmed (Demo.world 130 "" true) Demo.poll_id) <> PollInactive.
Proof.
  split; [exact reachable_confirmed|].
  exact (proj1 (no_poll_is_ever_inactive (deps := Demo.deps) Demo.confirmed
                  (Demo.world 130 "" true) Demo.poll_id reachable_confirmed)).
Defined.

(** ** The limiter and the other callers *)

Lemma find_rate_touch_other (ip endpoint ip' endpoint' : string) (t : Z)
    (l : list RateRow) :
  (ip', endpoint') <> (ip, endpoint) ->
  find (rate_key ip' endpoint') (map (touch ip endpoint t) l)
  = find (rate_key ip' endpoint') l.
Proof.
  intros Hne. induction l as [|r l IH]; simpl; [reflexivity|].
  rewrite IH. unfold touch at 1 2.
  destruct (rate_key ip endpoint r) eqn:Hk; [|reflexivity].
  apply rate_key_pair in Hk.
  assert (H1 : rate_key ip' endpoint' r = false).
  { destruct (rate_key ip' endpoint' r) eqn:H; [|reflexivity].
    apply rate_key_pair in H. congruence. }
  rewrite H1. unfold rate_key. simpl. fold (rate_key ip' endpoint' r).
  now rewrite H1.
Qed.

(** X23 — A call of the limiter never creates or changes the row of
    another address or endpoint: whatever row another key has afterwards,
    it had before.  (Such a row can only disappear, when the call is let
    through and the row is older than 300 seconds.) *)
Theorem limiter_leaves_other_keys (d : Db) (w : World) (endpoint : string)
    (ip' endpoint' : string) (r' : RateRow) :
  rate_keys_unique d ->
  (ip', endpoint') <> (get_client_ip w, endpoint) ->
  rate_entry (fst (check_rate_limit d w endpoint)) ip' endpoint' = Some r' ->
  rate_entry d ip' endpoint' = Some r'.
Proof.
  intros Hu Hne. unfold check_rate_limit, rate_entry.
  set (kept := filter _ (rate_limits d)).
  assert (Hkept : find (rate_key ip' endpoint') kept = Some r' ->
            find (rate_key ip' endpoint') (rate_limits d) = Some r').
  { subst kept. rewrite (find_rate_filter _ _ _ _ Hu).
    destruct (find (rate_key ip' endpoint') (rate_limits d)) as [r|];
      [|discriminate].
    destruct (negb (r_last_attempt r <? now w - 300)); [auto|discriminate]. }
  destruct (find (rate_key (get_client_ip w) endpoint) kept) as [res|].
  - destruct (r_attempt_count res >=? 50); simpl; [auto|].
    rewrite (find_rate_touch_other _ _ _ _ _ _ Hne). exact Hkept.
  - simpl. intros H. apply Hkept.
    destruct (find (rate_key ip' endpoint') kept) as [x|] eqn:Hf.
    + now rewrite (find_app_some _ _ _ _ Hf) in H.
    + rewrite (find_app_none _ _ _ Hf) in H. simpl in H.
      destruct (rate_key ip' endpoint' _) eqn:Hk; [|discriminate].
      apply rate_key_pair in Hk. unfold rate_pair in Hk. simpl in Hk. congruence.
Qed.

(** ** The mailer and the debug page *)

(** X24 — The debug page and the mailer agree, and the page gives
    nothing away: the page reads SET for all three Mailgun settings exactly
    when [send_mailgun_email], run on the same environment, gets past its
    check of the settings (it then fails, if at all, on the HTTP call);
    and the page depends on the environment only through which of the
    three settings are non-empty, never on their values. *)
Theorem debug_env_agrees_with_mailer (getenv : string -> option string)
    (post : MailgunRequest -> HttpResult) (to subject html_content : string) :
  let result :=
    send_mailgun_email (getenv "MAILGUN_DOMAIN") (getenv "MAILGUN_API_KEY")
                       (getenv "MAILGUN_SENDER") post to subject html_content in
  (fst (debug_env getenv)
   = "MAILGUN_DOMAIN: SET<br>MAILGUN_API_KEY: SET<br>MAILGUN_SENDER: SET"
   <-> result <> inl RuntimeError) /\
  (forall getenv',
     (forall k, Py.truthy (getenv' k) = Py.truthy (getenv k)) ->
     debug_env getenv' = debug_env getenv).
Proof.
  cbv zeta. split.
  - unfold debug_env, send_mailgun_email. cbn [map fst snd join].
    destruct (getenv "MAILGUN_DOMAIN") as [[|c1 s1]|];
    destruct (getenv "MAILGUN_API_KEY") as [[|c2 s2]|];
    destruct (getenv "MAILGUN_SENDER") as [[|c3 s3]|];
    cbn [Py.truthy];
    try (split; [intros H; vm_compute in H; discriminate H
                |intros H; exfalso; apply H; reflexivity]).
    split; [|reflexivity]. intros _.
    destruct (post _) as [status_code text|]; [|discriminate].
    destruct ((400 <=? status_code) && (status_code <? 600))%bool; discriminate.
  - intros getenv' H. unfold debug_env. cbn [map fst snd]. now rewrite !H.
Qed.

Lemma limiter_leaves_other_keys_witness :
  let w := Demo.world 110 "" true in
  let r' := mkRate "10.0.0.7" "create_poll" 1 100 in
  rate_keys_unique Demo.created /\
  rate_entry (fst (check_rate_limit Demo.created w "vote")) "10.0.0.7" "create_poll"
  = Some r' /\
  rate_entry Demo.created "10.0.0.7" "create_poll" = Some r'.
Proof.
  cbv zeta.
  assert (Hu : rate_keys_unique Demo.created).
  { unfold rate_keys_unique. simpl. constructor; [simpl; tauto|constructor]. }
  split; [exact Hu|]. split; [reflexivity|].
  apply (limiter_leaves_other_keys Demo.created (Demo.world 110 "" true) "vote"
           "10.0.0.7" "create_poll" _ Hu); [|reflexivity].
  vm_compute. discriminate.
Defined.
